(** * InvestopediaDownload: the related-article crawler of [build_graph.py]

    A shallow embedding of [explore_related] and [main] of
    [src/build_graph.py] and of [get_article],
    [get_articles_from_term_page] and [main] of [src/download.py],
    together with the properties of the traversal: union merge of graph
    deltas, skip on missing content, edge deduplication, depth-bounded
    termination, the depth-0 scenario, forced re-download, idempotent
    re-runs, path construction, the registry-delta invariant and the
    exit codes of the driver.

    Modelling decisions.
    - Python dictionaries ([article_map], [graph], the two sub-maps) are
      finite maps [gmap string _].  The order in which a dictionary is
      iterated only matters in [main], whose loop runs over the keys of the
      seed file: there the parsed file is an ordered list of pairs.
    - The file system is a finite map from path strings to the contents of
      regular files; directories ([os.makedirs], [os.path.isdir]) are not
      represented.
    - The network, the HTML parser, the JSON reader and writers and the
      iteration order of a Python [set] are parameters gathered in [Env].
      The order of a [set] of strings changes from one process to the
      next, so two runs of the program are two environments.
      Exceptions these collaborators could raise (connection errors,
      malformed markup, a tag without [href], OS errors, [open] for
      writing in a directory that does not exist) and seed entries
      without ["path"] or ["link"] are outside the model; [Raise] models
      [KeyError] on the lookup of an article key and [FileNotFoundError]
      on an [open] for reading.
    - The world carries a chronological trace of observable events: every
      call of [get_article], every printed line, and every entry into
      [explore_related] with its depth argument.
    - Paths are joined as [posixpath] does.  Strings are byte strings; the
      separator ["/"] is one byte in UTF-8 and is no part of another
      character's encoding.
    - [explore_related] takes a parameter [fuel] that bounds the nesting
      of its recursive calls; [OutOfFuel] is the result of a run that
      would nest deeper.  The properties below show that a fuel above
      [depth] is always enough.
    - [article_map] is mutated in place by the source; here each call
      returns the registry it leaves, next to the two sub-maps that the
      source returns. *)

From Stdlib Require Import ZArith Ascii String DecimalString.
From stdpp Require Import base option list gmap strings fin_maps sets.

Open Scope string_scope.
Open Scope list_scope.
Open Scope Z_scope.

(** ** Results of fallible computations *)

Inductive exn :=
  | KeyError (key : string)
  | FileNotFoundError (file_path : string).

Inductive result (A : Type) :=
  | Ok (a : A)
  | Raise (e : exn)
  | OutOfFuel.
Arguments Ok {A} a.
Arguments Raise {A} e.
Arguments OutOfFuel {A}.

Definition result_bind {A B} (r : result A) (f : A → result B) : result B :=
  match r with
  | Ok a => f a
  | Raise e => Raise e
  | OutOfFuel => OutOfFuel
  end.

Notation "'let*' x := r 'in' k" := (result_bind r (λ x, k))
  (at level 10, x pattern, r at level 100, k at level 200,
   format "'[v' 'let*'  x  :=  '[' r ']'  'in'  '/' k ']'").

(** [for x in xs: st = body st x], stopping at the first exception. *)
Fixpoint for_each {S A} (body : S → A → result S) (xs : list A) (st : S)
  : result S :=
  match xs with
  | [] => Ok st
  | x :: xs' =>
      match body st x with
      | Ok st' => for_each body xs' st'
      | Raise e => Raise e
      | OutOfFuel => OutOfFuel
      end
  end.

(** ** Strings and paths *)

(** [str(n)] for a Python [int]. *)
Definition str_of_int (n : Z) : string := NilZero.string_of_int (Z.to_int n).

(** [s.replace(a, b)] for one-character [a] and [b]. *)
Fixpoint str_replace (a b : ascii) (s : string) : string :=
  match s with
  | EmptyString => EmptyString
  | String c s' =>
      String (if Ascii.eqb c a then b else c) (str_replace a b s')
  end.

Definition startswith_sep (s : string) : bool :=
  match s with
  | String c _ => Ascii.eqb c "/"
  | EmptyString => false
  end.

Fixpoint endswith_sep (s : string) : bool :=
  match s with
  | EmptyString => false
  | String c EmptyString => Ascii.eqb c "/"
  | String _ s' => endswith_sep s'
  end.

(** [os.path.join(a, b)] of [posixpath]. *)
Definition os_path_join (a b : string) : string :=
  if startswith_sep b then b
  else if (String.eqb a "" || endswith_sep a)%bool then a +:+ b
  else a +:+ "/" +:+ b.

(** Does the character occur in the string? *)
Fixpoint str_contains (a : ascii) (s : string) : bool :=
  match s with
  | EmptyString => false
  | String c s' => (Ascii.eqb c a || str_contains a s')%bool
  end.

(** ** Data model *)

(** The value stored for an article: [{"path": ..., "link": ...}]. *)
Record ArticleData := { path : string; link : string }.

#[global] Instance ArticleData_eq_dec : EqDecision ArticleData.
Proof. solve_decision. Defined.

Abbreviation registry := (gmap string ArticleData).
Abbreviation graph := (gmap string (list string)).

(** An outbound link: [(tag.text, tag["href"], True)]. *)
Definition OutboundLink : Type := string * string * bool.

Inductive event :=
  | EvCall (article : string) (depth : Z)
  | EvGetArticle (article_link file_path : string)
  | EvPrint (msg : string).

#[global] Instance event_eq_dec : EqDecision event.
Proof. solve_decision. Defined.

Record World := { files : gmap string string; trace : list event }.

(** The state threaded through the recursion: the world, the shared
    [article_map], and the two sub-maps that are returned. *)
Abbreviation ExploreState := (World * registry * registry * graph)%type.

(** The state of the loop of [main]: the world, [expanded_map] and
    [graph]. *)
Abbreviation MainState := (World * registry * graph)%type.

Definition log (e : event) (w : World) : World :=
  {| files := files w; trace := trace w ++ [e] |}.

Definition print (msg : string) (w : World) : World := log (EvPrint msg) w.

(** [os.path.exists(p)] *)
Definition path_exists (p : string) (w : World) : bool :=
  bool_decide (is_Some (files w !! p)).

(** [with open(p, "w+") as f: f.write(text)] *)
Definition write_file (p text : string) (w : World) : World :=
  {| files := <[p := text]> (files w); trace := trace w |}.

(** [with open(p, "r") as f: f.read()] *)
Definition read_file (p : string) (w : World) : result string :=
  match files w !! p with
  | Some text => Ok text
  | None => Raise (FileNotFoundError p)
  end.

(** [d[k]] *)
Definition subscript {V} (d : gmap string V) (k : string) : result V :=
  match d !! k with
  | Some v => Ok v
  | None => Raise (KeyError k)
  end.

(** The answer of [requests.get]. *)
Record Response := { status_code : Z; text : string }.

(** ** The collaborators *)

Record Env := {
  (** [requests.get(url)]; the answer may depend on everything that
      happened before. *)
  requests_get : list event → string → Response;
  (** [(tag.text, tag["href"])] for the tags found by
      [soup.find_all('a', class_='related-terms__title mntl-text-link')]. *)
  find_term_tags : string → list (string * string);
  (** [(tag.find('span', class_='card__title-text').text, tag["href"])]
      for the tags of class [related-articles__link card]. *)
  find_article_tags : string → list (string * string);
  (** [list(set(value))]: the distinct elements, in the order in which
      Python happens to iterate the set. *)
  list_set : list string → list string;
  list_set_perm : ∀ l, list_set l ≡ₚ remove_dups l;
  (** [json.load] of the seed file, as the pairs of the object in file
      order. *)
  json_load : string → list (string * ArticleData);
  (** [json.dump(_, f, indent=4)] *)
  json_dump_registry : registry → string;
  json_dump_graph : graph → string
}.

(** The loop that merges a returned graph delta
    (lines 178-182 of [explore_related], lines 305-309 of [main]):
<<
    for graph_node, graph_values in graph_sub_submap.items():
        if graph_node in graph_submap:
            graph_submap[graph_node] += graph_values
        else:
            graph_submap[graph_node] = graph_values
>>
    The list stored by the [else] branch is shared with the delta, which
    is dropped right after the loop. *)
Definition merge_graph (graph_submap graph_sub_submap : graph) : graph :=
  map_fold
    (λ (graph_node : string) (graph_values : list string)
       (graph_submap : graph),
       match graph_submap !! graph_node with
       | Some old => <[graph_node := old ++ graph_values]> graph_submap
       | None => <[graph_node := graph_values]> graph_submap
       end)
    graph_submap graph_sub_submap.

Section Crawler.
Context (E : Env).

(** [get_article] of [download.py]. *)
Definition get_article (article_link file_path : string) (w : World)
  : World :=
  let response := requests_get E (trace w) article_link in
  let w := log (EvGetArticle article_link file_path) w in
  let return_status := status_code response in
  if negb (return_status =? 200) then
    print ("Request returned " +:+ str_of_int return_status
           +:+ " status code for " +:+ article_link) w
  else write_file file_path (text response) w.

(** The two list comprehensions that fill [outbound_links]. *)
Definition parse_outbound_links (content : string) : list OutboundLink :=
  ((λ tag, (tag.1, tag.2, true)) <$> find_term_tags E content)
  ++ ((λ tag, (tag.1, tag.2, true)) <$> find_article_tags E content).

(** [f"./data/{'term' if is_term else 'article'}/"] *)
Definition related_articles_folder (is_term : bool) : string :=
  "./data/" +:+ (if is_term then "term" else "article") +:+ "/".

(** The path given to an article seen for the first time. *)
Definition fresh_article_path (is_term : bool) (article : string)
  : string :=
  let article_cleaned := str_replace "/" "-" article in
  os_path_join (related_articles_folder is_term)
               (article_cleaned +:+ ".html").

(** The block DOWNLOAD/LOAD ARTICLE (lines 63-96): the updated world and
    registry, the registry delta, and [article_path]. *)
Definition download_step (article_map : registry)
    (article article_url : string) (is_term restart : bool) (w : World)
  : result (World * registry * registry * string) :=
  let article_submap : registry := ∅ in
  let article_unseen := bool_decide (article ∉ dom article_map) in
  let* (w, article_map, article_submap) :=
    (if (restart || article_unseen)%bool then
       if article_unseen then
         let article_path := fresh_article_path is_term article in
         let article_data :=
           {| path := article_path; link := article_url |} in
         let article_submap := <[article := article_data]> article_submap in
         let article_map := <[article := article_data]> article_map in
         Ok (get_article article_url article_path w,
             article_map, article_submap)
       else
         let* article_data := subscript article_map article in
         let article_path := path article_data in
         Ok (get_article article_url article_path w,
             article_map, article_submap)
     else Ok (w, article_map, article_submap)) in
  let* article_data := subscript article_map article in
  Ok (w, article_map, article_submap, path article_data).

Definition missing_msg1 (article_path article : string) : string :=
  "Error: Did not detect local file " +:+ article_path
  +:+ " for " +:+ article.
Definition missing_msg2 : string :=
  "Please make sure download.py has been run to completion before running this script.".

(** The body of the loop over [outbound_links] (lines 161-189), for a
    recursive call [recurse]. *)
Definition explore_links_body
    (recurse : registry → string → string → bool → World
               → result ExploreState)
    (st : ExploreState) (outbound_link : OutboundLink)
  : result ExploreState :=
  let '(w, article_map, article_submap, graph_submap) := st in
  let '(article_name, article_link, is_term) := outbound_link in
  let* (w, article_map, article_sub_submap, graph_sub_submap) :=
    recurse article_map article_name article_link is_term w in
  let article_submap := article_sub_submap ∪ article_submap in
  let graph_submap := merge_graph graph_submap graph_sub_submap in
  Ok (w, article_map, article_submap, graph_submap).

(** [[new_article[0] for new_article in outbound_links]] *)
Definition link_names (outbound_links : list OutboundLink) : list string :=
  (λ new_article : OutboundLink, new_article.1.1) <$> outbound_links.

(** [explore_related]; [fuel] bounds the nesting of recursive calls. *)
Fixpoint explore_related (fuel : nat) (article_map : registry)
    (article article_url : string) (is_term : bool) (depth : Z)
    (restart : bool) (w : World) : result ExploreState :=
  match fuel with
  | O => OutOfFuel
  | S fuel' =>
      let w := log (EvCall article depth) w in
      let graph_submap : graph := ∅ in
      let* (w, article_map, article_submap, article_path) :=
        download_step article_map article article_url is_term restart w in
      if negb (path_exists article_path w) then
        let w := print (missing_msg1 article_path article) w in
        let w := print missing_msg2 w in
        Ok (w, article_map, article_submap, graph_submap)
      else
        let* content := read_file article_path w in
        let outbound_links := parse_outbound_links content in
        let graph_submap :=
          match graph_submap !! article with
          | Some old =>
              <[article := old ++ link_names outbound_links]> graph_submap
          | None => <[article := link_names outbound_links]> graph_submap
          end in
        let* (w, article_map, article_submap, graph_submap) :=
          (if 0 <? depth then
             for_each
               (explore_links_body
                  (λ article_map article_name article_link is_term w,
                     explore_related fuel' article_map article_name
                       article_link is_term (depth - 1) restart w))
               outbound_links
               (w, article_map, article_submap, graph_submap)
           else Ok (w, article_map, article_submap, graph_submap)) in
        let graph_submap := list_set E <$> graph_submap in
        Ok (w, article_map, article_submap, graph_submap)
  end.

(** *** The driver *)

Definition data_folder : string := "./graph".
Definition article_json : string :=
  os_path_join data_folder "article_map.json".
Definition expanded_json (depth : Z) : string :=
  os_path_join data_folder
    ("expanded_article_map_depth" +:+ str_of_int depth +:+ ".json").
Definition graph_json (depth : Z) : string :=
  os_path_join data_folder
    ("term_article_graph_depth" +:+ str_of_int depth +:+ ".json").

(** The dictionary [json.load] builds from the pairs of the object: a
    repeated key keeps its first position and takes the last value. *)
Definition dict_of_pairs (pairs : list (string * ArticleData)) : registry :=
  foldl (λ d kv, <[kv.1 := kv.2]> d) ∅ pairs.
Definition keys_of_pairs (pairs : list (string * ArticleData))
  : list string :=
  reverse (remove_dups (reverse (pairs.*1))).

(** The body of the loop over the seeds (lines 283-309). *)
Definition main_loop_body (fuel : nat) (article_map : registry)
    (depth : Z) (restart : bool) (st : MainState) (article : string)
  : result MainState :=
  let '(w, expanded_map, graph) := st in
  let* article_data := subscript article_map article in
  let article_path := path article_data in
  let* article_data := subscript article_map article in
  let article_link := link article_data in
  if negb (path_exists article_path w) then
    let w := print ("Could not find path " +:+ article_path) w in
    let w := print ("Skipping " +:+ article) w in
    Ok (w, expanded_map, graph)
  else
    let* (w, expanded_map, article_submap, graph_submap) :=
      explore_related fuel expanded_map article article_link true depth
        restart w in
    let expanded_map := article_submap ∪ expanded_map in
    let graph := merge_graph graph graph_submap in
    Ok (w, expanded_map, graph).

(** The block EXPLORE RELATED ARTICLES of [main] (lines 271-316):
    [expanded_map] starts as a copy of [article_map], [graph] with an
    empty list for every seed. *)
Definition traverse (fuel : nat) (article_map : registry)
    (seeds : list string) (depth : Z) (restart : bool) (w : World)
  : result MainState :=
  let expanded_map := article_map in
  let graph : graph := (λ _, []) <$> article_map in
  for_each (main_loop_body fuel article_map depth restart) seeds
    (w, expanded_map, graph).

Definition seed_missing_msg1 : string :=
  "Error: Could not detect required file " +:+ article_json.
Definition seed_missing_msg2 : string :=
  "Please be sure to run download.py before running this script.".

(** [main], from the test for the seed file on; the result is the final
    world and the argument of [exit]. *)
Definition main (fuel : nat) (restart : bool) (depth : Z) (w : World)
  : result (World * Z) :=
  if negb (path_exists article_json w) then
    let w := print seed_missing_msg1 w in
    let w := print seed_missing_msg2 w in
    Ok (w, 1)
  else
    let* content := read_file article_json w in
    let pairs := json_load E content in
    let article_map := dict_of_pairs pairs in
    let* (w, expanded_map, graph) :=
      traverse fuel article_map (keys_of_pairs pairs) depth restart w in
    let graph := list_set E <$> graph in
    let w :=
      write_file (expanded_json depth)
        (json_dump_registry E expanded_map) w in
    let w := write_file (graph_json depth) (json_dump_graph E graph) w in
    Ok (w, 0).

End Crawler.

(** ** Definitions used to state the properties *)

(** The edges recorded for a node, [[]] when the node is no key. *)
Definition edges (g : graph) (k : string) : list string :=
  default [] (g !! k).

(** What the merge stores for a key that both graphs have. *)
Definition concat_edges (old new : list string) : option (list string) :=
  Some (old ++ new).

(** The three kinds of events. *)
Definition is_call (e : event) : Prop :=
  match e with EvCall _ _ => True | _ => False end.
Definition is_get_article (e : event) : Prop :=
  match e with EvGetArticle _ _ => True | _ => False end.
Definition is_print (e : event) : Prop :=
  match e with EvPrint _ => True | _ => False end.

Section Specification.
Context (E : Env).

(** The loop over the outbound links, at a given fuel. *)
Definition explore_links (fuel : nat) (depth : Z) (restart : bool)
    (outbound_links : list OutboundLink) (st : ExploreState)
  : result ExploreState :=
  for_each
    (explore_links_body
       (λ article_map article_name article_link is_term w,
          explore_related E fuel article_map article_name article_link
            is_term (depth - 1) restart w))
    outbound_links st.

(** The recursive call made by the loop at a given fuel and depth. *)
Definition recurse_at (fuel : nat) (depth : Z) (restart : bool)
  : registry → string → string → bool → World → result ExploreState :=
  λ article_map article_name article_link is_term w,
    explore_related E fuel article_map article_name article_link is_term
      (depth - 1) restart w.

(** [loop_call recurse links st link r]: while the loop over [links]
    runs from the state [st], the recursive call made for [link]
    returns [r]. *)
Inductive loop_call
    (recurse : registry → string → string → bool → World
               → result ExploreState)
  : list OutboundLink → ExploreState → OutboundLink → ExploreState → Prop :=
  | loop_call_here w am sub g n l t rest r :
      recurse am n l t w = Ok r →
      loop_call recurse ((n, l, t) :: rest) (w, am, sub, g) (n, l, t) r
  | loop_call_later st link0 st1 rest link r :
      explore_links_body recurse st link0 = Ok st1 →
      loop_call recurse rest st1 link r →
      loop_call recurse (link0 :: rest) st link r.

(** The postcondition of a completed call: the registry is the delta
    laid over the registry on entry, the delta holds only identifiers
    that were not registered, every edge list is free of duplicates, and
    the calls nested in this one have depths from [0] up to, but not
    including, [depth]. *)
Definition explore_post (am : registry) (w : World) (a : string)
    (depth : Z) (st : ExploreState) : Prop :=
  let '(w', am', sub, g) := st in
  am' = sub ∪ am ∧ sub ##ₘ am
  ∧ (∀ k l, g !! k = Some l → NoDup l)
  ∧ ∃ evs, trace w' = trace w ++ EvCall a depth :: evs
           ∧ ∀ a' d', EvCall a' d' ∈ evs → 0 ≤ d' < depth.

(** Every link of every registered article whose content is on disk
    names a registered article. *)
Definition registry_closed (am : registry) (fs : gmap string string)
  : Prop :=
  ∀ k d c (link : OutboundLink),
    am !! k = Some d → fs !! path d = Some c →
    link ∈ parse_outbound_links E c → is_Some (am !! link.1.1).

(** Two file systems hold the same content at every registered path. *)
Definition agree_on (am : registry) (fs1 fs2 : gmap string string)
  : Prop :=
  ∀ k d, am !! k = Some d → fs1 !! path d = fs2 !! path d.

(** [w'] extends [w] without a download and without touching a file. *)
Definition quiet (w w' : World) : Prop :=
  files w' = files w
  ∧ ∃ evs, trace w' = trace w ++ evs
           ∧ Forall (λ e, ¬ is_get_article e) evs.

(** No download between [w] and [w']. *)
Definition no_downloads (w w' : World) : Prop :=
  ∃ evs, trace w' = trace w ++ evs
         ∧ Forall (λ e, ¬ is_get_article e) evs.

(** The events of a traversal at depth [0]: calls for seeds at depth [0],
    forced re-downloads of seeds, and printed lines. *)
Definition seed_event (am : registry) (seeds : list string)
    (restart : bool) (e : event) : Prop :=
  match e with
  | EvCall a d => a ∈ seeds ∧ d = 0
  | EvGetArticle url p =>
      restart = true
      ∧ ∃ s d, s ∈ seeds ∧ am !! s = Some d ∧ url = link d ∧ p = path d
  | EvPrint _ => True
  end.

(** The registry [main] loads from the seed file of a world. *)
Definition seed_registry (w : World) : registry :=
  match files w !! article_json with
  | Some content => dict_of_pairs (json_load E content)
  | None => ∅
  end.

(** The files after a completed run that wrote the registry [em] and
    the graph [g]. *)
Definition with_outputs (depth : Z) (em : registry) (g : graph)
    (fs : gmap string string) : gmap string string :=
  <[graph_json depth := json_dump_graph E g]>
    (<[expanded_json depth := json_dump_registry E em]> fs).

End Specification.

(** A checker for [registry_closed]. *)
Definition registry_closedb (E : Env) (am : registry)
    (fs : gmap string string) : bool :=
  forallb
    (λ kd : string * ArticleData,
       match fs !! path kd.2 with
       | None => true
       | Some c =>
           forallb
             (λ link : OutboundLink, bool_decide (is_Some (am !! link.1.1)))
             (parse_outbound_links E c)
       end)
    (map_to_list am).

(** ** A concrete environment, for the examples *)

Module Demo.

Definition url_b := "https://x/bond.asp".
Definition url_y := "https://x/yield.asp".
Definition url_c := "https://x/coupon.asp".
Definition url_p := "https://x/par.asp".
Definition url_g := "https://x/ghost.asp".

Definition bond : ArticleData :=
  {| path := "./data/term/Bond.html"; link := url_b |}.
Definition yield : ArticleData :=
  {| path := "./data/term/Yield.html"; link := url_y |}.

(** The pages, named by what they link to. *)
Definition bond_html := "Bond: Yield, Yield, Coupon".
Definition yield_html := "Yield: Bond, Par/Value".
Definition coupon_html := "Coupon: Par/Value".
Definition par_html_1 := "Par/Value: Face".
Definition par_html_2 := "Par/Value: Maturity".

Definition demo_terms (content : string) : list (string * string) :=
  if String.eqb content bond_html then
    [("Yield", url_y); ("Yield", url_y); ("Coupon", url_c)]
  else if String.eqb content yield_html then
    [("Bond", url_b); ("Par/Value", url_p)]
  else if String.eqb content coupon_html then [("Par/Value", url_p)]
  else if String.eqb content par_html_1 then [("Face", "https://x/f.asp")]
  else if String.eqb content par_html_2 then
    [("Maturity", "https://x/m.asp")]
  else if String.eqb content "Bond: Yield" then [("Yield", url_y)]
  else if String.eqb content "Yield: Bond" then [("Bond", url_b)]
  else [].

Definition fetched_before (url : string) (history : list event) : bool :=
  existsb (λ e, match e with
                | EvGetArticle u _ => String.eqb u url
                | _ => false
                end) history.

(** The site serves Yield and Coupon, serves a page for Par/Value that
    has changed by the second request, and answers 404 elsewhere. *)
Definition demo_web (history : list event) (url : string) : Response :=
  if String.eqb url url_y then {| status_code := 200; text := yield_html |}
  else if String.eqb url url_c then
    {| status_code := 200; text := coupon_html |}
  else if String.eqb url url_p then
    {| status_code := 200;
       text := if fetched_before url_p history then par_html_2
               else par_html_1 |}
  else {| status_code := 404; text := "" |}.

Definition seed_json := "seeds: Bond".
Definition closed_seed_json := "seeds: Bond, Yield".

Definition demo_json_load (content : string)
  : list (string * ArticleData) :=
  if String.eqb content closed_seed_json then
    [("Bond", bond); ("Yield", yield)]
  else [("Bond", bond)].

Definition env : Env :=
  {| requests_get := demo_web;
     find_term_tags := demo_terms;
     find_article_tags := λ _, [];
     list_set := remove_dups;
     list_set_perm := λ l, reflexivity (remove_dups l);
     json_load := demo_json_load;
     json_dump_registry := λ em, String.concat "," (map_to_list em).*1;
     json_dump_graph :=
       λ g, String.concat ";"
              ((λ kv, kv.1 +:+ ":" +:+ String.concat "," kv.2)
                 <$> map_to_list g) |}.

Definition seeds : registry := {[ "Bond" := bond ]}.

(** Only the seed page is on disk. *)
Definition world : World :=
  {| files := {[ "./graph/article_map.json" := seed_json;
                 "./data/term/Bond.html" := bond_html ]};
     trace := [] |}.

(** Bond and Yield are registered and on disk, and link to each other
    and to nothing else. *)
Definition closed_world : World :=
  {| files := {[ "./graph/article_map.json" := closed_seed_json;
                 "./data/term/Bond.html" := "Bond: Yield";
                 "./data/term/Yield.html" := "Yield: Bond" ]};
     trace := [] |}.

Definition state_of (r : result ExploreState) : ExploreState :=
  match r with
  | Ok st => st
  | _ => (world, ∅, ∅, ∅)
  end.

(** The seed expanded to depth 2, without and with [--restart]. *)
Definition plain_run : ExploreState :=
  Eval vm_compute in
    state_of (explore_related env 3 seeds "Bond" url_b true 2 false world).
Definition forced_run : ExploreState :=
  Eval vm_compute in
    state_of (explore_related env 3 seeds "Bond" url_b true 2 true world).

(** The download step of [forced_run]. *)
Definition forced_download : World * registry * registry * string :=
  Eval vm_compute in
    match download_step env seeds "Bond" url_b true true
            (log (EvCall "Bond" 2) world) with
    | Ok x => x
    | _ => (world, ∅, ∅, "")
    end.

(** A seed at depth 0 under [--restart], called with another locator. *)
Definition forced_leaf_run : ExploreState :=
  Eval vm_compute in
    state_of (explore_related env 1 seeds "Bond" "https://x/moved.asp"
                true 0 true world).

(** An article that is not registered and cannot be downloaded. *)
Definition ghost_run : ExploreState :=
  Eval vm_compute in
    state_of (explore_related env 1 seeds "Ghost" url_g true 0 false world).

(** The download step of [ghost_run]. *)
Definition ghost_download : World * registry * registry * string :=
  Eval vm_compute in
    match download_step env seeds "Ghost" url_g true false
            (log (EvCall "Ghost" 0) world) with
    | Ok x => x
    | _ => (world, ∅, ∅, "")
    end.

Definition main_state_of (r : result MainState) : MainState :=
  match r with
  | Ok st => st
  | _ => (world, ∅, ∅)
  end.

(** The driver run over the closed world, to depth 2. *)
Definition closed_main_run : World :=
  Eval vm_compute in
    match main env 3 false 2 closed_world with
    | Ok (w, _) => w
    | _ => world
    end.

(** The seeds traversed at depth 0. *)
Definition depth0_run : MainState :=
  Eval vm_compute in
    main_state_of (traverse env 1 seeds ["Bond"] 0 false world).

End Demo.

(** ** Definitions used to state the further properties *)

(** The calls of [get_article] among some events, as pairs of the link
    and the destination path. *)
Definition downloads (evs : list event) : list (string * string) :=
  omap (λ e, match e with
             | EvGetArticle article_link file_path =>
                 Some (article_link, file_path)
             | _ => None
             end) evs.

(** The link and the path of every entry of a registry. *)
Definition registry_downloads (am : registry) : list (string * string) :=
  (λ kd : string * ArticleData, (link kd.2, path kd.2)) <$> map_to_list am.

(** Two graphs with the same keys and, under every key, the same
    names. *)
Definition same_elements (g1 g2 : graph) : Prop :=
  dom g1 = dom g2 ∧ ∀ k x, x ∈ edges g1 k ↔ x ∈ edges g2 k.

(** Two graphs with the same keys and, under every key, the same edges up
    to the order of the list. *)
Definition same_edges (g1 g2 : graph) : Prop :=
  dom g1 = dom g2 ∧ ∀ k, edges g1 k ≡ₚ edges g2 k.

(** Two processes parse pages and the seed file alike.  The answers of
    the site and the order in which [list(set(.))] enumerates a set are
    left free: the first changes with time, the second with the hash seed
    of the process. *)
Definition same_parsers (E1 E2 : Env) : Prop :=
  (∀ content, find_term_tags E1 content = find_term_tags E2 content)
  ∧ (∀ content, find_article_tags E1 content = find_article_tags E2 content)
  ∧ (∀ content, json_load E1 content = json_load E2 content).

(** ** The regular expressions of [download.py]

    The two patterns use literals, one group, a greedy [+] and a lazy
    [*?] over a class of characters, and [$].  [re.search] is modelled by
    a backtracking matcher for this fragment: the leftmost match, a greedy
    repetition tried from the longest run down, a lazy one from the
    shortest run up.  [\d] is modelled as an ASCII digit; the pattern that
    uses it is only applied to the constants of [category_pages]. *)

Inductive regex :=
  | RLit (s : string)
  | RPlus (cls : ascii → bool)
  | RLazyStar (cls : ascii → bool)
  | RGroup (r : regex)
  | RSeq (r1 r2 : regex)
  | REnd.

(** Do all characters of [s] belong to the class? *)
Fixpoint str_forall (cls : ascii → bool) (s : string) : bool :=
  match s with
  | EmptyString => true
  | String c s' => (cls c && str_forall cls s')%bool
  end.

(** [s] without its prefix [l], when [s] starts with [l]. *)
Fixpoint strip_prefix (l s : string) : option string :=
  match l, s with
  | EmptyString, _ => Some s
  | String a l', String b s' =>
      if Ascii.eqb a b then strip_prefix l' s' else None
  | String _ _, EmptyString => None
  end.

(** The first [n] characters of [s]. *)
Fixpoint str_take (n : nat) (s : string) : string :=
  match n, s with
  | S n', String c s' => String c (str_take n' s')
  | _, _ => EmptyString
  end.

(** What a match that started at [s] and stopped at [s'] has consumed. *)
Definition consumed (s s' : string) : string :=
  str_take (String.length s - String.length s') s.

(** [cls*], greedy, then the continuation [k]. *)
Fixpoint star_greedy {A} (cls : ascii → bool) (s : string)
    (k : string → option A) : option A :=
  match s with
  | String c s' =>
      if cls c then
        match star_greedy cls s' k with
        | Some r => Some r
        | None => k s
        end
      else k s
  | EmptyString => k s
  end.

(** [cls+], greedy. *)
Definition plus_greedy {A} (cls : ascii → bool) (s : string)
    (k : string → option A) : option A :=
  match s with
  | String c s' => if cls c then star_greedy cls s' k else None
  | EmptyString => None
  end.

(** [cls*?], lazy. *)
Fixpoint star_lazy {A} (cls : ascii → bool) (s : string)
    (k : string → option A) : option A :=
  match k s with
  | Some r => Some r
  | None =>
      match s with
      | String c s' => if cls c then star_lazy cls s' k else None
      | EmptyString => None
      end
  end.

(** [$]: at the end of the string, or just before a newline that ends
    it. *)
Definition at_end (s : string) : bool :=
  (String.eqb s "" || String.eqb s (String "010" ""))%bool.

(** A match of [r] at the start of [s]; [grp] is the text of the group so
    far, and [k] continues with the rest of the string. *)
Fixpoint rmatch {A} (r : regex) (s : string) (grp : option string)
    (k : string → option string → option A) : option A :=
  match r with
  | RLit l =>
      match strip_prefix l s with
      | Some s' => k s' grp
      | None => None
      end
  | RPlus cls => plus_greedy cls s (λ s', k s' grp)
  | RLazyStar cls => star_lazy cls s (λ s', k s' grp)
  | RGroup r' => rmatch r' s grp (λ s' _, k s' (Some (consumed s s')))
  | RSeq r1 r2 => rmatch r1 s grp (λ s' grp', rmatch r2 s' grp' k)
  | REnd => if at_end s then k s grp else None
  end.

(** [re.search(r, s)], as [match.group(1)] of the leftmost match. *)
Fixpoint re_search (r : regex) (s : string) : option string :=
  match rmatch r s None (λ _ grp, Some (default "" grp)) with
  | Some name => Some name
  | None =>
      match s with
      | String _ s' => re_search r s'
      | EmptyString => None
      end
  end.

Definition not_sep (c : ascii) : bool := negb (Ascii.eqb c "/").
Definition not_newline (c : ascii) : bool := negb (Ascii.eqb c "010").
Definition is_digit (c : ascii) : bool :=
  ((48 <=? nat_of_ascii c)%nat && (nat_of_ascii c <=? 57)%nat)%bool.

(** [category_pattern = r"terms-beginning-with-(.*?)-\d+"] *)
Definition category_pattern : regex :=
  RSeq (RLit "terms-beginning-with-")
    (RSeq (RGroup (RLazyStar not_newline))
       (RSeq (RLit "-") (RPlus is_digit))).

(** [article_pattern = r"\/([^\/]+)\.asp$"] *)
Definition article_pattern : regex :=
  RSeq (RLit "/")
    (RSeq (RGroup (RPlus not_sep)) (RSeq (RLit ".asp") REnd)).

(** [link] ends with [/name.asp], possibly followed by one newline, for
    a non-empty [name] without ["/"]. *)
Definition names_article (link name : string) : Prop :=
  ∃ pre tail,
    link = pre +:+ "/" +:+ name +:+ ".asp" +:+ tail
    ∧ (tail = "" ∨ tail = String "010" "")
    ∧ name ≠ "" ∧ str_contains "/" name = false.

(** ** The seed crawler: [download.py] *)

Definition base_url : string := "https://www.investopedia.com/".

Definition category_pages : list string :=
  [ "terms-beginning-with-num-4769350";
    "terms-beginning-with-a-4769351";
    "terms-beginning-with-b-4769352";
    "terms-beginning-with-c-4769353";
    "terms-beginning-with-d-4769354";
    "terms-beginning-with-e-4769355";
    "terms-beginning-with-f-4769356";
    "terms-beginning-with-g-4769357";
    "terms-beginning-with-h-4769358";
    "terms-beginning-with-i-4769359";
    "terms-beginning-with-j-4769360";
    "terms-beginning-with-k-4769361";
    "terms-beginning-with-l-4769362";
    "terms-beginning-with-m-4769363";
    "terms-beginning-with-n-4769364";
    "terms-beginning-with-o-4769365";
    "terms-beginning-with-p-4769366";
    "terms-beginning-with-q-4769367";
    "terms-beginning-with-r-4769368";
    "terms-beginning-with-s-4769369";
    "terms-beginning-with-t-4769370";
    "terms-beginning-with-u-4769371";
    "terms-beginning-with-v-4769372";
    "terms-beginning-with-w-4769373";
    "terms-beginning-with-x-4769374";
    "terms-beginning-with-y-4769375";
    "terms-beginning-with-z-4769376" ].

Definition root_dir : string := "./data".
Definition seed_map_json : string := "article_map.json".

Section SeedCrawler.
Context (E : Env).

(** [[link["href"] for link in article_links]] for the links found by
    [soup.find_all('a', class_='dictionary-top300-list__list
    mntl-text-link')]. *)
Context (find_dictionary_links : string → list string).

(** [get_articles_from_term_page]: the world after the call and the
    returned links. *)
Definition get_articles_from_term_page (term_link : string) (w : World)
  : World * list string :=
  let response := requests_get E (trace w) term_link in
  let return_status := status_code response in
  if negb (return_status =? 200) then
    (print ("Request returned " +:+ str_of_int return_status
            +:+ " status code for " +:+ term_link) w, [])
  else (w, find_dictionary_links (text response)).

(** The body of the loop over [article_links] (lines 160-185). *)
Definition download_article (restart : bool) (folder_path : string)
    (st : World * registry) (article_link : string) : World * registry :=
  let '(w, article_map) := st in
  match re_search article_pattern article_link with
  | None =>
      (print ("Was not able to isolate name for article " +:+ article_link)
         w, article_map)
  | Some name =>
      let file_path := os_path_join folder_path (name +:+ ".html") in
      let article_map :=
        <[name := {| path := file_path; link := article_link |}]>
          article_map in
      if (restart || negb (path_exists file_path w))%bool then
        (get_article E article_link file_path w, article_map)
      else (w, article_map)
  end.

(** The body of the loop over [category_pages] (lines 122-185). *)
Definition download_category (restart : bool) (st : World * registry)
    (category_link : string) : World * registry :=
  let '(w, article_map) := st in
  match re_search category_pattern category_link with
  | None =>
      (print ("Was not able to isolate name for " +:+ category_link) w,
       article_map)
  | Some name =>
      let folder_path := os_path_join root_dir name in
      let w := print ("Processing articles in " +:+ name +:+ " category") w in
      let '(w, article_links) :=
        get_articles_from_term_page (base_url +:+ category_link) w in
      if (length article_links =? 0)%nat then (w, article_map)
      else
        foldl (download_article restart folder_path) (w, article_map)
          article_links
  end.

(** [main] of [download.py] over a list of category pages: the final
    world, the map that is written, and the argument of [exit]. *)
Definition download_pages (restart : bool) (pages : list string) (w : World)
  : World * registry * Z :=
  let '(w, article_map) :=
    foldl (download_category restart) (w, ∅) pages in
  let w := write_file seed_map_json (json_dump_registry E article_map) w in
  (w, article_map, 0).

Definition download_main (restart : bool) (w : World)
  : World * registry * Z :=
  download_pages restart category_pages w.

End SeedCrawler.

(** ** Definitions used to state the properties of [download.py] *)

(** The names of the category folders: [match.group(1)] for the pages of
    [category_pages]. *)
Definition category_names : list string :=
  omap (re_search category_pattern) category_pages.

(** The paths under which [main] stores the articles of [pages]: an
    article file, named without separator, in the folder of a category. *)
Definition seed_path (pages : list string) (p : string) : Prop :=
  ∃ page cat name,
    page ∈ pages ∧ re_search category_pattern page = Some cat
    ∧ name ≠ "" ∧ str_contains "/" name = false
    ∧ p = os_path_join (os_path_join root_dir cat) (name +:+ ".html").

(** What every entry of the [article_map] of [main] satisfies. *)
Definition seed_entries (pages : list string) (article_map : registry)
  : Prop :=
  ∀ k d, article_map !! k = Some d →
    names_article (link d) k
    ∧ ∃ page cat,
        page ∈ pages ∧ re_search category_pattern page = Some cat
        ∧ path d = os_path_join (os_path_join root_dir cat) (k +:+ ".html").

(** How the world [w] reached by the loops of [main] is related to an
    earlier world [w0]: the events are added at the end, a download goes
    to the path of an article (one that did not exist, without
    [--restart]), the other files are untouched, no file disappears, and
    without [--restart] none changes. *)
Definition seed_step (restart : bool) (pages : list string) (w0 w : World)
  : Prop :=
  (∃ evs, trace w = trace w0 ++ evs
          ∧ ∀ l p, (l, p) ∈ downloads evs →
                   seed_path pages p
                   ∧ (restart = false → files w0 !! p = None))
  ∧ (∀ p, ¬ seed_path pages p → files w !! p = files w0 !! p)
  ∧ (∀ p, is_Some (files w0 !! p) → is_Some (files w !! p))
  ∧ (restart = false →
     ∀ p c, files w0 !! p = Some c → files w !! p = Some c).

(** ** A concrete site, for the examples of [download.py] *)

Module SeedDemo.

Definition page_a : string := base_url +:+ "terms-beginning-with-a-4769351".
Definition url_asset : string :=
  "https://www.investopedia.com/terms/a/asset.asp".
Definition url_alpha : string :=
  "https://www.investopedia.com/terms/a/alpha.asp".
Definition url_about : string := "https://www.investopedia.com/about-us".

(** The site serves the page of the letter a and the article on assets,
    and answers 404 elsewhere. *)
Definition web (history : list event) (url : string) : Response :=
  if String.eqb url page_a then {| status_code := 200; text := "letter a" |}
  else if String.eqb url url_asset then
    {| status_code := 200; text := "asset page" |}
  else {| status_code := 404; text := "" |}.

Definition find_dictionary_links (html : string) : list string :=
  if String.eqb html "letter a" then [url_asset; url_alpha; url_about]
  else [].

Definition env : Env :=
  {| requests_get := web;
     find_term_tags := λ _, [];
     find_article_tags := λ _, [];
     list_set := remove_dups;
     list_set_perm := λ l, reflexivity (remove_dups l);
     json_load := λ _, [];
     json_dump_registry :=
       λ em, String.concat ","
               ((λ kd : string * ArticleData, kd.1 +:+ "=" +:+ path kd.2)
                  <$> map_to_list em);
     json_dump_graph := λ _, "" |}.

(** A site that answers 503 to every request. *)
Definition offline : Env :=
  {| requests_get := λ _ _, {| status_code := 503; text := "" |};
     find_term_tags := λ _, [];
     find_article_tags := λ _, [];
     list_set := remove_dups;
     list_set_perm := λ l, reflexivity (remove_dups l);
     json_load := λ _, [];
     json_dump_registry := json_dump_registry env;
     json_dump_graph := λ _, "" |}.

(** The article on alpha and a seed map of an earlier run are on disk. *)
Definition world : World :=
  {| files := {[ "./data/a/alpha.html" := "alpha page";
                 "article_map.json" := "alpha=./data/a/alpha.html" ]};
     trace := [] |}.

Definition run : World * registry * Z :=
  Eval vm_compute in download_main env find_dictionary_links false world.

Definition offline_run : World * registry * Z :=
  Eval vm_compute in download_main offline find_dictionary_links true world.

End SeedDemo.

(** ** Two processes over one registry, for the examples of a re-run *)

Module RerunDemo.

Definition coupon : ArticleData :=
  {| path := "./data/term/Coupon.html"; link := Demo.url_c |}.

Definition seed_json : string := "seeds: Bond, Yield, Coupon".

Definition demo_json_load (content : string)
  : list (string * ArticleData) :=
  [("Bond", Demo.bond); ("Yield", Demo.yield); ("Coupon", coupon)].

(** The first process. *)
Definition env : Env :=
  {| requests_get := Demo.demo_web;
     find_term_tags := Demo.demo_terms;
     find_article_tags := λ _, [];
     list_set := remove_dups;
     list_set_perm := λ l, reflexivity (remove_dups l);
     json_load := demo_json_load;
     json_dump_registry := json_dump_registry Demo.env;
     json_dump_graph := json_dump_graph Demo.env |}.

(** A later process: the site is down, and a set is enumerated in the
    opposite order. *)
Definition env_later : Env :=
  {| requests_get := λ _ _, {| status_code := 503; text := "" |};
     find_term_tags := Demo.demo_terms;
     find_article_tags := λ _, [];
     list_set := λ l, reverse (remove_dups l);
     list_set_perm := λ l, reverse_Permutation (remove_dups l);
     json_load := demo_json_load;
     json_dump_registry := json_dump_registry Demo.env;
     json_dump_graph := json_dump_graph Demo.env |}.

(** Bond links to Yield, twice, and to Coupon; Yield links to Bond; the
    page of Coupon is not on disk. *)
Definition world : World :=
  {| files := {[ "./graph/article_map.json" := seed_json;
                 "./data/term/Bond.html" := Demo.bond_html;
                 "./data/term/Yield.html" := "Yield: Bond" ]};
     trace := [] |}.

(** The registry that the seed file holds. *)
Definition articles : registry :=
  {[ "Bond" := Demo.bond; "Yield" := Demo.yield; "Coupon" := coupon ]}.

(** The world the first process leaves, in which the later one starts. *)
Definition first_run : World :=
  Eval vm_compute in
    match main env 3 false 2 world with
    | Ok (w, _) => w
    | _ => world
    end.

(** The seeds traversed at depth 0 under [--restart]. *)
Definition forced_depth0_run : MainState :=
  Eval vm_compute in
    Demo.main_state_of
      (traverse env 1 articles ["Bond"; "Yield"; "Coupon"] 0 true world).

Definition later_run : World :=
  Eval vm_compute in
    match main env_later 3 false 2 first_run with
    | Ok (w, _) => w
    | _ => world
    end.

End RerunDemo.

(** * Properties *)

(** ** Results and loops *)

Lemma for_each_app {S A} (body : S → A → result S) (xs ys : list A) (st : S) :
  for_each body (xs ++ ys) st
  = result_bind (for_each body xs st) (for_each body ys).
Proof.
  revert st; induction xs as [|x xs IH]; intros st; simpl; [done|].
  destruct (body st x); simpl; auto.
Qed.

(** A loop invariant, for the runs that complete. *)
Lemma for_each_inv {S A} (P : S → Prop) (body : S → A → result S)
    (xs : list A) (st st' : S) :
  (∀ s x s', x ∈ xs → P s → body s x = Ok s' → P s') →
  P st → for_each body xs st = Ok st' → P st'.
Proof.
  revert st; induction xs as [|x xs IH]; intros st Hbody HP Hrun; simpl in *.
  - by injection Hrun as <-.
  - destruct (body st x) as [s1| |] eqn:Hx; try discriminate.
    apply (IH s1); [|by eapply Hbody; [left|..]|done].
    intros s y s' Hy; apply Hbody; by right.
Qed.

(** A loop whose body completes under the invariant completes. *)
Lemma for_each_total {S A} (P : S → Prop) (body : S → A → result S)
    (xs : list A) (st : S) :
  (∀ s x, x ∈ xs → P s → ∃ s', body s x = Ok s' ∧ P s') →
  P st → ∃ st', for_each body xs st = Ok st' ∧ P st'.
Proof.
  revert st; induction xs as [|x xs IH]; intros st Hbody HP; simpl.
  - by exists st.
  - destruct (Hbody st x) as (s1 & -> & HP1); [by left|done|].
    apply IH; [|done]. intros s y Hy; apply Hbody; by right.
Qed.

(** ** Deduplication *)

Section ListSet.
Context (E : Env).

Lemma list_set_elem (l : list string) (x : string) :
  x ∈ list_set E l ↔ x ∈ l.
Proof. by rewrite (list_set_perm E l), elem_of_remove_dups. Qed.

Lemma list_set_NoDup (l : list string) : NoDup (list_set E l).
Proof. rewrite (list_set_perm E l). apply NoDup_remove_dups. Qed.


End ListSet.

(** ** Merging graph deltas *)

Lemma merge_graph_lookup (g sub : graph) (k : string) :
  merge_graph g sub !! k = union_with concat_edges (g !! k) (sub !! k).
Proof.
  unfold merge_graph. revert k.
  apply (map_fold_weak_ind
           (λ (r : graph) (m : graph),
              ∀ k, r !! k = union_with concat_edges (g !! k) (m !! k))).
  - intros k. rewrite lookup_empty. by destruct (g !! k).
  - intros i x m r Hi IH k.
    pose proof (IH i) as Hri. rewrite Hi in Hri.
    destruct (decide (i = k)) as [->|Hne].
    + rewrite lookup_insert_eq.
      destruct (g !! k) as [old|] eqn:Hg; simpl in Hri; rewrite Hri.
      * by rewrite lookup_insert_eq.
      * by rewrite lookup_insert_eq.
    + rewrite (lookup_insert_ne m) by done.
      destruct (r !! i); rewrite lookup_insert_ne by done; apply IH.
Qed.

Lemma merge_graph_union_with (g sub : graph) :
  merge_graph g sub = union_with concat_edges g sub.
Proof.
  apply map_eq; intros k. by rewrite merge_graph_lookup, lookup_union_with.
Qed.

Lemma merge_graph_edges (g sub : graph) (k x : string) :
  x ∈ edges (merge_graph g sub) k ↔ x ∈ edges g k ∨ x ∈ edges sub k.
Proof.
  unfold edges. rewrite merge_graph_lookup.
  destruct (g !! k), (sub !! k); simpl; rewrite ?elem_of_app;
    set_solver.
Qed.

Lemma merge_graph_dom (g sub : graph) :
  dom (merge_graph g sub) = dom g ∪ dom sub.
Proof.
  apply set_eq; intros k.
  rewrite elem_of_union, !elem_of_dom, merge_graph_lookup.
  destruct (g !! k), (sub !! k); simpl; unfold is_Some; naive_solver.
Qed.

Lemma list_set_fmap_edges (E : Env) (g : graph) (k x : string) :
  x ∈ edges (list_set E <$> g) k ↔ x ∈ edges g k.
Proof.
  unfold edges. rewrite lookup_fmap.
  destruct (g !! k); simpl; [apply list_set_elem|done].
Qed.

(** ** The download step *)

Section Download.
Context (E : Env).

(** [get_article] logs the call and at most one line, and touches at
    most the destination file. *)
Lemma get_article_trace (url p : string) (w : World) :
  ∃ evs, trace (get_article E url p w)
         = trace w ++ EvGetArticle url p :: evs
         ∧ Forall is_print evs.
Proof.
  unfold get_article.
  destruct (negb _); simpl.
  - eexists [_]. rewrite <- app_assoc. split; [done|].
    repeat constructor.
  - exists []. split; [done|constructor].
Qed.

Lemma get_article_files (url p : string) (w : World) :
  files (get_article E url p w) = files w
  ∨ ∃ content, files (get_article E url p w) = <[p := content]> (files w).
Proof.
  unfold get_article. destruct (negb _); simpl; [by left|right; eauto].
Qed.

Lemma get_article_files_other (url p q : string) (w : World) :
  q ≠ p → files (get_article E url p w) !! q = files w !! q.
Proof.
  intros Hq. destruct (get_article_files url p w) as [->|[c ->]]; [done|].
  by rewrite lookup_insert_ne.
Qed.

(** What the download step does for an article that is not registered. *)
Lemma download_step_unseen (am : registry) (a url : string)
    (t restart : bool) (w : World) :
  am !! a = None →
  let d := {| path := fresh_article_path t a; link := url |} in
  download_step E am a url t restart w
  = Ok (get_article E url (fresh_article_path t a) w,
        <[a := d]> am, {[a := d]}, fresh_article_path t a).
Proof.
  intros Ha d. unfold download_step.
  rewrite bool_decide_eq_true_2 by (by apply not_elem_of_dom).
  rewrite orb_true_r. simpl. unfold subscript.
  by rewrite lookup_insert_eq.
Qed.

(** What it does for a registered article: the entry is left as it is,
    and the file is downloaded again only under [restart]. *)
Lemma download_step_seen (am : registry) (a url : string)
    (t restart : bool) (w : World) (d : ArticleData) :
  am !! a = Some d →
  download_step E am a url t restart w
  = Ok (if restart then get_article E url (path d) w else w,
        am, ∅, path d).
Proof.
  intros Ha. unfold download_step.
  rewrite bool_decide_eq_false_2
    by (intros Hn; apply Hn, elem_of_dom; eauto).
  rewrite orb_false_r. unfold subscript.
  destruct restart; simpl; by rewrite Ha; simpl; rewrite ?Ha.
Qed.

(** One unfolding of [explore_related]. *)
Lemma explore_related_S (fuel : nat) (am : registry) (a url : string)
    (t : bool) (depth : Z) (restart : bool) (w : World) :
  explore_related E (S fuel) am a url t depth restart w
  = let* (w1, am1, sub1, p) :=
      download_step E am a url t restart (log (EvCall a depth) w) in
    if negb (path_exists p w1) then
      Ok (print missing_msg2 (print (missing_msg1 p a) w1), am1, sub1, ∅)
    else
      let* content := read_file p w1 in
      let links := parse_outbound_links E content in
      let* (w2, am2, sub2, g2) :=
        (if 0 <? depth then
           explore_links E fuel depth restart links
             (w1, am1, sub1, {[a := link_names links]})
         else Ok (w1, am1, sub1, {[a := link_names links]})) in
      Ok (w2, am2, sub2, list_set E <$> g2).
Proof. reflexivity. Qed.

End Download.

(** ** Invariants of the traversal *)

Section Invariants.
Context (E : Env).

Lemma path_exists_true (p : string) (w : World) :
  path_exists p w = true ↔ is_Some (files w !! p).
Proof. unfold path_exists. apply bool_decide_eq_true. Qed.

Lemma path_exists_false (p : string) (w : World) :
  path_exists p w = false ↔ files w !! p = None.
Proof.
  unfold path_exists. rewrite bool_decide_eq_false.
  by rewrite eq_None_not_Some.
Qed.

(** The download step always completes; it inserts the same fresh entry
    in the registry and in the delta, or none at all. *)
Lemma download_step_spec (am : registry) (a url : string)
    (t restart : bool) (w : World) :
  ∃ w1 am1 sub1 d evs,
    download_step E am a url t restart w = Ok (w1, am1, sub1, path d)
    ∧ am1 !! a = Some d
    ∧ am1 = sub1 ∪ am ∧ sub1 ##ₘ am
    ∧ trace w1 = trace w ++ evs
    ∧ Forall (λ e, ¬ is_call e) evs.
Proof.
  destruct (am !! a) as [d|] eqn:Ha.
  - exists (if restart then get_article E url (path d) w else w), am, ∅, d.
    destruct restart.
    + destruct (get_article_trace E url (path d) w) as (evs & Hevs & Hpr).
      exists (EvGetArticle url (path d) :: evs).
      rewrite (download_step_seen E am a url t true w d Ha).
      repeat split; [done|by rewrite (left_id_L ∅ (∪))
                    |apply map_disjoint_empty_l|done|].
      constructor; [by intros []|].
      eapply Forall_impl; [exact Hpr|]. by intros [] ? ?.
    + exists []. rewrite (download_step_seen E am a url t false w d Ha).
      repeat split; [done|by rewrite (left_id_L ∅ (∪))
                    |apply map_disjoint_empty_l|by rewrite app_nil_r|].
      constructor.
  - set (d := {| path := fresh_article_path t a; link := url |}).
    destruct (get_article_trace E url (fresh_article_path t a) w)
      as (evs & Hevs & Hpr).
    exists (get_article E url (fresh_article_path t a) w),
           (<[a := d]> am), {[a := d]}, d,
           (EvGetArticle url (fresh_article_path t a) :: evs).
    rewrite (download_step_unseen E am a url t restart w Ha).
    repeat split; [apply lookup_insert_eq|by rewrite insert_union_singleton_l
                  |by apply map_disjoint_singleton_l|done|].
    constructor; [by intros []|].
    eapply Forall_impl; [exact Hpr|]. by intros [] ? ?.
Qed.

(** A completed call, taken apart. *)
Lemma explore_related_Ok_inv (fuel : nat) (am : registry) (a url : string)
    (t : bool) (depth : Z) (restart : bool) (w w' : World)
    (am' sub : registry) (g : graph) :
  explore_related E (S fuel) am a url t depth restart w
    = Ok (w', am', sub, g) →
  ∃ w1 am1 sub1 p,
    download_step E am a url t restart (log (EvCall a depth) w)
      = Ok (w1, am1, sub1, p)
    ∧ ((files w1 !! p = None
        ∧ w' = print missing_msg2 (print (missing_msg1 p a) w1)
        ∧ am' = am1 ∧ sub = sub1 ∧ g = ∅)
       ∨ ∃ content g2,
           files w1 !! p = Some content
           ∧ (if 0 <? depth then
                explore_links E fuel depth restart
                  (parse_outbound_links E content)
                  (w1, am1, sub1,
                   {[a := link_names (parse_outbound_links E content)]})
              else
                Ok (w1, am1, sub1,
                    {[a := link_names (parse_outbound_links E content)]}))
             = Ok (w', am', sub, g2)
           ∧ g = list_set E <$> g2).
Proof.
  rewrite explore_related_S.
  destruct (download_step_spec am a url t restart (log (EvCall a depth) w))
    as (w1 & am1 & sub1 & d & evs & -> & _).
  simpl. exists w1, am1, sub1, (path d). split; [done|].
  destruct (path_exists (path d) w1) eqn:Hex; simpl in *.
  - apply path_exists_true in Hex as [content Hc].
    unfold read_file in H. rewrite Hc in H. simpl in H.
    destruct (if 0 <? depth then _ else _) as [[[[w2 am2] sub2] g2]| |]
      eqn:Hloop; simpl in H; try discriminate.
    injection H as <- <- <- <-. right. exists content, g2.
    by rewrite Hloop.
  - apply path_exists_false in Hex. injection H as <- <- <- <-.
    by left.
Qed.

Lemma not_call_elem (evs : list event) (a : string) (d : Z) :
  Forall (λ e, ¬ is_call e) evs → EvCall a d ∈ evs → False.
Proof.
  intros Hall Hin. rewrite Forall_forall in Hall.
  by apply (Hall _ Hin).
Qed.

Lemma explore_related_post (fuel : nat) (am : registry) (a url : string)
    (t : bool) (depth : Z) (restart : bool) (w : World)
    (st : ExploreState) :
  explore_related E fuel am a url t depth restart w = Ok st →
  explore_post am w a depth st.
Proof.
  revert am a url t depth w st.
  induction fuel as [|fuel IH]; intros am a url t depth w st Hrun;
    [discriminate|].
  destruct st as [[[w' am'] sub] g].
  apply explore_related_Ok_inv in Hrun
    as (w1 & am1 & sub1 & p & Hdl & Hrest).
  destruct (download_step_spec am a url t restart (log (EvCall a depth) w))
    as (w1' & am1' & sub1' & d & evs1 & Hdl' & Hd & Ham1 & Hdisj
        & Htr1 & Hnc1).
  rewrite Hdl in Hdl'. injection Hdl' as <- <- <- ->.
  simpl in Htr1. rewrite <- app_assoc in Htr1. simpl in Htr1.
  destruct Hrest as [(Hnone & -> & -> & -> & ->)
                    |(content & g2 & Hc & Hloop & ->)].
  - repeat split; [done|done|by intros k l; rewrite lookup_empty|].
    exists (evs1 ++ [EvPrint (missing_msg1 (path d) a);
                     EvPrint missing_msg2]).
    simpl. rewrite Htr1. rewrite <- !app_assoc. split; [done|].
    intros a' d'. rewrite elem_of_app. intros [Hin|Hin].
    + by destruct (not_call_elem _ _ _ Hnc1 Hin).
    + set_solver.
  - assert (Hlist : ∀ k l, (list_set E <$> g2) !! k = Some l → NoDup l).
    { intros k l. rewrite lookup_fmap. destruct (g2 !! k); simpl; [|done].
      intros [= <-]. apply list_set_NoDup. }
    destruct (0 <? depth) eqn:Hdepth.
    + apply Z.ltb_lt in Hdepth.
      unfold explore_links in Hloop.
      cut (let '(w2, am2, sub2, _) := (w', am', sub, g2) in
           am2 = sub2 ∪ am ∧ sub2 ##ₘ am
           ∧ ∃ evs, trace w2 = trace w ++ EvCall a depth :: evs
                    ∧ ∀ a' d', EvCall a' d' ∈ evs → 0 ≤ d' < depth).
      { intros (Ham' & Hd' & evs & Htr & Hb). by repeat split; eauto. }
      eapply (for_each_inv
               (λ s : ExploreState,
                  let '(w2, am2, sub2, _) := s in
                  am2 = sub2 ∪ am ∧ sub2 ##ₘ am
                  ∧ ∃ evs, trace w2 = trace w ++ EvCall a depth :: evs
                           ∧ ∀ a' d', EvCall a' d' ∈ evs → 0 ≤ d' < depth));
        [| |exact Hloop].
      * intros [[[w2 am2] sub2] gg] [[n l] t'] s' _
          (Ham2 & Hd2 & evs2 & Htr2 & Hb2) Hbody.
        unfold explore_links_body in Hbody.
        destruct (explore_related E fuel am2 n l t' (depth - 1) restart w2)
          as [[[[w3 am3] ss] gs]| |] eqn:Hrec; simpl in Hbody;
          try discriminate.
        injection Hbody as <-.
        apply IH in Hrec as (Ham3 & Hd3 & _ & evs3 & Htr3 & Hb3).
        subst am2 am3.
        apply map_disjoint_union_r in Hd3 as [Hd3a Hd3b].
        repeat split.
        -- by rewrite (assoc_L (∪)).
        -- by apply map_disjoint_union_l.
        -- exists (evs2 ++ EvCall n (depth - 1) :: evs3).
           rewrite Htr3, Htr2, <- app_assoc. split; [done|].
           intros a' d'. rewrite elem_of_app, elem_of_cons.
           intros [Hin|[[= -> ->]|Hin]]; [by eapply Hb2|lia|].
           apply Hb3 in Hin. lia.
      * repeat split; [done|done|].
        exists evs1. split; [done|].
        intros a' d' Hin. by destruct (not_call_elem _ _ _ Hnc1 Hin).
    + injection Hloop as <- <- <- <-.
      repeat split; [done|done|done|].
      exists evs1. split; [done|].
      intros a' d' Hin. by destruct (not_call_elem _ _ _ Hnc1 Hin).
Qed.

End Invariants.

(** ** Termination *)

Section Termination.
Context (E : Env).

(** With more fuel than [depth], the call completes: the fuel is only
    consumed by nested calls, and these stop at depth [0]. *)
Lemma explore_related_total (fuel : nat) (am : registry) (a url : string)
    (t : bool) (depth : Z) (restart : bool) (w : World) :
  (Z.to_nat depth < fuel)%nat →
  ∃ st, explore_related E fuel am a url t depth restart w = Ok st.
Proof.
  revert am a url t depth w.
  induction fuel as [|fuel IH]; intros am a url t depth w Hfuel; [lia|].
  rewrite explore_related_S.
  destruct (download_step_spec E am a url t restart
              (log (EvCall a depth) w))
    as (w1 & am1 & sub1 & d & evs & -> & _).
  simpl. destruct (path_exists (path d) w1) eqn:Hex; simpl; [|eauto].
  apply path_exists_true in Hex as [content Hc].
  unfold read_file. rewrite Hc. simpl.
  destruct (0 <? depth) eqn:Hdepth; simpl; [|eauto].
  apply Z.ltb_lt in Hdepth.
  destruct (for_each_total (λ _ : ExploreState, True)
              (explore_links_body
                 (λ am n l t w,
                    explore_related E fuel am n l t (depth - 1) restart w))
              (parse_outbound_links E content)
              (w1, am1, sub1,
               {[a := link_names (parse_outbound_links E content)]}))
    as ([[[w2 am2] sub2] g2] & Hrun & _); [|done|].
  - intros [[[w2 am2] sub2] g2] [[n l] t'] _ _.
    unfold explore_links_body.
    destruct (IH am2 n l t' (depth - 1) w2) as ([[[w3 am3] ss] gs] & ->);
      [lia|]. simpl. eauto.
  - unfold explore_links. rewrite Hrun. simpl. eauto.
Qed.

(** The fuel does not change the result: a call that completes returns
    the same state with any larger fuel. *)
Lemma for_each_mono {S A} (body1 body2 : S → A → result S) (xs : list A)
    (st st' : S) :
  (∀ s x s', body1 s x = Ok s' → body2 s x = Ok s') →
  for_each body1 xs st = Ok st' → for_each body2 xs st = Ok st'.
Proof.
  intros Hbody. revert st.
  induction xs as [|x xs IH]; intros st Hrun; simpl in *; [done|].
  destruct (body1 st x) as [s1| |] eqn:Hx; try discriminate.
  rewrite (Hbody _ _ _ Hx). by apply IH.
Qed.

Lemma explore_related_fuel_mono (fuel fuel' : nat) (am : registry)
    (a url : string) (t : bool) (depth : Z) (restart : bool) (w : World)
    (st : ExploreState) :
  (fuel ≤ fuel')%nat →
  explore_related E fuel am a url t depth restart w = Ok st →
  explore_related E fuel' am a url t depth restart w = Ok st.
Proof.
  revert fuel' am a url t depth w st.
  induction fuel as [|fuel IH]; intros fuel' am a url t depth w st Hle Hrun;
    [discriminate|].
  destruct fuel' as [|fuel']; [lia|].
  rewrite explore_related_S in *.
  destruct (download_step E am a url t restart (log (EvCall a depth) w))
    as [[[[w1 am1] sub1] p]| |]; simpl in *; try discriminate.
  destruct (negb (path_exists p w1)); [done|].
  destruct (read_file p w1) as [content| |]; simpl in *; try discriminate.
  destruct (0 <? depth); [|done].
  destruct (explore_links E fuel depth restart _ _)
    as [[[[w2 am2] sub2] g2]| |] eqn:Hloop; simpl in Hrun; try discriminate.
  unfold explore_links in *.
  eapply (for_each_mono _
            (explore_links_body
               (λ am n l t w,
                  explore_related E fuel' am n l t (depth - 1) restart w)))
    in Hloop; [by rewrite Hloop|].
  intros [[[w3 am3] sub3] g3] [[n l] t'] s' Hbody.
  unfold explore_links_body in *.
  destruct (explore_related E fuel am3 n l t' (depth - 1) restart w3)
    as [r| |] eqn:Hrec; simpl in Hbody; try discriminate.
  by rewrite (IH fuel' _ _ _ _ _ _ r ltac:(lia) Hrec).
Qed.

End Termination.

(** ** The edges of a returned graph delta *)

Section Edges.
Context (E : Env).

(** After the loop, the edges of a node are the edges it had before
    together with the edges returned for it by each recursive call. *)
Lemma loop_edges recurse (links : list OutboundLink) (st st' : ExploreState)
    (k x : string) :
  for_each (explore_links_body recurse) links st = Ok st' →
  x ∈ edges st'.2 k ↔
    x ∈ edges st.2 k
    ∨ ∃ link r, loop_call recurse links st link r ∧ x ∈ edges r.2 k.
Proof.
  revert st; induction links as [|link0 links IH]; intros st Hrun;
    simpl in Hrun.
  - injection Hrun as <-. split; [by left|].
    intros [?|(link & r & Hcall & _)]; [done|]. inversion Hcall.
  - destruct (explore_links_body recurse st link0) as [st1| |] eqn:Hbody;
      try discriminate.
    rewrite (IH st1 Hrun).
    assert (Hst1 : x ∈ edges st1.2 k ↔
                     x ∈ edges st.2 k
                     ∨ ∃ r, (let '(w, am, _, _) := st in
                             let '(n, l, t) := link0 in
                             recurse am n l t w) = Ok r
                            ∧ x ∈ edges r.2 k).
    { destruct st as [[[w am] sub] g], link0 as [[n l] t].
      unfold explore_links_body in Hbody.
      destruct (recurse am n l t w) as [[[[w3 am3] ss] gs]| |];
        simpl in Hbody; try discriminate.
      injection Hbody as <-. simpl. rewrite merge_graph_edges.
      split.
      - intros [Hx|Hx]; [by left|]. right. by eexists.
      - intros [Hx|(r & [= <-] & Hx)]; [by left|by right]. }
    rewrite Hst1. split.
    + intros [[?|(r & Hr & Hx)]|(link & r & Hcall & Hx)]; [by left|..].
      * right. exists link0, r. split; [|done].
        destruct st as [[[w am] sub] g], link0 as [[n l] t].
        by constructor.
      * right. exists link, r. split; [|done].
        by eapply loop_call_later.
    + intros [?|(link & r & Hcall & Hx)]; [by left; left|].
      inversion Hcall; subst.
      * left; right. by exists r.
      * right. exists link, r. split; [|done]. congruence.
Qed.

(** The edge-sets of the graph delta returned by a call whose content is
    present: the node's own outbound names under its own key, and, when
    [depth > 0], whatever the recursive calls returned. *)
Lemma explore_related_edges (fuel : nat) (am : registry) (a url : string)
    (t : bool) (depth : Z) (restart : bool) (w w' w1 : World)
    (am' sub am1 sub1 : registry) (g : graph) (p content : string)
    (k x : string) :
  explore_related E (S fuel) am a url t depth restart w
    = Ok (w', am', sub, g) →
  download_step E am a url t restart (log (EvCall a depth) w)
    = Ok (w1, am1, sub1, p) →
  files w1 !! p = Some content →
  let links := parse_outbound_links E content in
  x ∈ edges g k ↔
    (k = a ∧ x ∈ link_names links)
    ∨ (0 < depth
       ∧ ∃ link r,
           loop_call (recurse_at E fuel depth restart) links
             (w1, am1, sub1, {[a := link_names links]}) link r
           ∧ x ∈ edges r.2 k).
Proof.
  intros Hrun Hdl Hc links.
  apply explore_related_Ok_inv in Hrun
    as (w1' & am1' & sub1' & p' & Hdl' & Hrest).
  rewrite Hdl in Hdl'. injection Hdl' as <- <- <- <-.
  destruct Hrest as [(Hnone & _)|(content' & g2 & Hc' & Hloop & ->)];
    [congruence|].
  rewrite Hc in Hc'. injection Hc' as <-. fold links in Hloop.
  rewrite list_set_fmap_edges.
  assert (Hown : x ∈ edges ({[a := link_names links]} : graph) k
                 ↔ k = a ∧ x ∈ link_names links).
  { unfold edges. destruct (decide (a = k)) as [->|Hne].
    - rewrite lookup_singleton_eq. simpl. naive_solver.
    - rewrite lookup_singleton_ne by done. simpl. set_solver. }
  destruct (0 <? depth) eqn:Hdepth.
  - apply Z.ltb_lt in Hdepth. unfold explore_links in Hloop.
    rewrite (loop_edges _ _ _ _ k x Hloop). simpl. rewrite Hown.
    unfold recurse_at. naive_solver.
  - apply Z.ltb_ge in Hdepth. injection Hloop as <- <- <- <-.
    rewrite Hown. split; [by left|]. intros [?|[? _]]; [done|lia].
Qed.

End Edges.

(** ** The events of a call *)

Section Events.
Context (E : Env).

(** The events of a completed call start with the events of its
    download step. *)
Lemma explore_related_trace_download (fuel : nat) (am : registry)
    (a url : string) (t : bool) (depth : Z) (restart : bool)
    (w w' w1 : World) (am' sub am1 sub1 : registry) (g : graph)
    (p : string) :
  explore_related E (S fuel) am a url t depth restart w
    = Ok (w', am', sub, g) →
  download_step E am a url t restart (log (EvCall a depth) w)
    = Ok (w1, am1, sub1, p) →
  ∃ evs, trace w' = trace w1 ++ evs.
Proof.
  intros Hrun Hdl.
  apply explore_related_Ok_inv in Hrun
    as (w1' & am1' & sub1' & p' & Hdl' & Hrest).
  rewrite Hdl in Hdl'. injection Hdl' as <- <- <- <-.
  destruct Hrest as [(_ & -> & _)|(content & g2 & _ & Hloop & _)].
  - eexists [_; _]. simpl. by rewrite <- app_assoc.
  - destruct (0 <? depth).
    + unfold explore_links in Hloop.
      eapply (for_each_inv
                (λ s : ExploreState, ∃ evs, trace s.1.1.1 = trace w1 ++ evs))
        in Hloop; [done| |by exists []; rewrite app_nil_r].
      intros [[[w2 am2] sub2] g3] [[n l] t'] s' _ [evs Hevs] Hbody.
      unfold explore_links_body in Hbody.
      destruct (explore_related E fuel am2 n l t' (depth - 1) restart w2)
        as [[[[w3 am3] ss] gs]| |] eqn:Hrec; simpl in Hbody;
        try discriminate.
      injection Hbody as <-. simpl in *.
      apply explore_related_post in Hrec as (_ & _ & _ & evs3 & Htr3 & _).
      rewrite Htr3, Hevs, <- app_assoc. eauto.
    + injection Hloop as <- _ _ _. exists []. by rewrite app_nil_r.
Qed.

(** A call at depth [0] or below for a registered article. *)
Lemma explore_related_leaf (fuel : nat) (am : registry) (a url : string)
    (t : bool) (depth : Z) (restart : bool) (w : World) (d : ArticleData) :
  depth ≤ 0 → am !! a = Some d →
  let w0 := log (EvCall a depth) w in
  let w1 := if restart then get_article E url (path d) w0 else w0 in
  explore_related E (S fuel) am a url t depth restart w
  = match files w1 !! path d with
    | None =>
        Ok (print missing_msg2 (print (missing_msg1 (path d) a) w1),
            am, ∅, ∅)
    | Some content =>
        Ok (w1, am, ∅,
            {[a := list_set E
                     (link_names (parse_outbound_links E content))]})
    end.
Proof.
  intros Hdepth Ha w0 w1. rewrite explore_related_S.
  rewrite (download_step_seen E am a url t restart _ d Ha). simpl.
  fold w0. fold w1.
  destruct (files w1 !! path d) as [content|] eqn:Hc.
  - rewrite (proj2 (path_exists_true _ _)) by (by rewrite Hc).
    simpl. unfold read_file. rewrite Hc. simpl.
    rewrite (proj2 (Z.ltb_ge 0 depth)) by done. simpl.
    by rewrite map_fmap_singleton.
  - by rewrite (proj2 (path_exists_false _ _)) by done.
Qed.

End Events.

(** ** Runs over a registry that is closed under links *)

Section Rerun.
Context (E : Env).

Lemma quiet_refl (w : World) : quiet w w.
Proof. split; [done|]. exists []. by rewrite app_nil_r. Qed.

Lemma quiet_trans (w1 w2 w3 : World) :
  quiet w1 w2 → quiet w2 w3 → quiet w1 w3.
Proof.
  intros [Hf1 (e1 & Ht1 & Hq1)] [Hf2 (e2 & Ht2 & Hq2)].
  split; [congruence|]. exists (e1 ++ e2).
  rewrite Ht2, Ht1, <- app_assoc. split; [done|]. by apply Forall_app.
Qed.

Lemma quiet_log (e : event) (w : World) :
  ¬ is_get_article e → quiet w (log e w).
Proof. intros He. split; [done|]. exists [e]. by repeat constructor. Qed.

Lemma explore_closed_sim (fuel : nat) (am : registry) (a url1 url2 : string)
    (t1 t2 : bool) (depth : Z) (w1 w2 w1' : World) (am' sub : registry)
    (g : graph) :
  registry_closed E am (files w1) →
  agree_on am (files w1) (files w2) →
  is_Some (am !! a) →
  explore_related E fuel am a url1 t1 depth false w1
    = Ok (w1', am', sub, g) →
  am' = am ∧ sub = ∅ ∧ quiet w1 w1'
  ∧ ∃ w2', explore_related E fuel am a url2 t2 depth false w2
           = Ok (w2', am, ∅, g)
           ∧ quiet w2 w2'.
Proof.
  revert a url1 url2 t1 t2 depth w1 w2 w1' am' sub g.
  induction fuel as [|fuel IH];
    intros a url1 url2 t1 t2 depth w1 w2 w1' am' sub g Hcl Hag [d Ha] Hrun;
    [discriminate|].
  apply explore_related_Ok_inv in Hrun
    as (w1a & am1 & sub1 & p & Hdl & Hrest).
  rewrite (download_step_seen E am a url1 t1 false _ d Ha) in Hdl.
  injection Hdl as <- <- <- <-.
  rewrite explore_related_S.
  rewrite (download_step_seen E am a url2 t2 false _ d Ha). simpl.
  pose proof (Hag a d Ha) as Hpd.
  assert (Hq1 : quiet w1 (log (EvCall a depth) w1)) by (apply quiet_log; intros []).
  assert (Hq2 : quiet w2 (log (EvCall a depth) w2)) by (apply quiet_log; intros []).
  destruct Hrest as [(Hnone & -> & -> & -> & ->)
                    |(content & g2 & Hc & Hloop & ->)].
  - simpl in Hnone. rewrite Hpd in Hnone.
    rewrite (proj2 (path_exists_false _ _)) by done. simpl.
    refine (conj eq_refl (conj eq_refl (conj _ _))).
    + eapply quiet_trans; [exact Hq1|].
      eapply quiet_trans; apply quiet_log; intros [].
    + eexists. split; [done|].
      eapply quiet_trans; [exact Hq2|].
      eapply quiet_trans; apply quiet_log; intros [].
  - simpl in Hc.
    rewrite (proj2 (path_exists_true _ _)) by (by simpl; rewrite <- Hpd, Hc).
    simpl. unfold read_file. simpl. rewrite <- Hpd, Hc. simpl.
    destruct (0 <? depth) eqn:Hdepth.
    + assert (Hloops :
        ∀ links (u1 u2 u1' : World) (g0 : graph) am' sub g2,
          (∀ link : OutboundLink, link ∈ links → is_Some (am !! link.1.1)) →
          files u1 = files w1 → files u2 = files w2 →
          explore_links E fuel depth false links (u1, am, ∅, g0)
            = Ok (u1', am', sub, g2) →
          am' = am ∧ sub = ∅ ∧ quiet u1 u1'
          ∧ ∃ u2', explore_links E fuel depth false links (u2, am, ∅, g0)
                   = Ok (u2', am, ∅, g2)
                   ∧ quiet u2 u2').
      { clear Hloop. unfold explore_links.
        induction links as [|[[n l] t'] links IHl];
          intros u1 u2 u1' g0 am'' sub'' g2' Hin Hf1 Hf2 Hl; simpl in Hl.
        - injection Hl as <- <- <- <-.
          refine (conj eq_refl (conj eq_refl (conj (quiet_refl _) _))).
          exists u2. split; [done|apply quiet_refl].
        - destruct (explore_related E fuel am n l t' (depth - 1) false u1)
            as [[[[u3 am3] ss] gs]| |] eqn:Hrec; simpl in Hl;
            try discriminate.
          eapply (IH n l l t' t' (depth - 1) u1 u2) in Hrec
            as (-> & -> & Hqa & u3' & Hrec2 & Hqb);
            [|by rewrite Hf1|by rewrite Hf1, Hf2
             |by apply (Hin (n, l, t')); left].
          rewrite (left_id_L ∅ (∪)) in Hl.
          eapply (IHl u3 u3') in Hl
            as (-> & -> & Hqc & u4' & Hrun2 & Hqd);
            [|by intros link ?; apply Hin; right
             |by rewrite (proj1 Hqa)|by rewrite (proj1 Hqb)].
          refine (conj eq_refl (conj eq_refl (conj _ _)));
            [by eapply quiet_trans|].
          exists u4'. simpl. rewrite Hrec2. simpl.
          rewrite (left_id_L ∅ (∪)). split; [done|].
          by eapply quiet_trans. }
      eapply (Hloops _ _ (log (EvCall a depth) w2)) in Hloop
        as (-> & -> & Hqa & u2' & Hrun2 & Hqb); [| |done|done].
      * refine (conj eq_refl (conj eq_refl (conj _ _)));
          [by eapply quiet_trans; [exact Hq1|]|].
        exists u2'. rewrite Hrun2. simpl. split; [done|].
        by eapply quiet_trans; [exact Hq2|].
      * intros link Hlink. by eapply (Hcl a d content link).
    + injection Hloop as <- <- <- <-. simpl.
      refine (conj eq_refl (conj eq_refl (conj Hq1 _))).
      eexists. by split.
Qed.

End Rerun.

(** ** The driver *)

Section Driver.
Context (E : Env).

Lemma dict_of_pairs_dom (pairs : list (string * ArticleData)) (k : string) :
  k ∈ dom (dict_of_pairs pairs) ↔ k ∈ pairs.*1.
Proof.
  unfold dict_of_pairs.
  cut (∀ acc : registry,
         k ∈ dom (foldl (λ d kv, <[kv.1 := kv.2]> d) acc pairs)
         ↔ k ∈ dom acc ∨ k ∈ pairs.*1).
  { intros H. rewrite H, dom_empty_L. set_solver. }
  induction pairs as [|[k' v] pairs IH]; intros acc; simpl.
  - set_solver.
  - rewrite IH, dom_insert_L. set_solver.
Qed.

Lemma keys_of_pairs_elem (pairs : list (string * ArticleData))
    (k : string) :
  k ∈ keys_of_pairs pairs ↔ k ∈ pairs.*1.
Proof.
  unfold keys_of_pairs.
  by rewrite elem_of_reverse, elem_of_remove_dups, elem_of_reverse.
Qed.

Lemma keys_of_pairs_registered (pairs : list (string * ArticleData))
    (k : string) :
  k ∈ keys_of_pairs pairs → is_Some (dict_of_pairs pairs !! k).
Proof.
  rewrite keys_of_pairs_elem, <- dict_of_pairs_dom. apply elem_of_dom.
Qed.

(** The loop body for a seed that is a key of [article_map]. *)
Lemma main_loop_body_seed (fuel : nat) (am em : registry) (depth : Z)
    (restart : bool) (w : World) (g : graph) (s : string)
    (d : ArticleData) :
  am !! s = Some d →
  main_loop_body E fuel am depth restart (w, em, g) s
  = if negb (path_exists (path d) w) then
      Ok (print ("Skipping " +:+ s)
            (print ("Could not find path " +:+ path d) w), em, g)
    else
      let* (w', em', sub, gs) :=
        explore_related E fuel em s (link d) true depth restart w in
      Ok (w', sub ∪ em', merge_graph g gs).
Proof.
  intros Hs. unfold main_loop_body, subscript. rewrite Hs. simpl.
  by destruct (negb _).
Qed.

(** With more fuel than [depth], the loop over the seeds completes. *)
Lemma traverse_total (fuel : nat) (am : registry) (seeds : list string)
    (depth : Z) (restart : bool) (w : World) :
  (Z.to_nat depth < fuel)%nat →
  (∀ s, s ∈ seeds → is_Some (am !! s)) →
  ∃ st, traverse E fuel am seeds depth restart w = Ok st.
Proof.
  intros Hfuel Hseeds. unfold traverse.
  destruct (for_each_total (λ _ : MainState, True)
              (main_loop_body E fuel am depth restart) seeds
              (w, am, (λ _, []) <$> am))
    as (st & Hrun & _); [|done|by exists st].
  intros [[w2 em] g] s Hs _.
  destruct (Hseeds s Hs) as [d Hd].
  rewrite (main_loop_body_seed _ _ _ _ _ _ _ _ d Hd).
  destruct (negb _); [eauto|].
  destruct (explore_related_total E fuel em s (link d) true depth restart w2
              Hfuel) as ([[[w3 em3] sub] gs] & ->).
  simpl. eauto.
Qed.

Lemma main_seed_absent (fuel : nat) (restart : bool) (depth : Z)
    (w : World) :
  files w !! article_json = None →
  main E fuel restart depth w
  = Ok (print seed_missing_msg2 (print seed_missing_msg1 w), 1).
Proof.
  intros Hnone. unfold main.
  by rewrite (proj2 (path_exists_false _ _)) by done.
Qed.

Lemma main_seed_present (fuel : nat) (restart : bool) (depth : Z)
    (w : World) (content : string) :
  files w !! article_json = Some content →
  main E fuel restart depth w
  = let pairs := json_load E content in
    let* (w', expanded_map, graph) :=
      traverse E fuel (dict_of_pairs pairs) (keys_of_pairs pairs) depth
        restart w in
    Ok (write_file (graph_json depth)
          (json_dump_graph E (list_set E <$> graph))
          (write_file (expanded_json depth)
             (json_dump_registry E expanded_map) w'), 0).
Proof.
  intros Hc. unfold main.
  rewrite (proj2 (path_exists_true _ _)) by (by rewrite Hc).
  simpl. unfold read_file. by rewrite Hc.
Qed.

End Driver.

(** ** The traversal at depth 0 *)

Section DepthZero.
Context (E : Env).

Lemma seed_event_mono (am : registry) (seeds seeds' : list string)
    (restart : bool) (e : event) :
  (∀ s, s ∈ seeds → s ∈ seeds') →
  seed_event am seeds restart e → seed_event am seeds' restart e.
Proof.
  intros Hsub. destruct e; simpl; [naive_solver| |done].
  intros (? & s & d & ? & ?). split; [done|]. exists s, d. naive_solver.
Qed.

Lemma merge_graph_empty_r (g : graph) : merge_graph g ∅ = g.
Proof. unfold merge_graph. apply map_fold_empty. Qed.

Lemma is_print_seed_event (am : registry) (seeds : list string)
    (restart : bool) (evs : list event) :
  Forall is_print evs → Forall (seed_event am seeds restart) evs.
Proof. intros H. eapply Forall_impl; [exact H|]. by intros []. Qed.

(** One seed at depth [0]. *)
Lemma main_loop_body_depth0 (fuel : nat) (am : registry) (restart : bool)
    (w : World) (g : graph) (s : string) (d : ArticleData) :
  am !! s = Some d →
  ∃ w' gs evs,
    main_loop_body E (S fuel) am 0 restart (w, am, g) s
      = Ok (w', am, merge_graph g gs)
    ∧ dom gs ⊆ {[s]}
    ∧ trace w' = trace w ++ evs
    ∧ Forall (seed_event am [s] restart) evs
    ∧ (restart = false →
       files w' = files w
       ∧ ∀ k x, x ∈ edges gs k ↔
                  k = s ∧ ∃ c, files w !! path d = Some c
                               ∧ x ∈ link_names (parse_outbound_links E c)).
Proof.
  intros Hs. rewrite (main_loop_body_seed E _ _ _ _ _ _ _ _ d Hs).
  assert (Hcall : seed_event am [s] restart (EvCall s 0)).
  { split; [by left|done]. }
  destruct (path_exists (path d) w) eqn:Hex; cbn [negb].
  - apply path_exists_true in Hex as [c0 Hc0].
    rewrite (explore_related_leaf E fuel am s (link d) true 0 restart w d)
      by done.
    set (w0 := log (EvCall s 0) w).
    assert (∃ evs1,
               trace (if restart then get_article E (link d) (path d) w0
                      else w0) = trace w ++ EvCall s 0 :: evs1
               ∧ Forall (seed_event am [s] restart) evs1
               ∧ (restart = false → evs1 = []))
      as (evs1 & Htr1 & Hev1 & Hnil).
    { destruct restart.
      - destruct (get_article_trace E (link d) (path d) w0)
          as (evs & Hevs & Hpr).
        exists (EvGetArticle (link d) (path d) :: evs).
        rewrite Hevs. simpl. rewrite <- app_assoc.
        split; [done|]. split; [|done].
        constructor; [|by apply is_print_seed_event].
        split; [done|]. exists s, d. by repeat split; [left|..].
      - exists []. by repeat split. }
    destruct (files (if restart then _ else w0) !! path d)
      as [c|] eqn:Hc; simpl.
    + eexists _, _, (EvCall s 0 :: evs1).
      rewrite (left_id_L ∅ (∪)). split; [done|].
      split; [by rewrite dom_singleton_L|].
      split; [done|]. split; [by constructor|].
      intros ->. simpl in *. split; [done|].
      intros k x. unfold edges.
      destruct (decide (s = k)) as [->|Hne].
      * rewrite lookup_singleton_eq. simpl. rewrite list_set_elem.
        rewrite Hc. naive_solver.
      * rewrite lookup_singleton_ne by done. simpl. set_solver.
    + exists (print missing_msg2
                (print (missing_msg1 (path d) s)
                   (if restart then get_article E (link d) (path d) w0
                    else w0))), ∅,
             (EvCall s 0 :: evs1
              ++ [EvPrint (missing_msg1 (path d) s); EvPrint missing_msg2]).
      rewrite (left_id_L ∅ (∪)), merge_graph_empty_r.
      split; [done|]. split; [set_solver|].
      split; [simpl; rewrite Htr1, <- !app_assoc; done|].
      split.
      { constructor; [done|]. apply Forall_app. split; [done|].
        by repeat constructor. }
      intros ->. simpl in *. congruence.
  - apply path_exists_false in Hex.
    exists (print ("Skipping " +:+ s)
              (print ("Could not find path " +:+ path d) w)), ∅,
           [EvPrint ("Could not find path " +:+ path d);
            EvPrint ("Skipping " +:+ s)].
    rewrite merge_graph_empty_r. split; [done|]. split; [set_solver|].
    split; [simpl; by rewrite <- app_assoc|].
    split; [by repeat constructor|].
    intros _. split; [done|]. intros k x. unfold edges.
    rewrite lookup_empty. simpl. rewrite Hex. set_solver.
Qed.

(** The loop over the seeds at depth [0]. *)
Lemma traverse_loop_depth0 (fuel : nat) (am : registry) (restart : bool)
    (seeds : list string) (w : World) (g0 : graph) :
  (∀ s, s ∈ seeds → is_Some (am !! s)) →
  ∃ w' g evs,
    for_each (main_loop_body E (S fuel) am 0 restart) seeds (w, am, g0)
      = Ok (w', am, g)
    ∧ dom g0 ⊆ dom g ∧ dom g ⊆ dom g0 ∪ list_to_set seeds
    ∧ trace w' = trace w ++ evs
    ∧ Forall (seed_event am seeds restart) evs
    ∧ (restart = false →
       files w' = files w
       ∧ ∀ k x, x ∈ edges g k ↔
                  x ∈ edges g0 k
                  ∨ (k ∈ seeds
                     ∧ ∃ d c, am !! k = Some d
                              ∧ files w !! path d = Some c
                              ∧ x ∈ link_names
                                      (parse_outbound_links E c))).
Proof.
  revert w g0. induction seeds as [|s seeds IH]; intros w g0 Hseeds.
  - exists w, g0, []. simpl. rewrite app_nil_r.
    split; [done|]. split; [done|]. split; [set_solver|].
    split; [done|]. split; [constructor|]. intros _. split; [done|].
    intros k x. set_solver.
  - destruct (Hseeds s) as [d Hd]; [by left|].
    destruct (main_loop_body_depth0 fuel am restart w g0 s d Hd)
      as (w1 & gs & evs1 & Hbody & Hdom1 & Htr1 & Hev1 & Hq1).
    destruct (IH w1 (merge_graph g0 gs)) as
      (w' & g & evs & Hrun & Hdoma & Hdomb & Htr & Hev & Hq).
    { intros s' Hs'. apply Hseeds. by right. }
    exists w', g, (evs1 ++ evs). cbn [for_each]. rewrite Hbody.
    split; [done|]. rewrite merge_graph_dom in Hdoma, Hdomb.
    split; [set_solver|]. split; [set_solver|].
    split; [by rewrite Htr, Htr1, <- app_assoc|].
    split.
    { apply Forall_app. split.
      - eapply Forall_impl; [exact Hev1|]. intros e.
        apply seed_event_mono. set_solver.
      - eapply Forall_impl; [exact Hev|]. intros e.
        apply seed_event_mono. set_solver. }
    intros Hr. destruct (Hq1 Hr) as [Hf1 Hedges1].
    destruct (Hq Hr) as [Hf Hedges]. split; [congruence|].
    intros k x. rewrite Hedges, merge_graph_edges, Hedges1, Hf1.
    rewrite elem_of_cons. naive_solver.
Qed.

End DepthZero.

(** ** Re-running the driver over a closed registry *)

Section DriverRerun.
Context (E : Env).

Lemma traverse_loop_closed_sim (fuel : nat) (am : registry) (depth : Z)
    (fs1 fs2 : gmap string string) (seeds : list string)
    (u1 u2 u1' : World) (g0 g : graph) (em : registry) :
  registry_closed E am fs1 → agree_on am fs1 fs2 →
  (∀ s, s ∈ seeds → is_Some (am !! s)) →
  files u1 = fs1 → files u2 = fs2 →
  for_each (main_loop_body E fuel am depth false) seeds (u1, am, g0)
    = Ok (u1', em, g) →
  em = am ∧ quiet u1 u1'
  ∧ ∃ u2', for_each (main_loop_body E fuel am depth false) seeds
             (u2, am, g0) = Ok (u2', am, g)
           ∧ quiet u2 u2'.
Proof.
  intros Hcl Hag. revert u1 u2 g0.
  induction seeds as [|s seeds IH]; intros u1 u2 g0 Hseeds Hf1 Hf2 Hrun;
    cbn [for_each] in *.
  - injection Hrun as <- <- <-.
    refine (conj eq_refl (conj (quiet_refl _) _)).
    exists u2. split; [done|apply quiet_refl].
  - destruct (Hseeds s) as [d Hd]; [by left|].
    rewrite (main_loop_body_seed E _ _ _ _ _ _ _ _ d Hd) in Hrun.
    rewrite (main_loop_body_seed E _ _ _ _ _ _ _ _ d Hd).
    assert (Hex : path_exists (path d) u2 = path_exists (path d) u1).
    { unfold path_exists. by rewrite Hf1, Hf2, (Hag s d Hd). }
    rewrite Hex. destruct (path_exists (path d) u1); cbn [negb] in *.
    + destruct (explore_related E fuel am s (link d) true depth false u1)
        as [[[[u3 am3] sub] gs]| |] eqn:Hrec; simpl in Hrun;
        try discriminate.
      eapply (explore_closed_sim E fuel am s (link d) (link d) true true
                depth u1 u2) in Hrec
        as (-> & -> & Hqa & u3' & Hrec2 & Hqb);
        [|by rewrite Hf1|by rewrite Hf1, Hf2|by eauto].
      rewrite Hrec2. simpl. rewrite (left_id_L ∅ (∪)) in *.
      eapply (IH u3 u3') in Hrun as (-> & Hqc & u4' & Hrun2 & Hqd);
        [|by intros s' ?; apply Hseeds; right
         |by rewrite (proj1 Hqa)|by rewrite (proj1 Hqb)].
      refine (conj eq_refl (conj _ _)); [by eapply quiet_trans|].
      exists u4'. split; [done|by eapply quiet_trans].
    + assert (Hp : ∀ u, quiet u
                 (print ("Skipping " +:+ s)
                    (print ("Could not find path " +:+ path d) u))).
      { intros u. eapply quiet_trans; apply quiet_log; intros []. }
      eapply (IH _ (print ("Skipping " +:+ s)
                      (print ("Could not find path " +:+ path d) u2)))
        in Hrun as (-> & Hqc & u4' & Hrun2 & Hqd);
        [|by intros s' ?; apply Hseeds; right|done|done].
      refine (conj eq_refl (conj _ _)); [by eapply quiet_trans|].
      exists u4'. split; [done|by eapply quiet_trans].
Qed.

(** Two runs of [main] without [--restart], from worlds that hold the
    same seed file and the same content at every registered path, over a
    registry closed under links: neither downloads anything, both leave
    the registry as it was, and both write the same graph. *)
Lemma main_closed_sim (fuel : nat) (depth : Z) (w1 w2 w1' : World) :
  files w1 !! article_json = files w2 !! article_json →
  registry_closed E (seed_registry E w1) (files w1) →
  agree_on (seed_registry E w1) (files w1) (files w2) →
  main E fuel false depth w1 = Ok (w1', 0) →
  ∃ g w2',
    files w1' = with_outputs E depth (seed_registry E w1) g (files w1)
    ∧ no_downloads w1 w1'
    ∧ main E fuel false depth w2 = Ok (w2', 0)
    ∧ files w2' = with_outputs E depth (seed_registry E w1) g (files w2)
    ∧ no_downloads w2 w2'.
Proof.
  intros Hseed Hcl Hag Hrun. unfold seed_registry in *.
  destruct (files w1 !! article_json) as [content|] eqn:Hc.
  - rewrite (main_seed_present E _ _ _ _ content Hc) in Hrun.
    rewrite (main_seed_present E _ _ _ w2 content) by done.
    cbn zeta in *. unfold traverse in *.
    destruct (for_each _ _ (w1, _, _)) as [[[u1 em] g]| |] eqn:Hloop;
      simpl in Hrun; try discriminate.
    injection Hrun as <-.
    eapply (traverse_loop_closed_sim fuel _ depth (files w1) (files w2)
              _ w1 w2) in Hloop
      as (-> & [Hf1 Hq1] & u2 & Hrun2 & [Hf2 Hq2]);
      [|done|done|apply keys_of_pairs_registered|done|done].
    rewrite Hrun2. simpl.
    exists (list_set E <$> g).
    exists (write_file (graph_json depth)
              (json_dump_graph E (list_set E <$> g))
              (write_file (expanded_json depth)
                 (json_dump_registry E
                    (dict_of_pairs (json_load E content))) u2)).
    unfold with_outputs, no_downloads. simpl. rewrite Hf1, Hf2.
    by repeat split.
  - rewrite (main_seed_absent E _ _ _ _ Hc) in Hrun. discriminate.
Qed.

End DriverRerun.

(** ** Paths of first-seen articles *)

Lemma str_contains_app (c : ascii) (s1 s2 : string) :
  str_contains c (s1 +:+ s2)
  = (str_contains c s1 || str_contains c s2)%bool.
Proof.
  induction s1 as [|c1 s1 IH]; simpl; [done|].
  rewrite IH. by destruct (Ascii.eqb c1 c).
Qed.

Lemma str_replace_no_sep (s : string) :
  str_contains "/" (str_replace "/" "-" s) = false.
Proof.
  induction s as [|c s IH]; simpl; [done|]. rewrite IH.
  destruct (Ascii.eqb c "/") eqn:Hc; [done|]. by rewrite Hc.
Qed.

Lemma startswith_sep_contains (s : string) :
  startswith_sep s = true → str_contains "/" s = true.
Proof. destruct s as [|c s]; simpl; [done|]. by intros ->. Qed.

Lemma cleaned_name_no_sep (a : string) :
  str_contains "/" (str_replace "/" "-" a +:+ ".html") = false.
Proof. by rewrite str_contains_app, str_replace_no_sep. Qed.

Lemma fresh_article_path_eq (t : bool) (a : string) :
  fresh_article_path t a
  = "./data/" +:+ (if t then "term" else "article") +:+ "/"
    +:+ str_replace "/" "-" a +:+ ".html".
Proof.
  unfold fresh_article_path, os_path_join.
  destruct (startswith_sep _) eqn:Hs.
  - apply startswith_sep_contains in Hs.
    by rewrite cleaned_name_no_sep in Hs.
  - by destruct t.
Qed.

(** * The claims *)

(** C9.  Registry delta within the shared registry: every
    identifier-record pair of the registry delta returned by
    [explore_related] is, with the same record, in the shared registry at
    return time.  (The registry at return time is the delta laid over the
    registry on entry, and the delta only holds identifiers that were not
    registered on entry.) *)
Theorem registry_delta_in_registry (E : Env) (fuel : nat) (am : registry)
    (a url : string) (t : bool) (depth : Z) (restart : bool) (w w' : World)
    (am' sub : registry) (g : graph) :
  explore_related E fuel am a url t depth restart w = Ok (w', am', sub, g) →
  (∀ k d, sub !! k = Some d → am' !! k = Some d)
  ∧ am' = sub ∪ am
  ∧ (∀ k, is_Some (sub !! k) → am !! k = None).
Proof.
  intros Hrun.
  apply explore_related_post in Hrun as (-> & Hdisj & _).
  split; [|split; [done|]].
  - intros k d Hk. by apply lookup_union_Some_l.
  - intros k [d Hk]. by eapply map_disjoint_Some_l.
Qed.

Lemma registry_delta_in_registry_witness :
  explore_related Demo.env 3 Demo.seeds "Bond" Demo.url_b true 2 false
    Demo.world = Ok Demo.plain_run
  ∧ ∀ k d, Demo.plain_run.1.2 !! k = Some d
           → Demo.plain_run.1.1.2 !! k = Some d.
Proof.
  assert (H : explore_related Demo.env 3 Demo.seeds "Bond" Demo.url_b true 2
                false Demo.world
              = Ok (Demo.plain_run.1.1.1, Demo.plain_run.1.1.2,
                    Demo.plain_run.1.2, Demo.plain_run.2))
    by (vm_compute; reflexivity).
  split; [exact H|].
  exact (proj1 (registry_delta_in_registry _ _ _ _ _ _ _ _ _ _ _ _ _ H)).
Defined.

(** C4.  Depth-bounded termination: for every depth [>= 0], every
    registry and every world (whatever the links between the pages, cycles
    included), [explore_related] completes as soon as the nesting of calls
    may reach [depth + 1]; the calls nested in it carry depths from [0] up
    to, but not including, [depth], so that no call is made below depth
    [0]. *)
Theorem explore_related_terminates (E : Env) (fuel : nat) (am : registry)
    (a url : string) (t : bool) (depth : Z) (restart : bool) (w : World) :
  0 ≤ depth → (Z.to_nat depth < fuel)%nat →
  ∃ w' am' sub g evs,
    explore_related E fuel am a url t depth restart w = Ok (w', am', sub, g)
    ∧ trace w' = trace w ++ EvCall a depth :: evs
    ∧ ∀ a' d', EvCall a' d' ∈ evs → 0 ≤ d' < depth.
Proof.
  intros _ Hfuel.
  destruct (explore_related_total E fuel am a url t depth restart w Hfuel)
    as ([[[w' am'] sub] g] & Hrun).
  pose proof (explore_related_post E _ _ _ _ _ _ _ _ _ Hrun)
    as (_ & _ & _ & evs & Htr & Hb).
  by exists w', am', sub, g, evs.
Qed.

Lemma explore_related_terminates_witness :
  0 ≤ 2 ∧ (Z.to_nat 2 < 3)%nat
  ∧ ∃ w' am' sub g evs,
      explore_related Demo.env 3 Demo.seeds "Bond" Demo.url_b true 2 true
        Demo.world = Ok (w', am', sub, g)
      ∧ trace w' = trace Demo.world ++ EvCall "Bond" 2 :: evs
      ∧ ∀ a' d', EvCall a' d' ∈ evs → 0 ≤ d' < 2.
Proof.
  split; [lia|]. split; [simpl; lia|].
  apply (explore_related_terminates Demo.env 3 Demo.seeds "Bond" Demo.url_b
           true 2 true Demo.world); [lia|simpl; lia].
Defined.



(** The seed of the spec's scenario lists Yield twice and Coupon once: its
    edge list has two elements. *)
Example bond_lists_yield_twice :
  parse_outbound_links Demo.env Demo.bond_html
  = [("Yield", Demo.url_y, true); ("Yield", Demo.url_y, true);
     ("Coupon", Demo.url_c, true)]
  ∧ Demo.plain_run.2 !! "Bond" = Some ["Yield"; "Coupon"].
Proof. split; vm_compute; reflexivity. Qed.



(** Par/Value is reached from Yield and from Coupon; under [--restart] it
    is downloaded again in between and has changed: the entry returned for
    it holds the references of both visits. *)
Example two_parents_union :
  Demo.forced_run.2 !! "Par/Value" = Some ["Face"; "Maturity"]
  ∧ Demo.plain_run.2 !! "Par/Value" = Some ["Face"].
Proof. split; vm_compute; reflexivity. Qed.

(** The registry left by the download step is kept to the end of the
    call. *)
Lemma explore_related_registry_download (E : Env) (fuel : nat)
    (am : registry) (a url : string) (t : bool) (depth : Z) (restart : bool)
    (w w' w1 : World) (am' sub am1 sub1 : registry) (g : graph)
    (p : string) :
  explore_related E (S fuel) am a url t depth restart w
    = Ok (w', am', sub, g) →
  download_step E am a url t restart (log (EvCall a depth) w)
    = Ok (w1, am1, sub1, p) →
  am1 ⊆ am'.
Proof.
  intros Hrun Hdl.
  apply explore_related_Ok_inv in Hrun
    as (w1' & am1' & sub1' & p' & Hdl' & Hrest).
  rewrite Hdl in Hdl'. injection Hdl' as <- <- <- <-.
  destruct Hrest as [(_ & _ & -> & _)|(content & g2 & _ & Hloop & _)];
    [done|].
  destruct (0 <? depth); [|by injection Hloop as _ <- _ _].
  unfold explore_links in Hloop.
  eapply (for_each_inv (λ s : ExploreState, am1 ⊆ s.1.1.2)) in Hloop;
    [done| |done].
  intros [[[w2 am2] sub2] g3] [[n l] t'] s' _ Hsub Hbody.
  unfold explore_links_body in Hbody.
  destruct (explore_related E fuel am2 n l t' (depth - 1) restart w2)
    as [[[[w3 am3] ss] gs]| |] eqn:Hrec; simpl in Hbody; try discriminate.
  injection Hbody as <-. simpl in *.
  apply explore_related_post in Hrec as (-> & Hd3 & _).
  etrans; [exact Hsub|]. by apply map_union_subseteq_r.
Qed.

(** C8.  Path of a first-seen article: for an identifier that is not in
    the registry, the content goes to the file named after the identifier
    with every ["/"] replaced by ["-"], followed by [".html"], directly
    inside the folder for its kind; the file name holds no separator,
    whatever the identifier, and the call completes without an exception;
    the path is the one given to [get_article] and the one recorded in the
    registry and in the delta. *)
Theorem fresh_article_path_safe (E : Env) (fuel : nat) (am : registry)
    (a url : string) (t : bool) (depth : Z) (restart : bool) (w : World) :
  am !! a = None → (Z.to_nat depth < fuel)%nat →
  let file_name := str_replace "/" "-" a +:+ ".html" in
  let p := "./data/" +:+ (if t then "term" else "article") +:+ "/"
           +:+ file_name in
  str_contains "/" file_name = false
  ∧ os_path_join (related_articles_folder t) file_name = p
  ∧ ∃ w' am' sub g evs,
      explore_related E fuel am a url t depth restart w
        = Ok (w', am', sub, g)
      ∧ am' !! a = Some {| path := p; link := url |}
      ∧ sub !! a = Some {| path := p; link := url |}
      ∧ trace w' = trace w ++ EvCall a depth :: EvGetArticle url p :: evs.
Proof.
  intros Ha Hfuel file_name p.
  assert (Hp : fresh_article_path t a = p) by apply fresh_article_path_eq.
  split; [apply cleaned_name_no_sep|]. split; [exact Hp|].
  destruct (explore_related_total E fuel am a url t depth restart w Hfuel)
    as ([[[w' am'] sub] g] & Hrun).
  destruct fuel as [|fuel]; [discriminate|].
  pose proof (download_step_unseen E am a url t restart
                (log (EvCall a depth) w) Ha) as Hdl.
  simpl in Hdl. rewrite Hp in Hdl.
  destruct (explore_related_trace_download E _ _ _ _ _ _ _ _ _ _ _ _ _ _ _ _
              Hrun Hdl) as [evs Hevs].
  destruct (get_article_trace E url p (log (EvCall a depth) w))
    as (evs1 & Hevs1 & _).
  pose proof (explore_related_registry_download E _ _ _ _ _ _ _ _ _ _ _ _ _
                _ _ _ Hrun Hdl) as Hgrow.
  pose proof (explore_related_post E _ _ _ _ _ _ _ _ _ Hrun)
    as (Ham' & Hdisj & _).
  assert (Ha' : am' !! a = Some {| path := p; link := url |}).
  { eapply lookup_weaken; [|exact Hgrow]. apply lookup_insert_eq. }
  exists w', am', sub, g, (evs1 ++ evs).
  split; [done|]. split; [done|]. split.
  - rewrite Ham' in Ha'. apply lookup_union_Some_raw in Ha'
      as [?|[_ ?]]; [done|congruence].
  - rewrite Hevs, Hevs1. simpl. by rewrite <- !app_assoc.
Qed.

Lemma fresh_article_path_safe_witness :
  (∅ : registry) !! "Par/Value" = None ∧ (Z.to_nat 0 < 1)%nat
  ∧ str_contains "/" (str_replace "/" "-" "Par/Value" +:+ ".html") = false
  ∧ os_path_join (related_articles_folder true)
      (str_replace "/" "-" "Par/Value" +:+ ".html")
    = "./data/term/Par-Value.html".
Proof.
  split; [reflexivity|]. split; [simpl; lia|].
  pose proof (fresh_article_path_safe Demo.env 1 ∅ "Par/Value" Demo.url_p
                true 0 false Demo.world eq_refl ltac:(simpl; lia)) as H.
  simpl in H. destruct H as (H1 & H2 & _). by split.
Defined.

(** C2, as amended.  Skip on missing content: when the file of the node is
    missing after the download step, the call prints the two lines and
    returns with an empty graph delta and without any recursive call (the
    world is the one left by the download step, plus the two lines).  The
    registry delta is the one of the download step: empty when the
    identifier was registered, and the fresh entry of the identifier when
    it was not. *)
Theorem missing_content_skips (E : Env) (fuel : nat) (am : registry)
    (a url : string) (t : bool) (depth : Z) (restart : bool)
    (w w1 : World) (am1 sub1 : registry) (p : string) :
  download_step E am a url t restart (log (EvCall a depth) w)
    = Ok (w1, am1, sub1, p) →
  files w1 !! p = None →
  explore_related E (S fuel) am a url t depth restart w
    = Ok (print missing_msg2 (print (missing_msg1 p a) w1), am1, sub1, ∅)
  ∧ sub1 = match am !! a with
           | Some _ => ∅
           | None => {[a := {| path := fresh_article_path t a; link := url |}]}
           end.
Proof.
  intros Hdl Hnone. split.
  - rewrite explore_related_S, Hdl. simpl.
    by rewrite (proj2 (path_exists_false _ _)) by done.
  - destruct (am !! a) as [d|] eqn:Ha.
    + rewrite (download_step_seen E am a url t restart _ d Ha) in Hdl.
      by injection Hdl as _ _ <- _.
    + rewrite (download_step_unseen E am a url t restart _ Ha) in Hdl.
      by injection Hdl as _ _ <- _.
Qed.

Lemma missing_content_skips_witness :
  download_step Demo.env Demo.seeds "Ghost" Demo.url_g true false
    (log (EvCall "Ghost" 0) Demo.world) = Ok Demo.ghost_download
  ∧ files Demo.ghost_download.1.1.1 !! Demo.ghost_download.2 = None
  ∧ explore_related Demo.env 1 Demo.seeds "Ghost" Demo.url_g true 0 false
      Demo.world
    = Ok (print missing_msg2
            (print (missing_msg1 Demo.ghost_download.2 "Ghost")
               Demo.ghost_download.1.1.1),
          Demo.ghost_download.1.1.2, Demo.ghost_download.1.2, ∅).
Proof.
  assert (H1 : download_step Demo.env Demo.seeds "Ghost" Demo.url_g true false
                 (log (EvCall "Ghost" 0) Demo.world)
               = Ok (Demo.ghost_download.1.1.1, Demo.ghost_download.1.1.2,
                     Demo.ghost_download.1.2, Demo.ghost_download.2))
    by (vm_compute; reflexivity).
  assert (H2 : files Demo.ghost_download.1.1.1 !! Demo.ghost_download.2
               = None) by (vm_compute; reflexivity).
  split; [exact H1|]. split; [exact H2|].
  exact (proj1 (missing_content_skips Demo.env 0 _ _ _ _ _ _ _ _ _ _ _
                  H1 H2)).
Defined.

(** C2, as stated, fails: "Ghost" is not registered and its download
    fails, so its file is missing after the download step; the call
    returns a registry delta that holds the entry of "Ghost". *)
Lemma missing_content_empty_deltas_counterexample :
  download_step Demo.env Demo.seeds "Ghost" Demo.url_g true false
    (log (EvCall "Ghost" 0) Demo.world) = Ok Demo.ghost_download
  ∧ files Demo.ghost_download.1.1.1 !! Demo.ghost_download.2 = None
  ∧ explore_related Demo.env 1 Demo.seeds "Ghost" Demo.url_g true 0 false
      Demo.world = Ok Demo.ghost_run
  ∧ Demo.ghost_run.1.2
    = {["Ghost" := {| path := "./data/term/Ghost.html";
                      link := Demo.url_g |}]}
  ∧ Demo.ghost_run.1.2 ≠ ∅
  ∧ Demo.ghost_run.2 = ∅.
Proof.
  repeat split; try (vm_compute; reflexivity).
  intros H. apply (f_equal (λ m : registry, m !! "Ghost")) in H.
  vm_compute in H. discriminate.
Qed.

(** C6, as amended.  Forced re-download of a registered article: under
    [restart], for an identifier that is in the registry, the entry is
    left as it is; the content is downloaded again, from the locator of
    the call to the path of the entry, right after the call is entered and
    before any recursion; and the returned registry delta has no entry for
    the identifier. *)
Theorem forced_refetch_keeps_entry (E : Env) (fuel : nat) (am : registry)
    (a url : string) (t : bool) (depth : Z) (w w' : World)
    (am' sub : registry) (g : graph) (d : ArticleData) :
  am !! a = Some d →
  explore_related E (S fuel) am a url t depth true w
    = Ok (w', am', sub, g) →
  am' !! a = Some d
  ∧ sub !! a = None
  ∧ ∃ evs, trace w' = trace w ++ EvCall a depth
                        :: EvGetArticle url (path d) :: evs.
Proof.
  intros Ha Hrun.
  pose proof (download_step_seen E am a url t true (log (EvCall a depth) w)
                d Ha) as Hdl.
  destruct (explore_related_trace_download E _ _ _ _ _ _ _ _ _ _ _ _ _ _ _ _
              Hrun Hdl) as [evs Hevs].
  destruct (get_article_trace E url (path d) (log (EvCall a depth) w))
    as (evs1 & Hevs1 & _).
  apply explore_related_post in Hrun as (-> & Hdisj & _).
  assert (Hsa : sub !! a = None) by by eapply map_disjoint_Some_r.
  split; [by rewrite lookup_union_r|]. split; [done|].
  exists (evs1 ++ evs). rewrite Hevs, Hevs1. simpl.
  by rewrite <- !app_assoc.
Qed.

Lemma forced_refetch_keeps_entry_witness :
  Demo.seeds !! "Bond" = Some Demo.bond
  ∧ explore_related Demo.env 1 Demo.seeds "Bond" "https://x/moved.asp" true
      0 true Demo.world = Ok Demo.forced_leaf_run
  ∧ Demo.forced_leaf_run.1.1.2 !! "Bond" = Some Demo.bond
  ∧ Demo.forced_leaf_run.1.2 !! "Bond" = None.
Proof.
  assert (H1 : Demo.seeds !! "Bond" = Some Demo.bond)
    by (vm_compute; reflexivity).
  assert (H2 : explore_related Demo.env 1 Demo.seeds "Bond"
                 "https://x/moved.asp" true 0 true Demo.world
               = Ok (Demo.forced_leaf_run.1.1.1, Demo.forced_leaf_run.1.1.2,
                     Demo.forced_leaf_run.1.2, Demo.forced_leaf_run.2))
    by (vm_compute; reflexivity).
  split; [exact H1|]. split; [exact H2|].
  pose proof (forced_refetch_keeps_entry _ _ _ _ _ _ _ _ _ _ _ _ _ H1 H2)
    as (H3 & H4 & _).
  by split.
Defined.

(** C6, as stated, fails: "Bond" is registered with the locator
    [Demo.url_b] and is expanded under [restart] with another locator; the
    entry still holds [Demo.url_b] afterwards, and the returned registry
    delta is empty. *)
Lemma forced_refetch_overwrites_counterexample :
  Demo.seeds !! "Bond" = Some Demo.bond
  ∧ explore_related Demo.env 1 Demo.seeds "Bond" "https://x/moved.asp" true
      0 true Demo.world = Ok Demo.forced_leaf_run
  ∧ Demo.forced_leaf_run.1.1.2 !! "Bond"
    = Some {| path := "./data/term/Bond.html"; link := Demo.url_b |}
  ∧ Demo.forced_leaf_run.1.2 = ∅.
Proof. repeat split; vm_compute; reflexivity. Qed.

(** The edges that the turn of one seed adds at depth [0]: the names of
    the content at the seed's path after the download step of its call. *)
Lemma main_loop_body_depth0_edges (E : Env) (fuel : nat) (am : registry)
    (restart : bool) (w w' : World) (g g' : graph) (em : registry)
    (s : string) (d : ArticleData) :
  am !! s = Some d →
  main_loop_body E (S fuel) am 0 restart (w, am, g) s = Ok (w', em, g') →
  ∃ gs,
    g' = merge_graph g gs ∧ em = am
    ∧ ∀ k x, x ∈ edges gs k ↔
        k = s ∧ path_exists (path d) w = true
        ∧ ∃ w1 c,
            download_step E am s (link d) true restart (log (EvCall s 0) w)
              = Ok (w1, am, ∅, path d)
            ∧ files w1 !! path d = Some c
            ∧ x ∈ link_names (parse_outbound_links E c).
Proof.
  intros Hs. rewrite (main_loop_body_seed E _ _ _ _ _ _ _ _ d Hs).
  rewrite (download_step_seen E am s (link d) true restart _ d Hs).
  destruct (path_exists (path d) w) eqn:Hex; cbn [negb].
  - rewrite (explore_related_leaf E fuel am s (link d) true 0 restart w d)
      by done.
    destruct (files (if restart
                     then get_article E (link d) (path d)
                            (log (EvCall s 0) w)
                     else log (EvCall s 0) w) !! path d)
      as [c|] eqn:Hc; simpl; intros [= <- <- <-].
    + eexists. split; [done|]. split; [by rewrite (left_id_L ∅ (∪))|].
      intros k x. unfold edges.
      destruct (decide (s = k)) as [->|Hne].
      * rewrite lookup_singleton_eq. simpl. rewrite list_set_elem. split.
        -- intros Hx. split; [done|]. split; [done|]. by eexists _, c.
        -- intros (_ & _ & w1 & c' & [= <-] & Hc' & Hx).
           rewrite Hc in Hc'. by injection Hc' as <-.
      * rewrite lookup_singleton_ne by done. simpl. split.
        -- by intros ?%elem_of_nil.
        -- by intros [<- _].
    + exists ∅. rewrite merge_graph_empty_r. split; [done|].
      split; [by rewrite (left_id_L ∅ (∪))|].
      intros k x. unfold edges. rewrite lookup_empty. simpl. split.
      * by intros ?%elem_of_nil.
      * intros (_ & _ & w1 & c' & [= <-] & Hc' & _). by rewrite Hc in Hc'.
  - intros [= <- <- <-]. exists ∅. rewrite merge_graph_empty_r.
    split; [done|]. split; [done|].
    intros k x. unfold edges. rewrite lookup_empty. simpl. split.
    + by intros ?%elem_of_nil.
    + by intros (_ & [=] & _).
Qed.

(** The edges after the loop over the seeds at depth [0]: what the graph
    held before, and what the turn of each seed has added, in the world
    that the turns of the earlier seeds have left. *)
Lemma traverse_loop_depth0_edges (E : Env) (fuel : nat) (am : registry)
    (restart : bool) (seeds : list string) (w w' : World) (g0 g : graph)
    (em : registry) :
  (∀ s, s ∈ seeds → is_Some (am !! s)) →
  for_each (main_loop_body E (S fuel) am 0 restart) seeds (w, am, g0)
    = Ok (w', em, g) →
  ∀ k x, x ∈ edges g k ↔
    x ∈ edges g0 k
    ∨ ∃ ks1 ks2 d wk gk w1 c,
        seeds = ks1 ++ k :: ks2 ∧ am !! k = Some d
        ∧ for_each (main_loop_body E (S fuel) am 0 restart) ks1 (w, am, g0)
          = Ok (wk, am, gk)
        ∧ path_exists (path d) wk = true
        ∧ download_step E am k (link d) true restart (log (EvCall k 0) wk)
          = Ok (w1, am, ∅, path d)
        ∧ files w1 !! path d = Some c
        ∧ x ∈ link_names (parse_outbound_links E c).
Proof.
  revert w g0. induction seeds as [|s seeds IH]; intros w g0 Hseeds Hrun.
  - injection Hrun as <- <- <-. intros k x. split; [by left|].
    intros [?|(ks1 & ks2 & d & wk & gk & w1 & c & Hnil & _)]; [done|].
    by destruct ks1.
  - destruct (Hseeds s) as [d Hd]; [by left|].
    cbn [for_each] in Hrun.
    destruct (main_loop_body E (S fuel) am 0 restart (w, am, g0) s)
      as [[[w1 em1] g1]| |] eqn:Hbody; try discriminate.
    destruct (main_loop_body_depth0_edges E fuel am restart w w1 g0 g1 em1
                s d Hd Hbody) as (gs & -> & -> & Hgs).
    assert (Hseeds' : ∀ s', s' ∈ seeds → is_Some (am !! s'))
      by (by intros s' ?; apply Hseeds; right).
    intros k x. rewrite (IH w1 (merge_graph g0 gs) Hseeds' Hrun k x).
    rewrite merge_graph_edges, Hgs. split.
    + intros [[Hx|(-> & Hex & w2 & c & Hdl & Hc & Hx)]
             |(ks1 & ks2 & dk & wk & gk & w2 & c & -> & Hk & Hpre & Hrest)].
      * by left.
      * right. exists [], seeds, d, w, g0, w2, c. by repeat split.
      * right. exists (s :: ks1), ks2, dk, wk, gk, w2, c.
        split; [done|]. split; [done|]. cbn [for_each]. by rewrite Hbody.
    + intros [Hx|(ks1 & ks2 & dk & wk & gk & w2 & c & Heq & Hk & Hpre
                  & Hex & Hdl & Hc & Hx)]; [by left; left|].
      destruct ks1 as [|s1 ks1]; simpl in Heq.
      * injection Heq as <- <-. injection Hpre as <- <-.
        rewrite Hd in Hk. injection Hk as <-.
        left. right. split; [done|]. split; [done|]. by exists w2, c.
      * injection Heq as <- ->. cbn [for_each] in Hpre.
        rewrite Hbody in Hpre.
        right. exists ks1, ks2, dk, wk, gk, w2, c. by repeat split.
Qed.

(** C5, as amended.  In the traversal at depth 0 every call is the call
    for a seed, at depth [0], so no nested call is made; the only
    downloads are the forced re-downloads of seeds; the registry does not
    grow at all; the keys of the graph are the seed identifiers.  With or
    without [restart], the edge-set of a seed is the set of the outbound
    names of the content that its call reads: the file at the seed's path
    after the download step of the call, in the world that the turns of
    the earlier seeds have left, provided the file exists when the turn
    begins; the edge-set is empty otherwise.  Without [restart] no file
    changes, so that content is the one the file held at the start. *)
Theorem depth_zero_traversal (E : Env) (fuel : nat) (am : registry)
    (seeds : list string) (restart : bool) (w : World) :
  (0 < fuel)%nat →
  (∀ s, s ∈ seeds → is_Some (am !! s)) →
  ∃ w' g evs,
    traverse E fuel am seeds 0 restart w = Ok (w', am, g)
    ∧ dom g = dom am
    ∧ trace w' = trace w ++ evs
    ∧ Forall (seed_event am seeds restart) evs
    ∧ (∀ k x, x ∈ edges g k ↔
         ∃ ks1 ks2 d wk gk w1 c,
           seeds = ks1 ++ k :: ks2 ∧ am !! k = Some d
           ∧ traverse E fuel am ks1 0 restart w = Ok (wk, am, gk)
           ∧ path_exists (path d) wk = true
           ∧ download_step E am k (link d) true restart
               (log (EvCall k 0) wk) = Ok (w1, am, ∅, path d)
           ∧ files w1 !! path d = Some c
           ∧ x ∈ link_names (parse_outbound_links E c))
    ∧ (restart = false →
       files w' = files w
       ∧ ∀ k x, x ∈ edges g k ↔
                  k ∈ seeds
                  ∧ ∃ d c, am !! k = Some d
                           ∧ files w !! path d = Some c
                           ∧ x ∈ link_names (parse_outbound_links E c)).
Proof.
  intros Hfuel Hseeds. destruct fuel as [|fuel]; [lia|].
  destruct (traverse_loop_depth0 E fuel am restart seeds w
              ((λ _, []) <$> am) Hseeds)
    as (w' & g & evs & Hrun & Hdoma & Hdomb & Htr & Hev & Hq).
  assert (Hinit : ∀ k, edges ((λ _ : ArticleData, []) <$> am) k = []).
  { intros k. unfold edges. rewrite lookup_fmap. by destruct (am !! k). }
  exists w', g, evs. split; [exact Hrun|].
  rewrite dom_fmap_L in Hdoma, Hdomb.
  split.
  { apply set_eq. intros k. split; [|by apply Hdoma].
    intros Hk. apply Hdomb in Hk. apply elem_of_union in Hk as [?|Hk]; [done|].
    apply elem_of_list_to_set in Hk. by apply elem_of_dom, Hseeds. }
  split; [done|]. split; [done|]. split.
  { intros k x. unfold traverse.
    rewrite (traverse_loop_depth0_edges E fuel am restart seeds w w' _ g am
               Hseeds Hrun k x), Hinit.
    split; [by intros [?%elem_of_nil|?]|by right]. }
  intros Hr. destruct (Hq Hr) as [Hf Hedges]. split; [done|].
  intros k x. rewrite Hedges, Hinit. set_solver.
Qed.

(** The three seeds of the registry, under [restart]. *)
Lemma depth_zero_traversal_witness :
  (0 < 1)%nat
  ∧ (∀ s, s ∈ ["Bond"; "Yield"; "Coupon"] →
          is_Some (RerunDemo.articles !! s))
  ∧ ∃ w' g evs,
      traverse RerunDemo.env 1 RerunDemo.articles ["Bond"; "Yield"; "Coupon"]
        0 true RerunDemo.world = Ok (w', RerunDemo.articles, g)
      ∧ dom g = dom RerunDemo.articles
      ∧ trace w' = trace RerunDemo.world ++ evs
      ∧ Forall (seed_event RerunDemo.articles ["Bond"; "Yield"; "Coupon"]
                  true) evs
      ∧ (∀ k x, x ∈ edges g k ↔
           ∃ ks1 ks2 d wk gk w1 c,
             ["Bond"; "Yield"; "Coupon"] = ks1 ++ k :: ks2
             ∧ RerunDemo.articles !! k = Some d
             ∧ traverse RerunDemo.env 1 RerunDemo.articles ks1 0 true
                 RerunDemo.world = Ok (wk, RerunDemo.articles, gk)
             ∧ path_exists (path d) wk = true
             ∧ download_step RerunDemo.env RerunDemo.articles k (link d)
                 true true (log (EvCall k 0) wk)
               = Ok (w1, RerunDemo.articles, ∅, path d)
             ∧ files w1 !! path d = Some c
             ∧ x ∈ link_names (parse_outbound_links RerunDemo.env c))
      ∧ (true = false →
         files w' = files RerunDemo.world
         ∧ ∀ k x, x ∈ edges g k ↔
                    k ∈ ["Bond"; "Yield"; "Coupon"]
                    ∧ ∃ d c, RerunDemo.articles !! k = Some d
                             ∧ files RerunDemo.world !! path d = Some c
                             ∧ x ∈ link_names
                                     (parse_outbound_links RerunDemo.env c)).
Proof.
  assert (H1 : (0 < 1)%nat) by lia.
  assert (H2 : ∀ s, s ∈ ["Bond"; "Yield"; "Coupon"] →
                    is_Some (RerunDemo.articles !! s)).
  { intros s Hs.
    apply elem_of_cons in Hs as [->|Hs];
      [exists Demo.bond; vm_compute; reflexivity|].
    apply elem_of_cons in Hs as [->|Hs];
      [exists Demo.yield; vm_compute; reflexivity|].
    apply list_elem_of_singleton in Hs as ->.
    exists RerunDemo.coupon. vm_compute. reflexivity. }
  split; [exact H1|]. split; [exact H2|].
  exact (depth_zero_traversal RerunDemo.env 1 RerunDemo.articles
           ["Bond"; "Yield"; "Coupon"] true RerunDemo.world H1 H2).
Defined.

(** Under [restart] the edge-set of a seed is read from the copy that has
    just been downloaded again: the page of Yield on disk links to Bond
    only, the page served links to Bond and to Par/Value.  The download
    for Bond fails and its edges are read from the old copy; Coupon has
    no file and is skipped, without a download. *)
Example depth_zero_restart_example :
  traverse RerunDemo.env 1 RerunDemo.articles ["Bond"; "Yield"; "Coupon"] 0
    true RerunDemo.world = Ok RerunDemo.forced_depth0_run
  ∧ files RerunDemo.world !! "./data/term/Yield.html" = Some "Yield: Bond"
  ∧ RerunDemo.forced_depth0_run.2 !! "Yield" = Some ["Bond"; "Par/Value"]
  ∧ RerunDemo.forced_depth0_run.2 !! "Bond" = Some ["Yield"; "Coupon"]
  ∧ RerunDemo.forced_depth0_run.2 !! "Coupon" = Some []
  ∧ RerunDemo.forced_depth0_run.1.2 = RerunDemo.articles
  ∧ downloads (trace RerunDemo.forced_depth0_run.1.1)
    = [(Demo.url_b, "./data/term/Bond.html");
       (Demo.url_y, "./data/term/Yield.html")].
Proof. repeat split; vm_compute; reflexivity. Qed.

(** C5, as stated, fails: at depth 0 the seed "Bond" gets "Yield" as a
    direct reference, yet the registry after the traversal is the seed
    registry and has no entry for "Yield", and nothing was downloaded. *)
Lemma depth_zero_registry_growth_counterexample :
  traverse Demo.env 1 Demo.seeds ["Bond"] 0 false Demo.world
    = Ok Demo.depth0_run
  ∧ Demo.depth0_run.2 !! "Bond" = Some ["Yield"; "Coupon"]
  ∧ Demo.depth0_run.1.2 = Demo.seeds
  ∧ Demo.depth0_run.1.2 !! "Yield" = None
  ∧ trace Demo.depth0_run.1.1 = [EvCall "Bond" 0].
Proof. repeat split; vm_compute; reflexivity. Qed.

(** C10.  Exit codes of the driver: when the seed file is absent, [main]
    prints the two lines and exits with code 1, with no call of
    [explore_related] and no download before; when it is present, [main]
    runs the traversal to completion and exits with code 0. *)
Theorem main_exit_codes (E : Env) (fuel : nat) (restart : bool) (depth : Z)
    (w : World) :
  (Z.to_nat depth < fuel)%nat →
  (files w !! article_json = None →
   main E fuel restart depth w
   = Ok ({| files := files w;
            trace := trace w ++ [EvPrint seed_missing_msg1;
                                 EvPrint seed_missing_msg2] |}, 1))
  ∧ (is_Some (files w !! article_json) →
     ∃ w', main E fuel restart depth w = Ok (w', 0)).
Proof.
  intros Hfuel. split.
  - intros Hnone. rewrite (main_seed_absent E _ _ _ _ Hnone).
    unfold print, log. simpl. by rewrite <- app_assoc.
  - intros [content Hc]. rewrite (main_seed_present E _ _ _ _ content Hc).
    cbn zeta.
    destruct (traverse_total E fuel (dict_of_pairs (json_load E content))
                (keys_of_pairs (json_load E content)) depth restart w Hfuel)
      as ([[w' em] g] & ->); [apply keys_of_pairs_registered|].
    simpl. eauto.
Qed.

Lemma main_exit_codes_witness :
  (Z.to_nat 2 < 3)%nat
  ∧ is_Some (files Demo.world !! article_json)
  ∧ ∃ w', main Demo.env 3 false 2 Demo.world = Ok (w', 0).
Proof.
  assert (H1 : (Z.to_nat 2 < 3)%nat) by (simpl; lia).
  assert (H2 : is_Some (files Demo.world !! article_json))
    by (exists Demo.seed_json; vm_compute; reflexivity).
  split; [exact H1|]. split; [exact H2|].
  exact (proj2 (main_exit_codes Demo.env 3 false 2 Demo.world H1) H2).
Defined.

Lemma registry_closedb_sound (E : Env) (am : registry)
    (fs : gmap string string) :
  registry_closedb E am fs = true → registry_closed E am fs.
Proof.
  unfold registry_closedb. rewrite forallb_forall.
  intros Hall k d c link Hk Hc Hlink.
  specialize (Hall (k, d)). simpl in Hall. rewrite Hc in Hall.
  rewrite forallb_forall in Hall.
  eapply bool_decide_eq_true_1, Hall.
  - apply list_elem_of_In. by apply elem_of_map_to_list.
  - by apply list_elem_of_In.
Qed.

(** *** Two processes: another order of [list(set(.))], another answer
    of the site *)

Lemma same_elements_refl (g : graph) : same_elements g g.
Proof. by split. Qed.

Lemma same_elements_merge (ga gb sa sb : graph) :
  same_elements ga gb → same_elements sa sb →
  same_elements (merge_graph ga sa) (merge_graph gb sb).
Proof.
  intros [Hd1 He1] [Hd2 He2]. split.
  - by rewrite !merge_graph_dom, Hd1, Hd2.
  - intros k x. by rewrite !merge_graph_edges, He1, He2.
Qed.

Lemma same_elements_list_set (E1 E2 : Env) (ga gb : graph) :
  same_elements ga gb →
  same_elements (list_set E1 <$> ga) (list_set E2 <$> gb).
Proof.
  intros [Hd He]. split.
  - by rewrite !dom_fmap_L.
  - intros k x. by rewrite !list_set_fmap_edges.
Qed.

Lemma list_set_fmap_NoDup (E : Env) (g : graph) (k : string)
    (l : list string) :
  (list_set E <$> g) !! k = Some l → NoDup l.
Proof.
  rewrite lookup_fmap. destruct (g !! k); [|done]. intros [= <-].
  apply list_set_NoDup.
Qed.

(** Duplicate-free lists with the same elements are permutations. *)
Lemma same_elements_edges (g1 g2 : graph) :
  (∀ k l, g1 !! k = Some l → NoDup l) →
  (∀ k l, g2 !! k = Some l → NoDup l) →
  same_elements g1 g2 → same_edges g1 g2.
Proof.
  intros Hn1 Hn2 [Hd He]. split; [done|]. intros k.
  apply NoDup_Permutation; [| |apply He]; unfold edges.
  - destruct (g1 !! k) eqn:Hk; [by eapply Hn1|constructor].
  - destruct (g2 !! k) eqn:Hk; [by eapply Hn2|constructor].
Qed.

Section OrderSim.
Context (E1 E2 : Env).
Context (Hterm : ∀ c, find_term_tags E1 c = find_term_tags E2 c).
Context (Hart : ∀ c, find_article_tags E1 c = find_article_tags E2 c).

Lemma parse_outbound_links_same (content : string) :
  parse_outbound_links E1 content = parse_outbound_links E2 content.
Proof. unfold parse_outbound_links. by rewrite Hterm, Hart. Qed.

(** A call over a closed registry, by two processes: the second one
    downloads nothing either and returns the same edges, in the order of
    its own sets. *)
Lemma explore_closed_order_sim (fuel : nat) (am : registry)
    (a url1 url2 : string) (t1 t2 : bool) (depth : Z) (w1 w2 w1' : World)
    (am' sub : registry) (g1 : graph) :
  registry_closed E1 am (files w1) →
  agree_on am (files w1) (files w2) →
  is_Some (am !! a) →
  explore_related E1 fuel am a url1 t1 depth false w1
    = Ok (w1', am', sub, g1) →
  ∃ w2' g2,
    explore_related E2 fuel am a url2 t2 depth false w2
      = Ok (w2', am, ∅, g2)
    ∧ quiet w2 w2'
    ∧ same_elements g1 g2
    ∧ ((∀ l, list_set E1 l = list_set E2 l) → g1 = g2).
Proof.
  revert a url1 url2 t1 t2 depth w1 w2 w1' am' sub g1.
  induction fuel as [|fuel IH];
    intros a url1 url2 t1 t2 depth w1 w2 w1' am' sub g1 Hcl Hag [d Ha] Hrun;
    [discriminate|].
  apply explore_related_Ok_inv in Hrun
    as (w1a & am1 & sub1 & p & Hdl & Hrest).
  rewrite (download_step_seen E1 am a url1 t1 false _ d Ha) in Hdl.
  injection Hdl as <- <- <- <-.
  rewrite explore_related_S.
  rewrite (download_step_seen E2 am a url2 t2 false _ d Ha). simpl.
  pose proof (Hag a d Ha) as Hpd.
  assert (Hq2 : quiet w2 (log (EvCall a depth) w2))
    by (apply quiet_log; intros []).
  destruct Hrest as [(Hnone & -> & -> & -> & ->)
                    |(content & ga & Hc & Hloop & ->)].
  - simpl in Hnone. rewrite Hpd in Hnone.
    rewrite (proj2 (path_exists_false _ _)) by done. simpl.
    eexists _, ∅. split; [done|]. split.
    + eapply quiet_trans; [exact Hq2|].
      eapply quiet_trans; apply quiet_log; intros [].
    + split; [apply same_elements_refl|done].
  - simpl in Hc.
    rewrite (proj2 (path_exists_true _ _)) by (by simpl; rewrite <- Hpd, Hc).
    simpl. unfold read_file. simpl. rewrite <- Hpd, Hc. simpl.
    rewrite <- parse_outbound_links_same.
    destruct (0 <? depth) eqn:Hdepth.
    + assert (Hloops :
        ∀ links (u1 u2 u1' : World) (g0 h0 : graph) am' sub ga,
          (∀ link : OutboundLink, link ∈ links → is_Some (am !! link.1.1)) →
          files u1 = files w1 → files u2 = files w2 →
          same_elements g0 h0 →
          ((∀ l, list_set E1 l = list_set E2 l) → g0 = h0) →
          explore_links E1 fuel depth false links (u1, am, ∅, g0)
            = Ok (u1', am', sub, ga) →
          ∃ u2' gb,
            explore_links E2 fuel depth false links (u2, am, ∅, h0)
              = Ok (u2', am, ∅, gb)
            ∧ quiet u2 u2'
            ∧ same_elements ga gb
            ∧ ((∀ l, list_set E1 l = list_set E2 l) → ga = gb)).
      { clear Hloop. unfold explore_links.
        induction links as [|[[n l] t'] links IHl];
          intros u1 u2 u1' g0 h0 am'' sub'' ga' Hin Hf1 Hf2 Hs0 He0 Hl;
          simpl in Hl.
        - injection Hl as <- <- <- <-.
          exists u2, h0. split; [done|]. split; [apply quiet_refl|done].
        - destruct (explore_related E1 fuel am n l t' (depth - 1) false u1)
            as [[[[u3 am3] ss] gs]| |] eqn:Hrec; simpl in Hl;
            try discriminate.
          assert (Hcl1 : registry_closed E1 am (files u1))
            by (by rewrite Hf1).
          assert (Hn : is_Some (am !! n))
            by (by apply (Hin (n, l, t')); left).
          destruct (explore_closed_sim E1 fuel am n l l t' t' (depth - 1)
                      u1 u1 u3 am3 ss gs Hcl1) as (-> & -> & Hqa & _);
            [by intros ???|done|done|].
          eapply (IH n l l t' t' (depth - 1) u1 u2) in Hrec
            as (u3' & gs' & Hrec2 & Hqb & Hs1 & He1);
            [|done|by rewrite Hf1, Hf2|done].
          rewrite (left_id_L ∅ (∪)) in Hl.
          eapply (IHl u3 u3' _ _ (merge_graph h0 gs')) in Hl
            as (u4' & gb & Hrun2 & Hqd & Hs2 & He2);
            [|by intros link ?; apply Hin; right
             |by rewrite (proj1 Hqa)|by rewrite (proj1 Hqb)
             |by apply same_elements_merge
             |by intros Heq; rewrite (He0 Heq), (He1 Heq)].
          exists u4', gb. simpl. rewrite Hrec2. simpl.
          rewrite (left_id_L ∅ (∪)). split; [done|].
          split; [by eapply quiet_trans|done]. }
      eapply (Hloops _ _ (log (EvCall a depth) w2)) in Hloop
        as (u2' & gb & Hrun2 & Hqb & Hs & He);
        [| |done|done|apply same_elements_refl|done].
      * exists u2', (list_set E2 <$> gb). rewrite Hrun2. simpl.
        split; [done|]. split; [by eapply quiet_trans; [exact Hq2|]|].
        split; [by apply same_elements_list_set|].
        intros Heq. rewrite (He Heq). by apply map_fmap_ext.
      * intros link Hlink. by eapply (Hcl a d content link).
    + injection Hloop as <- <- <- <-. simpl.
      eexists _, _. split; [done|]. split; [exact Hq2|].
      split; [apply same_elements_list_set, same_elements_refl|].
      intros Heq. by apply map_fmap_ext.
Qed.

Lemma traverse_loop_closed_order_sim (fuel : nat) (am : registry) (depth : Z)
    (fs1 fs2 : gmap string string) (seeds : list string)
    (u1 u2 u1' : World) (g0 h0 ga : graph) (em : registry) :
  registry_closed E1 am fs1 → agree_on am fs1 fs2 →
  (∀ s, s ∈ seeds → is_Some (am !! s)) →
  files u1 = fs1 → files u2 = fs2 →
  same_elements g0 h0 →
  ((∀ l, list_set E1 l = list_set E2 l) → g0 = h0) →
  for_each (main_loop_body E1 fuel am depth false) seeds (u1, am, g0)
    = Ok (u1', em, ga) →
  ∃ u2' gb,
    for_each (main_loop_body E2 fuel am depth false) seeds (u2, am, h0)
      = Ok (u2', am, gb)
    ∧ quiet u2 u2'
    ∧ same_elements ga gb
    ∧ ((∀ l, list_set E1 l = list_set E2 l) → ga = gb).
Proof.
  intros Hcl Hag. revert u1 u2 g0 h0.
  induction seeds as [|s seeds IH];
    intros u1 u2 g0 h0 Hseeds Hf1 Hf2 Hs0 He0 Hrun; cbn [for_each] in *.
  - injection Hrun as <- <- <-.
    exists u2, h0. split; [done|]. split; [apply quiet_refl|done].
  - destruct (Hseeds s) as [d Hd]; [by left|].
    rewrite (main_loop_body_seed E1 _ _ _ _ _ _ _ _ d Hd) in Hrun.
    rewrite (main_loop_body_seed E2 _ _ _ _ _ _ _ _ d Hd).
    assert (Hex : path_exists (path d) u2 = path_exists (path d) u1).
    { unfold path_exists. by rewrite Hf1, Hf2, (Hag s d Hd). }
    rewrite Hex. destruct (path_exists (path d) u1); cbn [negb] in *.
    + destruct (explore_related E1 fuel am s (link d) true depth false u1)
        as [[[[u3 am3] sub] gs]| |] eqn:Hrec; simpl in Hrun;
        try discriminate.
      assert (Hcl1 : registry_closed E1 am (files u1)) by (by rewrite Hf1).
      destruct (explore_closed_sim E1 fuel am s (link d) (link d) true true
                  depth u1 u1 u3 am3 sub gs Hcl1) as (-> & -> & Hqa & _);
        [by intros ???|by eauto|done|].
      eapply (explore_closed_order_sim fuel am s (link d) (link d) true true
                depth u1 u2) in Hrec
        as (u3' & gs' & Hrec2 & Hqb & Hs1 & He1);
        [|done|by rewrite Hf1, Hf2|by eauto].
      rewrite Hrec2. simpl. rewrite (left_id_L ∅ (∪)) in *.
      eapply (IH u3 u3' _ (merge_graph h0 gs')) in Hrun
        as (u4' & gb & Hrun2 & Hqd & Hs2 & He2);
        [|by intros s' ?; apply Hseeds; right
         |by rewrite (proj1 Hqa)|by rewrite (proj1 Hqb)
         |by apply same_elements_merge
         |by intros Heq; rewrite (He0 Heq), (He1 Heq)].
      exists u4', gb. split; [done|]. split; [by eapply quiet_trans|done].
    + assert (Hp : ∀ u, quiet u
                 (print ("Skipping " +:+ s)
                    (print ("Could not find path " +:+ path d) u))).
      { intros u. eapply quiet_trans; apply quiet_log; intros []. }
      eapply (IH _ (print ("Skipping " +:+ s)
                      (print ("Could not find path " +:+ path d) u2))
                _ h0)
        in Hrun as (u4' & gb & Hrun2 & Hqd & Hs2 & He2);
        [|by intros s' ?; apply Hseeds; right|done|done|done|done].
      exists u4', gb. split; [done|]. split; [by eapply quiet_trans|done].
Qed.

End OrderSim.

(** Two runs of [main] without [--restart], by two processes, from worlds
    that hold the same seed file and the same content at every registered
    path, over a registry closed under links. *)
Lemma main_closed_order_sim (E1 E2 : Env) (fuel : nat) (depth : Z)
    (w1 w2 w1' : World) :
  same_parsers E1 E2 →
  files w1 !! article_json = files w2 !! article_json →
  registry_closed E1 (seed_registry E1 w1) (files w1) →
  agree_on (seed_registry E1 w1) (files w1) (files w2) →
  main E1 fuel false depth w1 = Ok (w1', 0) →
  ∃ g1 g2 w2',
    files w1' = with_outputs E1 depth (seed_registry E1 w1) g1 (files w1)
    ∧ no_downloads w1 w1'
    ∧ main E2 fuel false depth w2 = Ok (w2', 0)
    ∧ files w2' = with_outputs E2 depth (seed_registry E1 w1) g2 (files w2)
    ∧ no_downloads w2 w2'
    ∧ same_edges g1 g2
    ∧ (∀ k l, g1 !! k = Some l → NoDup l)
    ∧ (∀ k l, g2 !! k = Some l → NoDup l)
    ∧ ((∀ l, list_set E1 l = list_set E2 l) → g1 = g2).
Proof.
  intros (Hterm & Hart & Hjson) Hseed Hcl Hag Hrun.
  unfold seed_registry in *.
  destruct (files w1 !! article_json) as [content|] eqn:Hc.
  - rewrite (main_seed_present E1 _ _ _ _ content Hc) in Hrun.
    rewrite (main_seed_present E2 _ _ _ w2 content) by done.
    rewrite <- Hjson. cbn zeta in *. unfold traverse in *.
    destruct (for_each _ _ (w1, _, _)) as [[[u1 em] ga]| |] eqn:Hloop;
      simpl in Hrun; try discriminate.
    injection Hrun as <-.
    pose proof Hloop as Hloop1.
    eapply (traverse_loop_closed_sim E1 fuel _ depth (files w1) (files w1)
              _ w1 w1) in Hloop1 as (-> & [Hf1 Hq1] & _);
      [|done|by intros ???|apply keys_of_pairs_registered|done|done].
    eapply (traverse_loop_closed_order_sim E1 E2 Hterm Hart fuel _ depth
              (files w1) (files w2) _ w1 w2) in Hloop
      as (u2 & gb & Hrun2 & [Hf2 Hq2] & Hs & He);
      [|done|done|apply keys_of_pairs_registered|done|done
       |apply same_elements_refl|done].
    rewrite Hrun2. simpl.
    exists (list_set E1 <$> ga), (list_set E2 <$> gb).
    exists (write_file (graph_json depth)
              (json_dump_graph E2 (list_set E2 <$> gb))
              (write_file (expanded_json depth)
                 (json_dump_registry E2
                    (dict_of_pairs (json_load E1 content))) u2)).
    unfold with_outputs, no_downloads. simpl. rewrite Hf1, Hf2.
    split; [done|]. split; [done|]. split; [done|]. split; [done|].
    split; [done|]. split.
    { apply same_elements_edges;
        [apply list_set_fmap_NoDup..|by apply same_elements_list_set]. }
    split; [apply list_set_fmap_NoDup|].
    split; [apply list_set_fmap_NoDup|].
    intros Heq. rewrite (He Heq). by apply map_fmap_ext.
  - rewrite (main_seed_absent E1 _ _ _ _ Hc) in Hrun. discriminate.
Qed.

(** C7.  Idempotent re-run: two runs of the driver without [--restart],
    by two processes that parse alike and may differ in the answers of the
    site and in the order in which [list(set(.))] enumerates a set, from
    two worlds that hold the same seed file and the same content at every
    registered path, the registry holding every identifier that a
    registered page links to.  Both complete with exit code 0, download
    nothing, leave the registry as loaded and write it, and write graphs
    with the same keys and, under every key, the same edges without
    duplicates, up to the order of the list; when both processes
    enumerate sets in the same order, the two graphs are equal. *)
Theorem rerun_identical_graph (E1 E2 : Env) (fuel : nat) (depth : Z)
    (w1 w2 w1' : World) :
  same_parsers E1 E2 →
  files w1 !! article_json = files w2 !! article_json →
  registry_closed E1 (seed_registry E1 w1) (files w1) →
  agree_on (seed_registry E1 w1) (files w1) (files w2) →
  main E1 fuel false depth w1 = Ok (w1', 0) →
  ∃ g1 g2 w2',
    files w1' = with_outputs E1 depth (seed_registry E1 w1) g1 (files w1)
    ∧ no_downloads w1 w1'
    ∧ main E2 fuel false depth w2 = Ok (w2', 0)
    ∧ files w2' = with_outputs E2 depth (seed_registry E1 w1) g2 (files w2)
    ∧ no_downloads w2 w2'
    ∧ same_edges g1 g2
    ∧ (∀ k l, g1 !! k = Some l → NoDup l)
    ∧ (∀ k l, g2 !! k = Some l → NoDup l)
    ∧ ((∀ l, list_set E1 l = list_set E2 l) → g1 = g2).
Proof. apply main_closed_order_sim. Qed.

(** The second run is made by a later process, in the world the first
    run has left: another order of the sets, the site down. *)
Lemma rerun_identical_graph_witness :
  same_parsers RerunDemo.env RerunDemo.env_later
  ∧ registry_closed RerunDemo.env
      (seed_registry RerunDemo.env RerunDemo.world) (files RerunDemo.world)
  ∧ main RerunDemo.env 3 false 2 RerunDemo.world
    = Ok (RerunDemo.first_run, 0)
  ∧ RerunDemo.first_run ≠ RerunDemo.world
  ∧ ∃ g1 g2 w2',
      files RerunDemo.first_run
      = with_outputs RerunDemo.env 2
          (seed_registry RerunDemo.env RerunDemo.world) g1
          (files RerunDemo.world)
      ∧ no_downloads RerunDemo.world RerunDemo.first_run
      ∧ main RerunDemo.env_later 3 false 2 RerunDemo.first_run
        = Ok (w2', 0)
      ∧ files w2'
        = with_outputs RerunDemo.env_later 2
            (seed_registry RerunDemo.env RerunDemo.world) g2
            (files RerunDemo.first_run)
      ∧ no_downloads RerunDemo.first_run w2'
      ∧ same_edges g1 g2
      ∧ (∀ k l, g1 !! k = Some l → NoDup l)
      ∧ (∀ k l, g2 !! k = Some l → NoDup l)
      ∧ ((∀ l, list_set RerunDemo.env l = list_set RerunDemo.env_later l) →
         g1 = g2).
Proof.
  assert (H0 : same_parsers RerunDemo.env RerunDemo.env_later)
    by (by repeat split).
  assert (H1 : files RerunDemo.world !! article_json
               = files RerunDemo.first_run !! article_json)
    by (vm_compute; reflexivity).
  assert (H2 : registry_closed RerunDemo.env
                 (seed_registry RerunDemo.env RerunDemo.world)
                 (files RerunDemo.world)).
  { apply registry_closedb_sound. vm_compute. reflexivity. }
  assert (H3 : agree_on (seed_registry RerunDemo.env RerunDemo.world)
                 (files RerunDemo.world) (files RerunDemo.first_run)).
  { intros k d Hk.
    assert (Hd : d = Demo.bond ∨ d = Demo.yield ∨ d = RerunDemo.coupon).
    { revert Hk. unfold seed_registry.
      replace (files RerunDemo.world !! article_json)
        with (Some RerunDemo.seed_json) by (vm_compute; reflexivity).
      cbn [json_load RerunDemo.env RerunDemo.demo_json_load dict_of_pairs
             foldl fst snd].
      rewrite !lookup_insert_Some, lookup_empty. naive_solver. }
    destruct Hd as [->|[->| ->]]; vm_compute; reflexivity. }
  assert (H4 : main RerunDemo.env 3 false 2 RerunDemo.world
               = Ok (RerunDemo.first_run, 0)) by (vm_compute; reflexivity).
  assert (H5 : RerunDemo.first_run ≠ RerunDemo.world).
  { intros H. apply (f_equal trace) in H. discriminate H. }
  split; [exact H0|]. split; [exact H2|]. split; [exact H4|].
  split; [exact H5|].
  exact (rerun_identical_graph RerunDemo.env RerunDemo.env_later 3 2
           RerunDemo.world RerunDemo.first_run RerunDemo.first_run
           H0 H1 H2 H3 H4).
Defined.

(** The lists of the two graph files are the same sets in another order:
    the files themselves differ. *)
Example rerun_order_of_lists :
  main RerunDemo.env_later 3 false 2 RerunDemo.first_run
    = Ok (RerunDemo.later_run, 0)
  ∧ files RerunDemo.first_run !! graph_json 2
    = Some "Coupon:;Yield:Bond;Bond:Yield,Coupon"
  ∧ files RerunDemo.later_run !! graph_json 2
    = Some "Coupon:;Yield:Bond;Bond:Coupon,Yield"
  ∧ files RerunDemo.later_run !! expanded_json 2
    = files RerunDemo.first_run !! expanded_json 2
  ∧ downloads (trace RerunDemo.later_run) = [].
Proof. repeat split; vm_compute; reflexivity. Qed.

(** The same, for a second run started in the world the first run left,
    when no registered path is one of the two output files: the second run
    downloads nothing and rewrites both output files with what they
    hold. *)
Lemma second_run_changes_nothing (E : Env) (fuel : nat) (depth : Z)
    (w w' : World) :
  registry_closed E (seed_registry E w) (files w) →
  (∀ k d, seed_registry E w !! k = Some d →
          path d ≠ expanded_json depth ∧ path d ≠ graph_json depth) →
  main E fuel false depth w = Ok (w', 0) →
  ∃ w'', main E fuel false depth w' = Ok (w'', 0)
         ∧ files w'' = files w'
         ∧ no_downloads w' w''.
Proof.
  intros Hcl Hout Hrun.
  assert (Hself : agree_on (seed_registry E w) (files w) (files w))
    by by intros k d _.
  destruct (main_closed_sim E fuel depth w w w' eq_refl Hcl Hself Hrun)
    as (g & _ & Hw' & _).
  assert (Hne1 : article_json ≠ expanded_json depth).
  { intros H. vm_compute in H. discriminate H. }
  assert (Hne2 : article_json ≠ graph_json depth).
  { intros H. vm_compute in H. discriminate H. }
  assert (Hag : agree_on (seed_registry E w) (files w) (files w')).
  { intros k d Hk. destruct (Hout k d Hk) as [He Hg].
    rewrite Hw'. unfold with_outputs.
    by rewrite !lookup_insert_ne. }
  assert (Hseed : files w !! article_json = files w' !! article_json).
  { rewrite Hw'. unfold with_outputs. by rewrite !lookup_insert_ne. }
  destruct (main_closed_sim E fuel depth w w' w' Hseed Hcl Hag Hrun)
    as (g' & w'' & Hw'2 & _ & Hrun2 & Hw'' & Hq).
  exists w''. split; [done|]. split; [|done].
  rewrite Hw'', Hw'2. unfold with_outputs.
  apply map_eq. intros k. rewrite !lookup_insert.
  by repeat case_decide.
Qed.

(** * Further properties of [build_graph.py] *)

(** ** Lookups and reads *)





(** ** What a call registers *)

Lemma parse_outbound_links_term (E : Env) (content : string)
    (link : OutboundLink) :
  link ∈ parse_outbound_links E content → link.2 = true.
Proof.
  unfold parse_outbound_links. rewrite elem_of_app, !list_elem_of_fmap.
  by intros [(tag & -> & _)|(tag & -> & _)].
Qed.

Lemma explore_related_registered (E : Env) (fuel : nat) (am : registry)
    (a url : string) (t : bool) (depth : Z) (restart : bool) (w w' : World)
    (am' sub : registry) (g : graph) :
  explore_related E fuel am a url t depth restart w = Ok (w', am', sub, g) →
  is_Some (am' !! a)
  ∧ dom g ⊆ dom am'
  ∧ ∀ k d, sub !! k = Some d →
           path d = fresh_article_path (if decide (k = a) then t else true) k.
Proof.
  revert am a url t depth w w' am' sub g.
  induction fuel as [|fuel IH];
    intros am a url t depth w w' am' sub g Hrun; [discriminate|].
  pose proof Hrun as Hrun'.
  apply explore_related_Ok_inv in Hrun
    as (w1 & am1 & sub1 & p & Hdl & Hrest).
  pose proof (explore_related_registry_download E _ _ _ _ _ _ _ _ _ _ _ _ _
                _ _ _ Hrun' Hdl) as Hgrow.
  assert (Ha1 : is_Some (am1 !! a)
                ∧ ∀ k d, sub1 !! k = Some d →
                         path d = fresh_article_path
                                    (if decide (k = a) then t else true) k).
  { destruct (am !! a) as [d|] eqn:Ha.
    - rewrite (download_step_seen E am a url t restart _ d Ha) in Hdl.
      injection Hdl as _ <- <- _. split; [by eauto|].
      intros k d'. by rewrite lookup_empty.
    - rewrite (download_step_unseen E am a url t restart _ Ha) in Hdl.
      injection Hdl as _ <- <- _. split; [by rewrite lookup_insert_eq|].
      intros k d'. rewrite lookup_singleton_Some. intros [<- <-].
      by rewrite decide_True. }
  destruct Ha1 as [[d1 Hd1] Hsub1].
  assert (Ha' : is_Some (am' !! a)).
  { exists d1. by eapply lookup_weaken. }
  split; [done|].
  destruct Hrest as [(_ & _ & -> & -> & ->)|(content & g2 & Hc & Hloop & ->)].
  { split; [by rewrite dom_empty_L|done]. }
  rewrite dom_fmap_L.
  cut (am1 ⊆ am' ∧ dom g2 ⊆ dom am'
       ∧ ∀ k d, sub !! k = Some d →
                path d = fresh_article_path
                           (if decide (k = a) then t else true) k).
  { by intros (_ & ? & ?). }
  destruct (0 <? depth).
  - unfold explore_links in Hloop.
    eapply (for_each_inv
              (λ s : ExploreState,
                 am1 ⊆ s.1.1.2 ∧ dom s.2 ⊆ dom s.1.1.2
                 ∧ ∀ k d, s.1.2 !! k = Some d →
                          path d = fresh_article_path
                                     (if decide (k = a) then t else true) k))
      in Hloop; [exact Hloop| |].
    + intros [[[w2 am2] sub2] g3] [[n l] t'] s' Hin (Hsub & Hdom & Hpaths)
        Hbody. simpl in *.
      apply parse_outbound_links_term in Hin. simpl in Hin. subst t'.
      unfold explore_links_body in Hbody.
      destruct (explore_related E fuel am2 n l true (depth - 1) restart w2)
        as [[[[w3 am3] ss] gs]| |] eqn:Hrec; simpl in Hbody;
        try discriminate.
      injection Hbody as <-. simpl.
      pose proof (explore_related_post E _ _ _ _ _ _ _ _ _ Hrec)
        as (-> & Hd3 & _).
      apply IH in Hrec as (_ & Hdomg & Hpss).
      assert (Hmono : am2 ⊆ ss ∪ am2) by by apply map_union_subseteq_r.
      split; [by etrans|]. split.
      * rewrite merge_graph_dom. apply union_least; [|done].
        etrans; [exact Hdom|]. by apply subseteq_dom.
      * intros k d. rewrite lookup_union_Some_raw.
        intros [Hk|[_ Hk]]; [|by apply Hpaths].
        assert (Hka : k ≠ a).
        { intros ->. assert (Hn : am2 !! a = Some d1)
            by by eapply lookup_weaken.
          by rewrite (map_disjoint_Some_r _ _ _ _ Hd3 Hn) in Hk. }
        rewrite (Hpss k d Hk).
        by destruct (decide (k = n)), (decide (k = a)).
    + simpl. split; [done|]. split; [|done].
      rewrite dom_singleton_L. apply singleton_subseteq_l.
      apply elem_of_dom. eauto.
  - injection Hloop as _ <- <- <-. split; [done|]. split; [|done].
    rewrite dom_singleton_L. apply singleton_subseteq_l.
    apply elem_of_dom. eauto.
Qed.

Lemma loop_registers_links (E : Env) (fuel : nat) (depth : Z)
    (restart : bool) (links : list OutboundLink) (st st' : ExploreState) :
  explore_links E fuel depth restart links st = Ok st' →
  st.1.1.2 ⊆ st'.1.1.2
  ∧ ∀ link : OutboundLink, link ∈ links → is_Some (st'.1.1.2 !! link.1.1).
Proof.
  unfold explore_links. revert st.
  induction links as [|[[n l] t'] links IHl];
    intros [[[w2 am2] sub2] g2] Hrun; simpl in Hrun.
  - injection Hrun as <-. split; [done|]. intros link Hin. inversion Hin.
  - destruct (explore_related E fuel am2 n l t' (depth - 1) restart w2)
      as [[[[w3 am3] ss] gs]| |] eqn:Hrec; simpl in Hrun; try discriminate.
    apply IHl in Hrun as [Hsub Hreg]. simpl in *.
    pose proof (explore_related_post E _ _ _ _ _ _ _ _ _ Hrec)
      as (-> & Hd3 & _).
    apply explore_related_registered in Hrec as ([d Hd] & _).
    split; [etrans; [|exact Hsub]; by apply map_union_subseteq_r|].
    intros link. rewrite elem_of_cons. intros [->|Hin]; [|by apply Hreg].
    exists d. by eapply lookup_weaken.
Qed.

(** X2.  On return from [explore_related] the node itself is registered,
    even when its download failed, and every key of the returned graph
    delta is a key of the registry. *)
Theorem graph_delta_keys_registered (E : Env) (fuel : nat) (am : registry)
    (a url : string) (t : bool) (depth : Z) (restart : bool) (w w' : World)
    (am' sub : registry) (g : graph) :
  explore_related E fuel am a url t depth restart w = Ok (w', am', sub, g) →
  is_Some (am' !! a) ∧ ∀ k, is_Some (g !! k) → is_Some (am' !! k).
Proof.
  intros Hrun. apply explore_related_registered in Hrun as (Ha & Hdom & _).
  split; [done|]. intros k Hk. by apply elem_of_dom, Hdom, elem_of_dom.
Qed.

Lemma graph_delta_keys_registered_witness :
  explore_related Demo.env 3 Demo.seeds "Bond" Demo.url_b true 2 false
    Demo.world = Ok Demo.plain_run
  ∧ is_Some (Demo.plain_run.1.1.2 !! "Bond")
  ∧ ∀ k, is_Some (Demo.plain_run.2 !! k)
         → is_Some (Demo.plain_run.1.1.2 !! k).
Proof.
  assert (H : explore_related Demo.env 3 Demo.seeds "Bond" Demo.url_b true 2
                false Demo.world
              = Ok (Demo.plain_run.1.1.1, Demo.plain_run.1.1.2,
                    Demo.plain_run.1.2, Demo.plain_run.2))
    by (vm_compute; reflexivity).
  split; [exact H|].
  exact (graph_delta_keys_registered _ _ _ _ _ _ _ _ _ _ _ _ _ H).
Defined.

(** X3.  When a node is expanded at a depth above 0 and its content is
    present, every outbound reference listed by the content is registered
    on return, whether or not its own download succeeded. *)
Theorem outbound_references_registered (E : Env) (fuel : nat)
    (am : registry) (a url : string) (t : bool) (depth : Z) (restart : bool)
    (w w' w1 : World) (am' sub am1 sub1 : registry) (g : graph)
    (p content : string) :
  0 < depth →
  explore_related E (S fuel) am a url t depth restart w
    = Ok (w', am', sub, g) →
  download_step E am a url t restart (log (EvCall a depth) w)
    = Ok (w1, am1, sub1, p) →
  files w1 !! p = Some content →
  ∀ link : OutboundLink,
    link ∈ parse_outbound_links E content → is_Some (am' !! link.1.1).
Proof.
  intros Hdepth Hrun Hdl Hc.
  apply explore_related_Ok_inv in Hrun
    as (w1' & am1' & sub1' & p' & Hdl' & Hrest).
  rewrite Hdl in Hdl'. injection Hdl' as <- <- <- <-.
  destruct Hrest as [(Hnone & _)|(content' & g2 & Hc' & Hloop & _)];
    [congruence|].
  rewrite Hc in Hc'. injection Hc' as <-.
  rewrite (proj2 (Z.ltb_lt 0 depth)) in Hloop by done.
  by apply loop_registers_links in Hloop as [_ Hreg].
Qed.

Lemma outbound_references_registered_witness :
  0 < 2
  ∧ explore_related Demo.env 3 Demo.seeds "Bond" Demo.url_b true 2 true
      Demo.world = Ok Demo.forced_run
  ∧ ∀ link : OutboundLink,
      link ∈ parse_outbound_links Demo.env Demo.bond_html
      → is_Some (Demo.forced_run.1.1.2 !! link.1.1).
Proof.
  assert (H0 : 0 < 2) by lia.
  assert (H1 : explore_related Demo.env 3 Demo.seeds "Bond" Demo.url_b true 2
                 true Demo.world
               = Ok (Demo.forced_run.1.1.1, Demo.forced_run.1.1.2,
                     Demo.forced_run.1.2, Demo.forced_run.2))
    by (vm_compute; reflexivity).
  assert (H2 : download_step Demo.env Demo.seeds "Bond" Demo.url_b true true
                 (log (EvCall "Bond" 2) Demo.world)
               = Ok (Demo.forced_download.1.1.1, Demo.forced_download.1.1.2,
                     Demo.forced_download.1.2, Demo.forced_download.2))
    by (vm_compute; reflexivity).
  assert (H3 : files Demo.forced_download.1.1.1 !! Demo.forced_download.2
               = Some Demo.bond_html) by (vm_compute; reflexivity).
  split; [exact H0|]. split; [exact H1|].
  exact (outbound_references_registered _ _ _ _ _ _ _ _ _ _ _ _ _ _ _ _ _ _
           H0 H1 H2 H3).
Defined.

(** ** Files and downloads without [--restart] *)

Lemma map_to_list_disjoint_union {A} (m1 m2 : gmap string A) :
  m1 ##ₘ m2 → map_to_list (m1 ∪ m2) ≡ₚ map_to_list m1 ++ map_to_list m2.
Proof.
  intros Hdisj. apply NoDup_Permutation.
  - apply NoDup_map_to_list.
  - apply NoDup_app. split; [apply NoDup_map_to_list|].
    split; [|apply NoDup_map_to_list].
    intros [k x]. rewrite !elem_of_map_to_list. intros H1 H2.
    by rewrite (map_disjoint_Some_l _ _ _ _ Hdisj H1) in H2.
  - intros [k x]. rewrite elem_of_app, !elem_of_map_to_list.
    rewrite lookup_union_Some by done. tauto.
Qed.

Lemma registry_downloads_union (m1 m2 : registry) :
  m1 ##ₘ m2 →
  registry_downloads (m1 ∪ m2)
  ≡ₚ registry_downloads m1 ++ registry_downloads m2.
Proof.
  intros Hdisj. unfold registry_downloads.
  by rewrite (map_to_list_disjoint_union _ _ Hdisj), fmap_app.
Qed.

Lemma downloads_app (evs1 evs2 : list event) :
  downloads (evs1 ++ evs2) = downloads evs1 ++ downloads evs2.
Proof. apply omap_app. Qed.

Lemma downloads_prints (evs : list event) :
  Forall is_print evs → downloads evs = [].
Proof.
  induction 1 as [|e evs He _ IH]; [done|]. by destruct e.
Qed.

Lemma get_article_keeps_files (E : Env) (url p q : string) (w : World) :
  is_Some (files w !! q) → is_Some (files (get_article E url p w) !! q).
Proof.
  intros Hq. destruct (get_article_files E url p w) as [->|[c ->]]; [done|].
  destruct (decide (p = q)) as [->|Hne].
  - rewrite lookup_insert_eq. eauto.
  - by rewrite lookup_insert_ne.
Qed.

(** Without [restart], a call changes files only at the paths of the
    entries of its registry delta, and its calls of [get_article] are the
    entries of the delta. *)
Lemma explore_related_quiet_delta (E : Env) (fuel : nat) (am : registry)
    (a url : string) (t : bool) (depth : Z) (w w' : World)
    (am' sub : registry) (g : graph) :
  explore_related E fuel am a url t depth false w = Ok (w', am', sub, g) →
  (∀ p, files w' !! p ≠ files w !! p → ∃ k d, sub !! k = Some d ∧ path d = p)
  ∧ ∃ evs, trace w' = trace w ++ evs
           ∧ downloads evs ≡ₚ registry_downloads sub.
Proof.
  revert am a url t depth w w' am' sub g.
  induction fuel as [|fuel IH];
    intros am a url t depth w w' am' sub g Hrun; [discriminate|].
  apply explore_related_Ok_inv in Hrun
    as (w1 & am1 & sub1 & p1 & Hdl & Hrest).
  assert (Hbase :
    am1 = sub1 ∪ am ∧ sub1 ##ₘ am
    ∧ (∀ p, files w1 !! p ≠ files w !! p →
            ∃ k d, sub1 !! k = Some d ∧ path d = p)
    ∧ ∃ evs, trace w1 = trace w ++ evs
             ∧ downloads evs ≡ₚ registry_downloads sub1).
  { destruct (am !! a) as [d|] eqn:Ha.
    - rewrite (download_step_seen E am a url t false _ d Ha) in Hdl.
      injection Hdl as <- <- <- _.
      split; [by rewrite (left_id_L ∅ (∪))|].
      split; [apply map_disjoint_empty_l|]. split; [done|].
      exists [EvCall a depth]. split; [done|].
      unfold registry_downloads. by rewrite map_to_list_empty.
    - rewrite (download_step_unseen E am a url t false _ Ha) in Hdl.
      injection Hdl as <- <- <- _.
      split; [by rewrite insert_union_singleton_l|].
      split; [by apply map_disjoint_singleton_l|]. split.
      + intros p Hp. eexists a, _. rewrite lookup_singleton_eq.
        split; [done|]. simpl. destruct (decide (p = fresh_article_path t a))
          as [->|Hne]; [done|].
        destruct Hp. by rewrite get_article_files_other.
      + destruct (get_article_trace E url (fresh_article_path t a)
                    (log (EvCall a depth) w)) as (evs & -> & Hpr).
        exists (EvCall a depth :: EvGetArticle url (fresh_article_path t a)
                :: evs).
        split; [by simpl; rewrite <- app_assoc|].
        unfold registry_downloads. rewrite map_to_list_singleton. simpl.
        by rewrite (downloads_prints _ Hpr). }
  destruct Hbase as (Ham1 & Hd1 & Hf1 & evs1 & Htr1 & Hdn1).
  destruct Hrest as [(_ & -> & -> & -> & ->)
                    |(content & g2 & Hc & Hloop & ->)].
  { split; [done|].
    exists (evs1 ++ [EvPrint (missing_msg1 p1 a); EvPrint missing_msg2]).
    simpl. rewrite Htr1, <- !app_assoc. split; [done|].
    by rewrite downloads_app, app_nil_r. }
  cut (am' = sub ∪ am ∧ sub ##ₘ am
       ∧ (∀ p, files w' !! p ≠ files w !! p →
               ∃ k d, sub !! k = Some d ∧ path d = p)
       ∧ ∃ evs, trace w' = trace w ++ evs
                ∧ downloads evs ≡ₚ registry_downloads sub).
  { by intros (_ & _ & ? & ?). }
  destruct (0 <? depth);
    [|injection Hloop as <- <- <- _;
      refine (conj Ham1 (conj Hd1 (conj Hf1 _))); eauto].
  unfold explore_links in Hloop.
  eapply (for_each_inv
            (λ s : ExploreState,
               s.1.1.2 = s.1.2 ∪ am ∧ s.1.2 ##ₘ am
               ∧ (∀ p, files s.1.1.1 !! p ≠ files w !! p →
                       ∃ k d, s.1.2 !! k = Some d ∧ path d = p)
               ∧ ∃ evs, trace s.1.1.1 = trace w ++ evs
                        ∧ downloads evs ≡ₚ registry_downloads s.1.2))
    in Hloop;
    [exact Hloop|
    |simpl; refine (conj Ham1 (conj Hd1 (conj Hf1 _))); eauto].
  intros [[[w2 am2] sub2] g3] [[n l] t'] s' _
    (Ham2 & Hd2 & Hf2 & evs2 & Htr2 & Hdn2) Hbody. simpl in *.
  unfold explore_links_body in Hbody.
  destruct (explore_related E fuel am2 n l t' (depth - 1) false w2)
    as [[[[w3 am3] ss] gs]| |] eqn:Hrec; simpl in Hbody; try discriminate.
  injection Hbody as <-. simpl.
  pose proof (explore_related_post E _ _ _ _ _ _ _ _ _ Hrec)
    as (-> & Hd3 & _).
  apply IH in Hrec as (Hf3 & evs3 & Htr3 & Hdn3). subst am2.
  apply map_disjoint_union_r in Hd3 as [Hd3a Hd3b].
  split; [by rewrite (assoc_L (∪))|].
  split; [by apply map_disjoint_union_l|]. split.
  - intros p Hp.
    destruct (decide (files w3 !! p = files w2 !! p)) as [Heq|Hne].
    + rewrite Heq in Hp. destruct (Hf2 p Hp) as (k & d & Hk & Hpath).
      exists k, d. split; [|done]. rewrite lookup_union_r; [done|].
      exact (map_disjoint_Some_r _ _ _ _ Hd3a Hk).
    + destruct (Hf3 p Hne) as (k & d & Hk & Hpath).
      exists k, d. split; [|done]. by apply lookup_union_Some_l.
  - exists (evs2 ++ evs3). rewrite Htr3, Htr2, <- app_assoc.
    split; [done|].
    rewrite downloads_app, Hdn2, Hdn3, (registry_downloads_union _ _ Hd3a).
    apply Permutation_app_comm.
Qed.

(** With or without [restart], a call deletes no file. *)
Lemma explore_related_keeps_files (E : Env) (fuel : nat) (am : registry)
    (a url : string) (t : bool) (depth : Z) (restart : bool) (w w' : World)
    (am' sub : registry) (g : graph) (q : string) :
  explore_related E fuel am a url t depth restart w = Ok (w', am', sub, g) →
  is_Some (files w !! q) → is_Some (files w' !! q).
Proof.
  revert am a url t depth w w' am' sub g.
  induction fuel as [|fuel IH];
    intros am a url t depth w w' am' sub g Hrun Hq; [discriminate|].
  apply explore_related_Ok_inv in Hrun
    as (w1 & am1 & sub1 & p1 & Hdl & Hrest).
  assert (Hq1 : is_Some (files w1 !! q)).
  { destruct (am !! a) as [d|] eqn:Ha.
    - rewrite (download_step_seen E am a url t restart _ d Ha) in Hdl.
      injection Hdl as <- _ _ _.
      destruct restart; [by apply get_article_keeps_files|done].
    - rewrite (download_step_unseen E am a url t restart _ Ha) in Hdl.
      injection Hdl as <- _ _ _. by apply get_article_keeps_files. }
  destruct Hrest as [(_ & -> & _)|(content & g2 & Hc & Hloop & _)]; [done|].
  destruct (0 <? depth); [|by injection Hloop as <- _ _ _].
  unfold explore_links in Hloop.
  eapply (for_each_inv
            (λ s : ExploreState, is_Some (files s.1.1.1 !! q)))
    in Hloop; [exact Hloop| |done].
  intros [[[w2 am2] sub2] g3] [[n l] t'] s' _ Hq2 Hbody. simpl in *.
  unfold explore_links_body in Hbody.
  destruct (explore_related E fuel am2 n l t' (depth - 1) restart w2)
    as [[[[w3 am3] ss] gs]| |] eqn:Hrec; simpl in Hbody; try discriminate.
  injection Hbody as <-. simpl. by eapply IH.
Qed.

(** ** Paths that coincide *)

Lemma append_cons (c : ascii) (s1 s2 : string) :
  String c s1 +:+ s2 = String c (s1 +:+ s2).
Proof. reflexivity. Qed.

Lemma list_ascii_of_append (s1 s2 : string) :
  list_ascii_of_string (s1 +:+ s2)
  = list_ascii_of_string s1 ++ list_ascii_of_string s2.
Proof.
  induction s1 as [|c s1 IH]; [done|].
  rewrite append_cons. cbn [list_ascii_of_string]. by rewrite IH.
Qed.

Lemma append_inv_tail (s1 s2 x : string) : s1 +:+ x = s2 +:+ x → s1 = s2.
Proof.
  intros H. apply (f_equal list_ascii_of_string) in H.
  rewrite !list_ascii_of_append in H. apply app_inv_tail in H.
  apply (f_equal string_of_list_ascii) in H.
  by rewrite !string_of_list_ascii_of_string in H.
Qed.

Lemma str_replace_id (s : string) :
  str_contains "/" s = false → str_replace "/" "-" s = s.
Proof.
  induction s as [|c s IH]; simpl; [done|].
  destruct (Ascii.eqb c "/"); [done|]. simpl. by intros ->%IH.
Qed.

Lemma fresh_article_path_eq_iff (t t' : bool) (a b : string) :
  fresh_article_path t a = fresh_article_path t' b
  ↔ t = t' ∧ str_replace "/" "-" a = str_replace "/" "-" b.
Proof.
  rewrite !fresh_article_path_eq. split.
  - intros H. destruct t, t'; try discriminate H.
    + split; [done|]. apply (String.app_inj "./data/term/") in H.
      by apply append_inv_tail in H.
    + split; [done|]. apply (String.app_inj "./data/article/") in H.
      by apply append_inv_tail in H.
  - by intros [-> ->].
Qed.

(** X4.  Two identifiers are given the same path exactly when they are of
    the same kind and equal once every ["/"] is replaced by ["-"]; so
    identifiers without ["/"] never share a path, while an identifier with
    a ["/"] shares its path with the identifier that has ["-"] in its
    place. *)
Theorem fresh_article_path_collisions (t t' : bool) (a b : string) :
  (fresh_article_path t a = fresh_article_path t' b
   ↔ t = t' ∧ str_replace "/" "-" a = str_replace "/" "-" b)
  ∧ (str_contains "/" a = false → str_contains "/" b = false →
     fresh_article_path t a = fresh_article_path t' b → a = b)
  ∧ fresh_article_path t a = fresh_article_path t (str_replace "/" "-" a).
Proof.
  split; [apply fresh_article_path_eq_iff|]. split.
  - intros Ha Hb H. apply fresh_article_path_eq_iff in H as [_ H].
    by rewrite !str_replace_id in H.
  - apply fresh_article_path_eq_iff. split; [done|].
    symmetry. apply str_replace_id, str_replace_no_sep.
Qed.

Lemma fresh_article_path_collisions_witness :
  str_contains "/" "Bond" = false
  ∧ fresh_article_path true "Bond" = fresh_article_path true "Bond"
  ∧ "Bond" = "Bond"
  ∧ fresh_article_path true "Par/Value" = fresh_article_path true "Par-Value".
Proof.
  assert (H1 : str_contains "/" "Bond" = false) by reflexivity.
  assert (H2 : fresh_article_path true "Bond" = fresh_article_path true "Bond")
    by reflexivity.
  split; [exact H1|]. split; [exact H2|]. split.
  - exact (proj1 (proj2 (fresh_article_path_collisions true true "Bond"
                           "Bond")) H1 H1 H2).
  - exact (proj2 (proj2 (fresh_article_path_collisions true true "Par/Value"
                           "Par-Value"))).
Defined.

(** ** What a run leaves on disk and asks of the site *)

(** X5.  Without [restart], a call of [explore_related] changes a file
    only at the path of an entry of its registry delta, that is, of an
    identifier that was not registered when the call was entered: the
    files of the registered articles, and every other file, keep their
    content unless such a path is theirs. *)
Theorem only_new_articles_are_written (E : Env) (fuel : nat) (am : registry)
    (a url : string) (t : bool) (depth : Z) (w w' : World)
    (am' sub : registry) (g : graph) :
  explore_related E fuel am a url t depth false w = Ok (w', am', sub, g) →
  (∀ p, files w' !! p ≠ files w !! p →
        ∃ k d, sub !! k = Some d ∧ path d = p ∧ am !! k = None)
  ∧ (∀ p, (∀ k d, sub !! k = Some d → path d ≠ p) →
          files w' !! p = files w !! p).
Proof.
  intros Hrun.
  pose proof (explore_related_post E _ _ _ _ _ _ _ _ _ Hrun)
    as (_ & Hdisj & _).
  apply explore_related_quiet_delta in Hrun as [Hf _]. split.
  - intros p Hp. destruct (Hf p Hp) as (k & d & Hk & Hpath).
    exists k, d. split; [done|]. split; [done|].
    by eapply map_disjoint_Some_l.
  - intros p Hp.
    destruct (decide (files w' !! p = files w !! p)) as [|Hne]; [done|].
    destruct (Hf p Hne) as (k & d & Hk & Hpath). by destruct (Hp k d).
Qed.

Lemma only_new_articles_are_written_witness :
  explore_related Demo.env 3 Demo.seeds "Bond" Demo.url_b true 2 false
    Demo.world = Ok Demo.plain_run
  ∧ ∀ p, files Demo.plain_run.1.1.1 !! p ≠ files Demo.world !! p →
         ∃ k d, Demo.plain_run.1.2 !! k = Some d ∧ path d = p
                ∧ Demo.seeds !! k = None.
Proof.
  assert (H : explore_related Demo.env 3 Demo.seeds "Bond" Demo.url_b true 2
                false Demo.world
              = Ok (Demo.plain_run.1.1.1, Demo.plain_run.1.1.2,
                    Demo.plain_run.1.2, Demo.plain_run.2))
    by (vm_compute; reflexivity).
  split; [exact H|].
  exact (proj1 (only_new_articles_are_written _ _ _ _ _ _ _ _ _ _ _ _ H)).
Defined.

(** X6.  With or without [restart], a call of [explore_related] deletes
    no file: every path that exists when the call is entered exists when
    it returns. *)
Theorem no_file_is_deleted (E : Env) (fuel : nat) (am : registry)
    (a url : string) (t : bool) (depth : Z) (restart : bool) (w w' : World)
    (am' sub : registry) (g : graph) :
  explore_related E fuel am a url t depth restart w = Ok (w', am', sub, g) →
  ∀ q, path_exists q w = true → path_exists q w' = true.
Proof.
  intros Hrun q. rewrite !path_exists_true.
  by apply (explore_related_keeps_files E _ _ _ _ _ _ _ _ _ _ _ _ q Hrun).
Qed.

Lemma no_file_is_deleted_witness :
  explore_related Demo.env 3 Demo.seeds "Bond" Demo.url_b true 2 true
    Demo.world = Ok Demo.forced_run
  ∧ ∀ q, path_exists q Demo.world = true
         → path_exists q Demo.forced_run.1.1.1 = true.
Proof.
  assert (H : explore_related Demo.env 3 Demo.seeds "Bond" Demo.url_b true 2
                true Demo.world
              = Ok (Demo.forced_run.1.1.1, Demo.forced_run.1.1.2,
                    Demo.forced_run.1.2, Demo.forced_run.2))
    by (vm_compute; reflexivity).
  split; [exact H|].
  exact (no_file_is_deleted _ _ _ _ _ _ _ _ _ _ _ _ _ H).
Defined.

(** X7.  Without [restart], the calls of [get_article] made during a call
    of [explore_related] are, up to their order, the entries of the
    returned registry delta, each with its recorded link and path: one
    download per identifier seen for the first time, and none for a
    registered identifier, however often it is reached. *)
Theorem one_download_per_new_article (E : Env) (fuel : nat) (am : registry)
    (a url : string) (t : bool) (depth : Z) (w w' : World)
    (am' sub : registry) (g : graph) :
  explore_related E fuel am a url t depth false w = Ok (w', am', sub, g) →
  ∃ evs, trace w' = trace w ++ evs
         ∧ downloads evs ≡ₚ registry_downloads sub
         ∧ length (downloads evs) = size sub.
Proof.
  intros Hrun.
  apply explore_related_quiet_delta in Hrun as (_ & evs & Htr & Hd).
  exists evs. split; [done|]. split; [done|].
  rewrite Hd. unfold registry_downloads.
  by rewrite length_fmap, length_map_to_list.
Qed.

Lemma one_download_per_new_article_witness :
  explore_related Demo.env 3 Demo.seeds "Bond" Demo.url_b true 2 false
    Demo.world = Ok Demo.plain_run
  ∧ ∃ evs, trace Demo.plain_run.1.1.1 = trace Demo.world ++ evs
           ∧ downloads evs ≡ₚ registry_downloads Demo.plain_run.1.2
           ∧ length (downloads evs) = size Demo.plain_run.1.2.
Proof.
  assert (H : explore_related Demo.env 3 Demo.seeds "Bond" Demo.url_b true 2
                false Demo.world
              = Ok (Demo.plain_run.1.1.1, Demo.plain_run.1.1.2,
                    Demo.plain_run.1.2, Demo.plain_run.2))
    by (vm_compute; reflexivity).
  split; [exact H|].
  exact (one_download_per_new_article _ _ _ _ _ _ _ _ _ _ _ _ H).
Defined.

(** Yield is listed twice by Bond and is downloaded once. *)
Example yield_downloaded_once :
  downloads (trace Demo.plain_run.1.1.1)
  = [(Demo.url_y, "./data/term/Yield.html");
     (Demo.url_p, "./data/term/Par-Value.html");
     (Demo.url_c, "./data/term/Coupon.html")].
Proof. vm_compute. reflexivity. Qed.

(** X8.  Every identifier registered through a link is stored under
    [./data/term/], related articles included (both list comprehensions
    tag their links with [True]); only the article of the outermost call
    can go to [./data/article/], when the call is made with
    [is_term = False]. *)
Theorem linked_articles_stored_as_terms (E : Env) (fuel : nat)
    (am : registry) (a url : string) (t : bool) (depth : Z) (restart : bool)
    (w w' : World) (am' sub : registry) (g : graph) :
  explore_related E fuel am a url t depth restart w = Ok (w', am', sub, g) →
  ∀ k d, sub !! k = Some d → k ≠ a ∨ t = true →
         path d = "./data/term/" +:+ str_replace "/" "-" k +:+ ".html".
Proof.
  intros Hrun k d Hk Hcase.
  apply explore_related_registered in Hrun as (_ & _ & Hpaths).
  rewrite (Hpaths k d Hk), fresh_article_path_eq.
  destruct (decide (k = a)) as [->|Hne]; [|done].
  by destruct Hcase as [?| ->].
Qed.

Lemma linked_articles_stored_as_terms_witness :
  explore_related Demo.env 3 Demo.seeds "Bond" Demo.url_b true 2 false
    Demo.world = Ok Demo.plain_run
  ∧ Demo.plain_run.1.2 !! "Par/Value"
    = Some {| path := "./data/term/Par-Value.html"; link := Demo.url_p |}
  ∧ ("Par/Value" ≠ "Bond" ∨ true = true)
  ∧ path {| path := "./data/term/Par-Value.html"; link := Demo.url_p |}
    = "./data/term/" +:+ str_replace "/" "-" "Par/Value" +:+ ".html".
Proof.
  assert (H1 : explore_related Demo.env 3 Demo.seeds "Bond" Demo.url_b true 2
                 false Demo.world
               = Ok (Demo.plain_run.1.1.1, Demo.plain_run.1.1.2,
                     Demo.plain_run.1.2, Demo.plain_run.2))
    by (vm_compute; reflexivity).
  assert (H2 : Demo.plain_run.1.2 !! "Par/Value"
               = Some {| path := "./data/term/Par-Value.html";
                         link := Demo.url_p |})
    by (vm_compute; reflexivity).
  assert (H3 : "Par/Value" ≠ "Bond" ∨ true = true) by (right; reflexivity).
  split; [exact H1|]. split; [exact H2|]. split; [exact H3|].
  exact (linked_articles_stored_as_terms _ _ _ _ _ _ _ _ _ _ _ _ _ H1
           _ _ H2 H3).
Defined.

Lemma get_article_failed (E : Env) (url p : string) (w : World) :
  status_code (requests_get E (trace w) url) ≠ 200 →
  get_article E url p w
  = print ("Request returned "
           +:+ str_of_int (status_code (requests_get E (trace w) url))
           +:+ " status code for " +:+ url)
      (log (EvGetArticle url p) w).
Proof.
  intros Hs. unfold get_article.
  by rewrite (proj2 (Z.eqb_neq _ _) Hs).
Qed.

(** X9.  A forced re-download that fails keeps the old copy: under
    [restart], when the article is registered, its file exists and the
    site does not answer 200, the download step leaves every file as it
    was, and the edges of the node are read from the old content. *)
Theorem failed_refetch_keeps_old_copy (E : Env) (fuel : nat) (am : registry)
    (a url : string) (t : bool) (depth : Z) (w w' : World)
    (am' sub : registry) (g : graph) (d : ArticleData) (c : string) :
  am !! a = Some d →
  files w !! path d = Some c →
  status_code (requests_get E (trace (log (EvCall a depth) w)) url) ≠ 200 →
  explore_related E (S fuel) am a url t depth true w
    = Ok (w', am', sub, g) →
  (∃ w1, download_step E am a url t true (log (EvCall a depth) w)
         = Ok (w1, am, ∅, path d)
         ∧ files w1 = files w)
  ∧ ∀ x, x ∈ link_names (parse_outbound_links E c) → x ∈ edges g a.
Proof.
  intros Ha Hc Hstatus Hrun.
  pose proof (download_step_seen E am a url t true (log (EvCall a depth) w)
                d Ha) as Hdl.
  cbn [andb] in Hdl.
  rewrite (get_article_failed E url (path d) _ Hstatus) in Hdl.
  split; [by eexists|].
  intros x Hx.
  apply (explore_related_edges E _ _ _ _ _ _ _ _ _ _ _ _ _ _ _ _ c a x
           Hrun Hdl); [done|]. by left.
Qed.

Lemma failed_refetch_keeps_old_copy_witness :
  Demo.seeds !! "Bond" = Some Demo.bond
  ∧ files Demo.world !! path Demo.bond = Some Demo.bond_html
  ∧ status_code (requests_get Demo.env
                   (trace (log (EvCall "Bond" 0) Demo.world))
                   "https://x/moved.asp") ≠ 200
  ∧ explore_related Demo.env 1 Demo.seeds "Bond" "https://x/moved.asp" true
      0 true Demo.world = Ok Demo.forced_leaf_run
  ∧ ∀ x, x ∈ link_names (parse_outbound_links Demo.env Demo.bond_html)
         → x ∈ edges Demo.forced_leaf_run.2 "Bond".
Proof.
  assert (H1 : Demo.seeds !! "Bond" = Some Demo.bond)
    by (vm_compute; reflexivity).
  assert (H2 : files Demo.world !! path Demo.bond = Some Demo.bond_html)
    by (vm_compute; reflexivity).
  assert (H3 : status_code (requests_get Demo.env
                              (trace (log (EvCall "Bond" 0) Demo.world))
                              "https://x/moved.asp") ≠ 200)
    by (vm_compute; discriminate).
  assert (H4 : explore_related Demo.env 1 Demo.seeds "Bond"
                 "https://x/moved.asp" true 0 true Demo.world
               = Ok (Demo.forced_leaf_run.1.1.1, Demo.forced_leaf_run.1.1.2,
                     Demo.forced_leaf_run.1.2, Demo.forced_leaf_run.2))
    by (vm_compute; reflexivity).
  split; [exact H1|]. split; [exact H2|]. split; [exact H3|].
  split; [exact H4|].
  exact (proj2 (failed_refetch_keeps_old_copy _ _ _ _ _ _ _ _ _ _ _ _ _ _
                  H1 H2 H3 H4)).
Defined.

(** ** Merging several deltas *)

(** X10.  Merging the graph deltas of two calls one after the other is
    the same as merging their merge, and the order of the two only shows
    in the order of the lists: every key gets the same edges either way. *)
Theorem merge_graph_assoc_comm (g d1 d2 : graph) :
  merge_graph (merge_graph g d1) d2 = merge_graph g (merge_graph d1 d2)
  ∧ dom (merge_graph (merge_graph g d1) d2)
    = dom (merge_graph (merge_graph g d2) d1)
  ∧ ∀ k, edges (merge_graph (merge_graph g d1) d2) k
         ≡ₚ edges (merge_graph (merge_graph g d2) d1) k.
Proof.
  split; [|split].
  - apply map_eq. intros k. rewrite !merge_graph_lookup.
    destruct (g !! k), (d1 !! k), (d2 !! k); simpl; try done.
    unfold concat_edges. by rewrite app_assoc.
  - rewrite !merge_graph_dom. set_solver.
  - intros k. unfold edges. rewrite !merge_graph_lookup.
    destruct (g !! k) as [o|], (d1 !! k) as [l1|], (d2 !! k) as [l2|];
      simpl; try done.
    + rewrite <- !app_assoc. apply Permutation_app_head, Permutation_app_comm.
    + apply Permutation_app_comm.
Qed.

(** ** What the driver writes *)

Lemma traverse_registry (E : Env) (fuel : nat) (am : registry)
    (seeds : list string) (depth : Z) (restart : bool) (w w' : World)
    (em : registry) (g : graph) :
  (∀ s, s ∈ seeds → is_Some (am !! s)) →
  traverse E fuel am seeds depth restart w = Ok (w', em, g) →
  am ⊆ em ∧ dom am ⊆ dom g ∧ dom g ⊆ dom em
  ∧ ∀ k d, em !! k = Some d →
           am !! k = Some d ∨ path d = fresh_article_path true k.
Proof.
  intros Hseeds Hrun. unfold traverse in Hrun.
  eapply (for_each_inv
            (λ s : MainState,
               am ⊆ s.1.2 ∧ dom am ⊆ dom s.2 ∧ dom s.2 ⊆ dom s.1.2
               ∧ ∀ k d, s.1.2 !! k = Some d →
                        am !! k = Some d
                        ∨ path d = fresh_article_path true k))
    in Hrun; [exact Hrun| |].
  - intros [[w2 em2] g2] s s' Hs (Hsub & Hdoma & Hdomg & Hpaths) Hbody.
    destruct (Hseeds s Hs) as [d Hd].
    rewrite (main_loop_body_seed E _ _ _ _ _ _ _ _ d Hd) in Hbody.
    cbn [fst snd] in *.
    destruct (negb _); [by injection Hbody as <-|].
    destruct (explore_related E fuel em2 s (link d) true depth restart w2)
      as [[[[w3 em3] sub] gs]| |] eqn:Hrec; simpl in Hbody;
      try discriminate.
    injection Hbody as <-. simpl.
    pose proof (explore_related_post E _ _ _ _ _ _ _ _ _ Hrec)
      as (-> & Hd3 & _).
    apply explore_related_registered in Hrec as (_ & Hdomgs & Hpsub).
    rewrite (assoc_L (∪)), (idemp_L (∪)).
    assert (Hmono : em2 ⊆ sub ∪ em2) by by apply map_union_subseteq_r.
    split; [by etrans|]. rewrite merge_graph_dom.
    split; [set_solver|]. split.
    + apply union_least; [|done]. etrans; [exact Hdomg|].
      by apply subseteq_dom.
    + intros k d'. rewrite lookup_union_Some_raw.
      intros [Hk|[_ Hk]]; [|by apply Hpaths].
      right. rewrite (Hpsub k d' Hk). by destruct (decide (k = s)).
  - simpl. rewrite dom_fmap_L. split; [done|]. split; [done|].
    split; [done|]. by left.
Qed.

(** X11.  What [main] writes on completion: the registry it writes
    extends the seed registry without changing a seed entry, every entry
    it adds has its path under [./data/term/], every seed is a key of the
    graph it writes, and every key of that graph is a key of the
    registry. *)
Theorem driver_outputs_consistent (E : Env) (fuel : nat) (restart : bool)
    (depth : Z) (w w' : World) :
  main E fuel restart depth w = Ok (w', 0) →
  ∃ em g w2,
    files w' = with_outputs E depth em g (files w2)
    ∧ seed_registry E w ⊆ em
    ∧ dom (seed_registry E w) ⊆ dom g
    ∧ dom g ⊆ dom em
    ∧ ∀ k d, em !! k = Some d →
             seed_registry E w !! k = Some d
             ∨ path d = "./data/term/" +:+ str_replace "/" "-" k +:+ ".html".
Proof.
  intros Hrun. unfold seed_registry.
  destruct (files w !! article_json) as [content|] eqn:Hc.
  - rewrite (main_seed_present E _ _ _ _ content Hc) in Hrun.
    cbn zeta in Hrun.
    destruct (traverse E fuel _ _ depth restart w) as [[[w2 em] g]| |]
      eqn:Htr; simpl in Hrun; try discriminate.
    injection Hrun as <-.
    apply traverse_registry in Htr as (Hsub & Hdoma & Hdomg & Hpaths);
      [|apply keys_of_pairs_registered].
    exists em, (list_set E <$> g), w2. rewrite dom_fmap_L.
    split; [done|]. split; [done|]. split; [done|]. split; [done|].
    intros k d Hk. destruct (Hpaths k d Hk) as [?|Hp]; [by left|right].
    by rewrite Hp, fresh_article_path_eq.
  - rewrite (main_seed_absent E _ _ _ _ Hc) in Hrun. discriminate.
Qed.

Lemma driver_outputs_consistent_witness :
  main Demo.env 3 false 2 Demo.closed_world = Ok (Demo.closed_main_run, 0)
  ∧ ∃ em g w2,
      files Demo.closed_main_run = with_outputs Demo.env 2 em g (files w2)
      ∧ seed_registry Demo.env Demo.closed_world ⊆ em
      ∧ dom (seed_registry Demo.env Demo.closed_world) ⊆ dom g
      ∧ dom g ⊆ dom em
      ∧ ∀ k d, em !! k = Some d →
               seed_registry Demo.env Demo.closed_world !! k = Some d
               ∨ path d = "./data/term/" +:+ str_replace "/" "-" k
                          +:+ ".html".
Proof.
  assert (H : main Demo.env 3 false 2 Demo.closed_world
              = Ok (Demo.closed_main_run, 0)) by (vm_compute; reflexivity).
  split; [exact H|].
  exact (driver_outputs_consistent Demo.env 3 false 2 Demo.closed_world
           Demo.closed_main_run H).
Defined.


(** * Properties of [download.py] *)

(** ** The matcher *)

Lemma strip_prefix_Some (l s s' : string) :
  strip_prefix l s = Some s' ↔ s = l +:+ s'.
Proof.
  revert s. induction l as [|a l IH]; intros s; simpl.
  - split; [by intros [= ->]|by intros ->].
  - destruct s as [|b s]; [by split|].
    rewrite append_cons. destruct (Ascii.eqb_spec a b) as [->|Hne].
    + rewrite IH. split; [by intros ->|by intros [= ->]].
    + split; [done|]. intros [= Hab _]. by destruct Hne.
Qed.

Lemma length_append (s1 s2 : string) :
  String.length (s1 +:+ s2) = (String.length s1 + String.length s2)%nat.
Proof.
  induction s1 as [|c s1 IH]; [done|]. rewrite append_cons. simpl.
  by rewrite IH.
Qed.

Lemma str_take_append (s1 s2 : string) :
  str_take (String.length s1) (s1 +:+ s2) = s1.
Proof.
  induction s1 as [|c s1 IH]; [by destruct s2|].
  rewrite append_cons. simpl. by rewrite IH.
Qed.

Lemma consumed_append (s1 s2 : string) : consumed (s1 +:+ s2) s2 = s1.
Proof.
  unfold consumed. rewrite length_append.
  replace (String.length s1 + String.length s2 - String.length s2)%nat
    with (String.length s1) by lia.
  apply str_take_append.
Qed.

Lemma at_end_spec (s : string) :
  at_end s = true ↔ s = "" ∨ s = String "010" "".
Proof.
  unfold at_end. rewrite orb_true_iff, !String.eqb_eq. tauto.
Qed.

(** A greedy repetition that succeeds has split the string into a run of
    the class and a rest on which the continuation succeeds. *)
Lemma star_greedy_sound {A} (cls : ascii → bool) (s : string)
    (k : string → option A) (r : A) :
  star_greedy cls s k = Some r →
  ∃ s1 s2, s = s1 +:+ s2 ∧ str_forall cls s1 = true ∧ k s2 = Some r.
Proof.
  induction s as [|c s IH]; simpl.
  - intros Hk. by exists "", "".
  - destruct (cls c) eqn:Hc; [|by intros Hk; exists "", (String c s)].
    destruct (star_greedy cls s k) as [r'|] eqn:Hrec.
    + intros [= ->]. destruct (IH eq_refl) as (s1 & s2 & -> & Hall & Hk).
      exists (String c s1), s2. rewrite append_cons. simpl.
      by rewrite Hc, Hall.
    + intros Hk. by exists "", (String c s).
Qed.

Lemma plus_greedy_sound {A} (cls : ascii → bool) (s : string)
    (k : string → option A) (r : A) :
  plus_greedy cls s k = Some r →
  ∃ s1 s2, s = s1 +:+ s2 ∧ s1 ≠ "" ∧ str_forall cls s1 = true
           ∧ k s2 = Some r.
Proof.
  destruct s as [|c s]; simpl; [done|].
  destruct (cls c) eqn:Hc; [|done].
  intros (s1 & s2 & -> & Hall & Hk)%star_greedy_sound.
  exists (String c s1), s2. rewrite append_cons. simpl.
  by rewrite Hc, Hall.
Qed.

(** It succeeds as soon as some such split exists. *)
Lemma star_greedy_complete {A} (cls : ascii → bool) (s1 s2 : string)
    (k : string → option A) :
  str_forall cls s1 = true → is_Some (k s2) →
  is_Some (star_greedy cls (s1 +:+ s2) k).
Proof.
  induction s1 as [|c s1 IH]; simpl.
  - intros _ Hk. destruct s2 as [|c s2]; simpl; [done|].
    destruct (cls c); [|done]. by destruct (star_greedy cls s2 k).
  - rewrite andb_true_iff. intros [Hc Hall] Hk.
    rewrite ?append_cons. simpl. rewrite Hc.
    destruct (IH Hall Hk) as [r ->]. eauto.
Qed.

Lemma plus_greedy_complete {A} (cls : ascii → bool) (s1 s2 : string)
    (k : string → option A) :
  s1 ≠ "" → str_forall cls s1 = true → is_Some (k s2) →
  is_Some (plus_greedy cls (s1 +:+ s2) k).
Proof.
  destruct s1 as [|c s1]; [done|]. intros _. simpl.
  rewrite andb_true_iff. intros [Hc Hall] Hk.
  rewrite ?append_cons. simpl. rewrite Hc.
  by apply star_greedy_complete.
Qed.

Lemma str_forall_not_sep (s : string) :
  str_forall not_sep s = negb (str_contains "/" s).
Proof.
  induction s as [|c s IH]; simpl; [done|]. rewrite IH. unfold not_sep.
  by destruct (Ascii.eqb c "/").
Qed.

(** ** The pattern for article links *)

Lemma article_match_sound (s name : string) :
  rmatch article_pattern s None (λ _ grp, Some (default "" grp)) = Some name →
  ∃ tail, s = "/" +:+ name +:+ ".asp" +:+ tail
          ∧ (tail = "" ∨ tail = String "010" "")
          ∧ name ≠ "" ∧ str_contains "/" name = false.
Proof.
  unfold article_pattern. cbn [rmatch].
  destruct (strip_prefix "/" s) as [s1|] eqn:Hs; [|done].
  apply strip_prefix_Some in Hs as ->.
  intros (n & s2 & -> & Hn & Hall & Hk)%plus_greedy_sound.
  destruct (strip_prefix ".asp" s2) as [s3|] eqn:Hs2; [|done].
  apply strip_prefix_Some in Hs2 as ->.
  destruct (at_end s3) eqn:Hend; [|done].
  apply at_end_spec in Hend. rewrite consumed_append in Hk.
  injection Hk as <-. exists s3.
  rewrite str_forall_not_sep in Hall. apply negb_true_iff in Hall.
  done.
Qed.

Lemma re_search_unfold (r : regex) (s : string) :
  re_search r s
  = match rmatch r s None (λ _ grp, Some (default "" grp)) with
    | Some name => Some name
    | None =>
        match s with
        | String _ s' => re_search r s'
        | EmptyString => None
        end
    end.
Proof. by destruct s. Qed.

(** A match at some position is found, or hidden by an earlier one. *)
Lemma re_search_is_Some (r : regex) (pre s : string) :
  is_Some (rmatch r s None (λ _ grp, Some (default "" grp))) →
  is_Some (re_search r (pre +:+ s)).
Proof.
  intros Hs. induction pre as [|c pre IH].
  - change ("" +:+ s) with s. rewrite re_search_unfold.
    destruct Hs as [n ->]. eauto.
  - rewrite append_cons, re_search_unfold.
    destruct (rmatch r (String c _) _ _); [eauto|exact IH].
Qed.

Lemma re_search_article_sound (article_link name : string) :
  re_search article_pattern article_link = Some name →
  names_article article_link name.
Proof.
  induction article_link as [|c s IH]; rewrite re_search_unfold.
  - destruct (rmatch _ _ _ _) as [n|] eqn:Hm; [|done]. intros [= ->].
    apply article_match_sound in Hm as (tail & Hs & _). discriminate Hs.
  - destruct (rmatch _ _ _ _) as [n|] eqn:Hm.
    + intros [= ->].
      apply article_match_sound in Hm as (tail & Hs & Htail & Hn & Hsep).
      exists "", tail. by rewrite Hs.
    + intros (pre & tail & -> & Htail & Hn & Hsep)%IH.
      by exists (String c pre), tail.
Qed.

Lemma article_match_complete (name tail : string) :
  name ≠ "" → str_contains "/" name = false →
  tail = "" ∨ tail = String "010" "" →
  is_Some (rmatch article_pattern ("/" +:+ name +:+ ".asp" +:+ tail) None
             (λ _ grp, Some (default "" grp))).
Proof.
  intros Hn Hsep Htail. unfold article_pattern. cbn [rmatch].
  rewrite (proj2 (strip_prefix_Some "/" _ (name +:+ ".asp" +:+ tail)))
    by done.
  apply plus_greedy_complete; [done| |].
  - by rewrite str_forall_not_sep, Hsep.
  - rewrite (proj2 (strip_prefix_Some ".asp" _ tail)) by done.
    rewrite (proj2 (at_end_spec tail)) by done. eauto.
Qed.

Lemma str_contains_elem_of (c : ascii) (s : string) :
  str_contains c s = true ↔ c ∈ list_ascii_of_string s.
Proof.
  induction s as [|a s IH]; simpl.
  - split; [done|]. by intros ?%elem_of_nil.
  - rewrite orb_true_iff, elem_of_cons, IH.
    destruct (Ascii.eqb_spec a c) as [->|Hne]; [tauto|].
    split; [intros [?|?]; [done|tauto]|].
    intros [->|?]; [done|tauto].
Qed.

(** The text after the last occurrence of a character is determined by
    the whole. *)
Lemma after_last_unique (c : ascii) (p1 p2 r1 r2 : list ascii) :
  c ∉ r1 → c ∉ r2 → p1 ++ c :: r1 = p2 ++ c :: r2 → r1 = r2.
Proof.
  intros H1 H2. revert p2.
  induction p1 as [|a p1 IH]; intros [|b p2]; simpl.
  - by intros [= ->].
  - intros [= <- ->]. destruct H1. set_solver.
  - intros [= -> <-]. destruct H2. set_solver.
  - intros [= _ H]. by eapply IH.
Qed.

Lemma names_article_unique (article_link n1 n2 : string) :
  names_article article_link n1 → names_article article_link n2 → n1 = n2.
Proof.
  intros (p1 & t1 & -> & Ht1 & _ & Hs1) (p2 & t2 & Heq & Ht2 & _ & Hs2).
  apply (f_equal list_ascii_of_string) in Heq.
  rewrite !list_ascii_of_append in Heq.
  change (list_ascii_of_string "/") with ["/"%char] in Heq.
  simpl in Heq.
  assert (Hno : ∀ n t : string,
            str_contains "/" n = false → t = "" ∨ t = String "010" "" →
            "/"%char ∉ list_ascii_of_string n
                        ++ list_ascii_of_string ".asp"
                        ++ list_ascii_of_string t).
  { intros n t Hn Ht. rewrite !elem_of_app, <- !str_contains_elem_of, Hn.
    destruct Ht as [->| ->]; simpl; intros [?|[?|?]]; done. }
  apply after_last_unique in Heq; [|by apply Hno..].
  cut (list_ascii_of_string n1 = list_ascii_of_string n2).
  { intros H. apply (f_equal string_of_list_ascii) in H.
    by rewrite !string_of_list_ascii_of_string in H. }
  destruct Ht1 as [->| ->], Ht2 as [->| ->]; simpl in Heq.
  - by apply app_inv_tail in Heq.
  - apply (f_equal reverse) in Heq. rewrite !reverse_app in Heq.
    discriminate Heq.
  - apply (f_equal reverse) in Heq. rewrite !reverse_app in Heq.
    discriminate Heq.
  - by apply app_inv_tail in Heq.
Qed.

Lemma re_search_article_complete (article_link name : string) :
  names_article article_link name →
  re_search article_pattern article_link = Some name.
Proof.
  intros Hna. pose proof Hna as (pre & tail & -> & Htail & Hn & Hsep).
  destruct (re_search_is_Some article_pattern pre
              ("/" +:+ name +:+ ".asp" +:+ tail)) as [n Hre].
  { by apply article_match_complete. }
  rewrite Hre. f_equal.
  eapply names_article_unique; [|exact Hna].
  by apply re_search_article_sound.
Qed.

(** X12.  [re.search(article_pattern, link)] succeeds with
    [match.group(1) = name] exactly when [link] ends with [/name.asp],
    possibly followed by one newline, for a non-empty [name] without
    ["/"]: the keys of [article_map] are such names, and a link of any
    other form is skipped. *)
Theorem article_pattern_characterised (article_link name : string) :
  re_search article_pattern article_link = Some name
  ↔ names_article article_link name.
Proof.
  split; [apply re_search_article_sound|apply re_search_article_complete].
Qed.

Example article_pattern_examples :
  re_search article_pattern "https://www.investopedia.com/terms/b/bond.asp"
  = Some "bond"
  ∧ re_search article_pattern "https://www.investopedia.com/about-us" = None
  ∧ re_search article_pattern "/terms/b/bond.aspx" = None
  ∧ re_search article_pattern "/a.asp/b.asp.asp" = Some "b.asp".
Proof. by vm_compute. Qed.

(** ** The loops of [main] *)

Lemma category_names_eq :
  category_names
  = ["num"; "a"; "b"; "c"; "d"; "e"; "f"; "g"; "h"; "i"; "j"; "k"; "l";
     "m"; "n"; "o"; "p"; "q"; "r"; "s"; "t"; "u"; "v"; "w"; "x"; "y"; "z"].
Proof. by vm_compute. Qed.

Lemma category_names_elem (page cat : string) :
  page ∈ category_pages → re_search category_pattern page = Some cat →
  cat ∈ category_names.
Proof.
  intros Hp Hre. unfold category_names. rewrite list_elem_of_omap. eauto.
Qed.

(** The path of an article in the folder of one of the categories. *)
Lemma category_article_path (cat name : string) :
  cat ∈ category_names → name ≠ "" → str_contains "/" name = false →
  os_path_join (os_path_join root_dir cat) (name +:+ ".html")
  = "./data/" +:+ cat +:+ "/" +:+ name +:+ ".html".
Proof.
  intros Hcat Hn Hsep. destruct name as [|c name]; [done|].
  simpl in Hsep. apply orb_false_iff in Hsep as [Hc _].
  rewrite category_names_eq in Hcat.
  unfold os_path_join at 1. rewrite append_cons. cbn [startswith_sep].
  rewrite Hc.
  repeat (apply elem_of_cons in Hcat as [->|Hcat]; [reflexivity|]).
  by apply elem_of_nil in Hcat.
Qed.

Section SeedInvariant.
Context (E : Env) (find_dictionary_links : string → list string).
Context (restart : bool) (pages : list string).

Lemma seed_step_refl (w : World) : seed_step restart pages w w.
Proof.
  refine (conj _ (conj _ (conj _ _))); try done.
  exists []. rewrite app_nil_r. split; [done|]. by intros l p ?%elem_of_nil.
Qed.

Lemma seed_step_trans (w0 w1 w2 : World) :
  seed_step restart pages w0 w1 → seed_step restart pages w1 w2 →
  seed_step restart pages w0 w2.
Proof.
  intros ((evs1 & Ht1 & Hd1) & Ho1 & Hk1 & Hr1)
         ((evs2 & Ht2 & Hd2) & Ho2 & Hk2 & Hr2).
  refine (conj _ (conj _ (conj _ _))).
  - exists (evs1 ++ evs2). rewrite Ht2, Ht1, app_assoc. split; [done|].
    intros l p. rewrite downloads_app, elem_of_app. intros [Hin|Hin].
    + exact (Hd1 l p Hin).
    + destruct (Hd2 l p Hin) as [Hsp Hnone]. split; [done|].
      intros Hr. specialize (Hnone Hr). apply eq_None_not_Some.
      intros Hsome%Hk1. by rewrite Hnone in Hsome; destruct Hsome.
  - intros p Hp. by rewrite Ho2, Ho1.
  - intros p Hp. by apply Hk2, Hk1.
  - intros Hr p c Hp. by apply Hr2, Hr1.
Qed.

Lemma seed_step_print (msg : string) (w : World) :
  seed_step restart pages w (print msg w).
Proof.
  refine (conj _ (conj _ (conj _ _))); try done.
  exists [EvPrint msg]. split; [done|]. by intros l p ?%elem_of_nil.
Qed.

Lemma seed_step_get_article (url p : string) (w : World) :
  seed_path pages p → (restart = false → files w !! p = None) →
  seed_step restart pages w (get_article E url p w).
Proof.
  intros Hsp Hnone. refine (conj _ (conj _ (conj _ _))).
  - destruct (get_article_trace E url p w) as (evs & Ht & Hpr).
    exists (EvGetArticle url p :: evs). split; [done|].
    intros l q.
    change (EvGetArticle url p :: evs) with ([EvGetArticle url p] ++ evs).
    rewrite downloads_app, (downloads_prints evs Hpr), app_nil_r.
    by intros [= -> ->]%list_elem_of_singleton.
  - intros q Hq. apply get_article_files_other. by intros ->.
  - intros q. apply get_article_keeps_files.
  - intros Hr q c Hq. rewrite get_article_files_other; [done|].
    intros ->. by rewrite (Hnone Hr) in Hq.
Qed.

Lemma download_article_inv (page cat article_link : string) (w0 w : World)
    (article_map : registry) :
  page ∈ pages → re_search category_pattern page = Some cat →
  seed_entries pages article_map → seed_step restart pages w0 w →
  seed_entries pages
    (download_article E restart (os_path_join root_dir cat) (w, article_map)
       article_link).2
  ∧ seed_step restart pages w0
      (download_article E restart (os_path_join root_dir cat)
         (w, article_map) article_link).1.
Proof.
  intros Hpage Hcat Hent Hstep. unfold download_article.
  destruct (re_search article_pattern article_link) as [name|] eqn:Hre.
  - pose proof (re_search_article_sound _ _ Hre) as Hna.
    pose proof Hna as (pre & tail & _ & _ & Hn & Hsep).
    set (file_path := os_path_join (os_path_join root_dir cat)
                        (name +:+ ".html")).
    assert (Hsp : seed_path pages file_path) by (by exists page, cat, name).
    assert (Hent' : seed_entries pages
              (<[name := {| path := file_path; link := article_link |}]>
                 article_map)).
    { intros k d [[<- <-]|[_ Hk]]%lookup_insert_Some; [|by apply Hent].
      split; [done|]. by exists page, cat. }
    destruct (restart || negb (path_exists file_path w))%bool eqn:Hdl.
    + split; [done|]. apply (seed_step_trans _ w); [done|].
      apply seed_step_get_article; [done|]. intros ->.
      simpl in Hdl. apply negb_true_iff in Hdl.
      by apply path_exists_false.
    + done.
  - split; [done|]. apply (seed_step_trans _ w); [done|].
    apply seed_step_print.
Qed.

Lemma download_articles_inv (page cat : string) (article_links : list string)
    (w0 : World) (st : World * registry) :
  page ∈ pages → re_search category_pattern page = Some cat →
  seed_entries pages st.2 → seed_step restart pages w0 st.1 →
  seed_entries pages
    (foldl (download_article E restart (os_path_join root_dir cat)) st
       article_links).2
  ∧ seed_step restart pages w0
      (foldl (download_article E restart (os_path_join root_dir cat)) st
         article_links).1.
Proof.
  intros Hpage Hcat. revert st.
  induction article_links as [|l ls IH]; intros [w am] Hent Hstep; [done|].
  cbn [foldl]. simpl in Hent, Hstep.
  destruct (download_article_inv page cat l w0 w am) as [Hent' Hstep'];
    [done..|].
  by apply IH.
Qed.

Lemma download_category_inv (page : string) (w0 : World)
    (st : World * registry) :
  page ∈ pages →
  seed_entries pages st.2 → seed_step restart pages w0 st.1 →
  seed_entries pages
    (download_category E find_dictionary_links restart st page).2
  ∧ seed_step restart pages w0
      (download_category E find_dictionary_links restart st page).1.
Proof.
  intros Hpage. destruct st as [w am]. simpl. intros Hent Hstep.
  unfold download_category.
  destruct (re_search category_pattern page) as [cat|] eqn:Hcat.
  - set (w1 := print _ w).
    assert (Hstep1 : seed_step restart pages w0 w1).
    { apply (seed_step_trans _ w); [done|]. apply seed_step_print. }
    unfold get_articles_from_term_page.
    destruct (negb _).
    + simpl. split; [done|]. apply (seed_step_trans _ w1); [done|].
      apply seed_step_print.
    + destruct (length _ =? 0)%nat; [done|].
      by apply (download_articles_inv page cat).
  - simpl. split; [done|]. apply (seed_step_trans _ w); [done|].
    apply seed_step_print.
Qed.

Lemma download_categories_inv (ps : list string) (w0 : World)
    (st : World * registry) :
  (∀ page, page ∈ ps → page ∈ pages) →
  seed_entries pages st.2 → seed_step restart pages w0 st.1 →
  seed_entries pages
    (foldl (download_category E find_dictionary_links restart) st ps).2
  ∧ seed_step restart pages w0
      (foldl (download_category E find_dictionary_links restart) st ps).1.
Proof.
  revert st. induction ps as [|page ps IH]; intros st Hps Hent Hstep; [done|].
  cbn [foldl].
  destruct (download_category_inv page w0 st) as [Hent' Hstep'];
    [set_solver|done..|].
  apply IH; [set_solver|done..].
Qed.

End SeedInvariant.

(** What [main] has done when it reaches [exit(0)]. *)
Lemma download_pages_inv (E : Env) (fdl : string → list string)
    (restart : bool) (pages : list string) (w w' : World)
    (article_map : registry) (code : Z) :
  download_pages E fdl restart pages w = (w', article_map, code) →
  code = 0
  ∧ seed_entries pages article_map
  ∧ ∃ w1, seed_step restart pages w w1
          ∧ w' = write_file seed_map_json
                   (json_dump_registry E article_map) w1.
Proof.
  unfold download_pages.
  destruct (foldl _ _ _) as [w1 am] eqn:Hfold. intros [= <- <- <-].
  destruct (download_categories_inv E fdl restart pages pages w (w, ∅))
    as [Hent Hstep]; [done|by intros k d ?|apply seed_step_refl|].
  rewrite Hfold in Hent, Hstep. split; [done|]. split; [done|]. by exists w1.
Qed.

(** A category whose page is not served adds two printed lines and
    nothing else. *)
Lemma download_category_failed (E : Env) (fdl : string → list string)
    (restart : bool) (page : string) (w : World) (article_map : registry) :
  (∀ history, status_code (requests_get E history (base_url +:+ page)) ≠ 200) →
  ∃ evs, download_category E fdl restart (w, article_map) page
         = ({| files := files w; trace := trace w ++ evs |}, article_map)
         ∧ Forall is_print evs.
Proof.
  intros Hfail. unfold download_category.
  destruct (re_search category_pattern page) as [cat|].
  - unfold get_articles_from_term_page.
    destruct (Z.eqb_spec
                (status_code
                   (requests_get E
                      (trace (print ("Processing articles in " +:+ cat
                                     +:+ " category") w))
                      (base_url +:+ page))) 200) as [Heq|Hne].
    { by destruct (Hfail _ Heq). }
    cbn [negb length Nat.eqb]. eexists [_; _]. split.
    + unfold print, log. cbn [files trace]. by rewrite <- app_assoc.
    + repeat constructor.
  - eexists [_]. split; [done|]. repeat constructor.
Qed.

Lemma download_categories_failed (E : Env) (fdl : string → list string)
    (restart : bool) (pages : list string) (w : World) :
  (∀ history page, page ∈ pages →
     status_code (requests_get E history (base_url +:+ page)) ≠ 200) →
  ∃ evs, foldl (download_category E fdl restart) (w, ∅) pages
         = ({| files := files w; trace := trace w ++ evs |}, ∅)
         ∧ Forall is_print evs.
Proof.
  revert w. induction pages as [|page pages IH]; intros w Hfail.
  - exists []. rewrite app_nil_r. by destruct w.
  - cbn [foldl].
    destruct (download_category_failed E fdl restart page w ∅)
      as (evs1 & -> & Hpr1).
    { intros history. apply Hfail. set_solver. }
    destruct (IH {| files := files w; trace := trace w ++ evs1 |})
      as (evs2 & -> & Hpr2).
    { intros history p Hp. apply Hfail. set_solver. }
    exists (evs1 ++ evs2). cbn [files trace]. rewrite app_assoc.
    split; [done|]. by apply Forall_app.
Qed.

(** ** What a run of [download.py] leaves behind *)

(** X13.  Every entry of the map that [main] of [download.py] builds and
    writes to [article_map.json] is keyed by the name that
    [article_pattern] isolates from its link, a non-empty name without
    ["/"], and its path is [./data/<category>/<name>.html] for one of the
    27 category names [num], [a], ..., [z] ([category_names_eq]); the
    file written last holds the dump of exactly that map, and the
    argument of [exit] is 0. *)
Theorem seed_map_entries (E : Env) (fdl : string → list string)
    (restart : bool) (w w' : World) (article_map : registry) (code : Z) :
  download_main E fdl restart w = (w', article_map, code) →
  code = 0
  ∧ files w' !! seed_map_json = Some (json_dump_registry E article_map)
  ∧ ∀ k d, article_map !! k = Some d →
      re_search article_pattern (link d) = Some k
      ∧ k ≠ "" ∧ str_contains "/" k = false
      ∧ ∃ cat, cat ∈ category_names
               ∧ path d = "./data/" +:+ cat +:+ "/" +:+ k +:+ ".html".
Proof.
  intros (-> & Hent & w1 & _ & ->)%download_pages_inv.
  split; [done|]. split; [by apply lookup_insert_eq|].
  intros k d (Hna & page & cat & Hpage & Hcat & Hpath)%Hent.
  pose proof Hna as (_ & _ & _ & _ & Hn & Hsep).
  split; [by apply re_search_article_complete|].
  split; [done|]. split; [done|].
  exists cat. split; [by eapply category_names_elem|].
  rewrite Hpath. apply category_article_path; [|done..].
  by eapply category_names_elem.
Qed.

Lemma seed_map_entries_witness :
  download_main SeedDemo.env SeedDemo.find_dictionary_links false
    SeedDemo.world = SeedDemo.run
  ∧ SeedDemo.run.1.2 !! "asset"
    = Some {| path := "./data/a/asset.html"; link := SeedDemo.url_asset |}
  ∧ re_search article_pattern SeedDemo.url_asset = Some "asset"
  ∧ ∃ cat, cat ∈ category_names
           ∧ "./data/a/asset.html"
             = "./data/" +:+ cat +:+ "/" +:+ "asset" +:+ ".html".
Proof.
  assert (H : download_main SeedDemo.env SeedDemo.find_dictionary_links false
                SeedDemo.world
              = (SeedDemo.run.1.1, SeedDemo.run.1.2, SeedDemo.run.2))
    by (vm_compute; reflexivity).
  assert (Hk : SeedDemo.run.1.2 !! "asset"
               = Some {| path := "./data/a/asset.html";
                         link := SeedDemo.url_asset |})
    by (vm_compute; reflexivity).
  split; [exact H|]. split; [exact Hk|].
  destruct (seed_map_entries _ _ _ _ _ _ _ H) as (_ & _ & Hent).
  destruct (Hent _ _ Hk) as (Hre & _ & _ & Hcat).
  exact (conj Hre Hcat).
Defined.

(** X14.  Without [--restart], [main] of [download.py] fetches an article
    only to a path at which no file existed when it started, and every
    file that existed, apart from [article_map.json], still has its
    content when it exits: an article that is on disk is neither fetched
    again nor overwritten. *)
Theorem existing_articles_left_alone (E : Env) (fdl : string → list string)
    (w w' : World) (article_map : registry) (code : Z) :
  download_main E fdl false w = (w', article_map, code) →
  (∀ p c, p ≠ seed_map_json → files w !! p = Some c →
          files w' !! p = Some c)
  ∧ ∃ evs, trace w' = trace w ++ evs
           ∧ ∀ l p, (l, p) ∈ downloads evs → files w !! p = None.
Proof.
  intros (_ & _ & w1 & ((evs & Ht & Hd) & _ & _ & Hkeep) & ->)
           %download_pages_inv.
  split.
  - intros p c Hp Hc. cbn [write_file files].
    rewrite lookup_insert_ne by done. by apply Hkeep.
  - exists evs. split; [done|]. intros l p Hin. by apply (Hd l p Hin).
Qed.

Lemma existing_articles_left_alone_witness :
  download_main SeedDemo.env SeedDemo.find_dictionary_links false
    SeedDemo.world = SeedDemo.run
  ∧ files SeedDemo.world !! "./data/a/alpha.html" = Some "alpha page"
  ∧ files SeedDemo.run.1.1 !! "./data/a/alpha.html" = Some "alpha page"
  ∧ downloads (trace SeedDemo.run.1.1)
    = [(SeedDemo.url_asset, "./data/a/asset.html")].
Proof.
  assert (H : download_main SeedDemo.env SeedDemo.find_dictionary_links false
                SeedDemo.world
              = (SeedDemo.run.1.1, SeedDemo.run.1.2, SeedDemo.run.2))
    by (vm_compute; reflexivity).
  assert (Hc : files SeedDemo.world !! "./data/a/alpha.html"
               = Some "alpha page") by (vm_compute; reflexivity).
  assert (Hp : "./data/a/alpha.html" ≠ seed_map_json) by discriminate.
  split; [exact H|]. split; [exact Hc|].
  split; [|vm_compute; reflexivity].
  exact (proj1 (existing_articles_left_alone _ _ _ _ _ _ H) _ _ Hp Hc).
Defined.

(** X15.  When none of the category pages is served with status 200,
    [main] of [download.py] fetches no article and still writes
    [article_map.json], with the dump of the empty map: a seed map left
    by an earlier run is replaced, every other file is untouched, and the
    argument of [exit] is 0. *)
Theorem unserved_categories_empty_map (E : Env) (fdl : string → list string)
    (restart : bool) (w : World) :
  (∀ history page, page ∈ category_pages →
     status_code (requests_get E history (base_url +:+ page)) ≠ 200) →
  ∃ w', download_main E fdl restart w = (w', ∅, 0)
        ∧ files w' = <[seed_map_json := json_dump_registry E ∅]> (files w)
        ∧ ∃ evs, trace w' = trace w ++ evs ∧ Forall is_print evs.
Proof.
  intros Hfail. unfold download_main, download_pages.
  destruct (download_categories_failed E fdl restart category_pages w Hfail)
    as (evs & -> & Hpr).
  eexists. split; [done|]. split; [done|]. by exists evs.
Qed.

Lemma unserved_categories_empty_map_witness :
  files SeedDemo.world !! seed_map_json = Some "alpha=./data/a/alpha.html"
  ∧ ∃ w', download_main SeedDemo.offline SeedDemo.find_dictionary_links true
            SeedDemo.world = (w', ∅, 0)
          ∧ files w'
            = <[seed_map_json := json_dump_registry SeedDemo.offline ∅]>
                (files SeedDemo.world)
          ∧ ∃ evs, trace w' = trace SeedDemo.world ++ evs
                   ∧ Forall is_print evs.
Proof.
  split; [vm_compute; reflexivity|].
  apply (unserved_categories_empty_map SeedDemo.offline).
  intros history page _. simpl. lia.
Defined.

(** X16.  [main] of [download.py] writes its map to [article_map.json] in
    the working directory and its articles below [./data], so it never
    creates [./graph/article_map.json], the file that [main] of
    [build_graph.py] requires: when that file is absent before
    [download.py] runs, [build_graph.py] run right after it prints its two
    error lines and exits with 1, whatever the site served. *)
Theorem seed_map_not_where_crawler_reads (E : Env)
    (fdl : string → list string) (restart : bool) (w w' : World)
    (article_map : registry) (code : Z) (fuel : nat) (restart' : bool)
    (depth : Z) :
  files w !! article_json = None →
  download_main E fdl restart w = (w', article_map, code) →
  files w' !! article_json = None
  ∧ main E fuel restart' depth w'
    = Ok (print seed_missing_msg2 (print seed_missing_msg1 w'), 1).
Proof.
  intros Hnone (_ & _ & w1 & (_ & Hother & _) & ->)%download_pages_inv.
  assert (Hw' : files (write_file seed_map_json
                         (json_dump_registry E article_map) w1)
                !! article_json = None).
  { cbn [write_file files]. rewrite lookup_insert_ne by discriminate.
    rewrite Hother; [done|].
    intros (page & cat & name & Hpage & Hcat & Hn & Hsep & Hpath).
    rewrite category_article_path in Hpath;
      [|by eapply category_names_elem|done..].
    discriminate Hpath. }
  split; [done|]. by apply main_seed_absent.
Qed.

Lemma seed_map_not_where_crawler_reads_witness :
  files SeedDemo.world !! article_json = None
  ∧ download_main SeedDemo.env SeedDemo.find_dictionary_links false
      SeedDemo.world = SeedDemo.run
  ∧ main SeedDemo.env 2 false 1 SeedDemo.run.1.1
    = Ok (print seed_missing_msg2
            (print seed_missing_msg1 SeedDemo.run.1.1), 1).
Proof.
  assert (Hnone : files SeedDemo.world !! article_json = None)
    by (vm_compute; reflexivity).
  assert (H : download_main SeedDemo.env SeedDemo.find_dictionary_links false
                SeedDemo.world
              = (SeedDemo.run.1.1, SeedDemo.run.1.2, SeedDemo.run.2))
    by (vm_compute; reflexivity).
  split; [exact Hnone|]. split; [exact H|].
  exact (proj2 (seed_map_not_where_crawler_reads _ _ _ _ _ _ _ 2%nat false 1
                  Hnone H)).
Defined.
